(** * AI Personal Operating System: capture, analytics and project services

    A shallow embedding of the three backend services of the repository
    (capture-service.tsx, analytics-service.tsx, project-service.tsx) and the
    properties of the specification that concern them.

    Conventions of the embedding.
    - A JavaScript string is a [string]; a character stands for one code unit
      below 256 (Latin-1).
    - A JavaScript number is a rational [Q] that is a binary64 value; every
      arithmetic operation rounds its exact result to the nearest binary64
      value, ties to even ([fl]).  Overflow to Infinity and NaN are not
      modelled: the numbers of these services are counts, minutes and scores.
    - An exception is the [Throw] of the [result] type; [try_catch] is the
      try/catch block.  An awaited promise is the computation it stands for. *)

From Stdlib Require Import Ascii ZArith QArith Qround Qabs Qpower Lia Lqa.
From stdpp Require Import gmap strings list pretty sorting.

Set Warnings "-register-all".

(** ** Exceptions *)

Inductive result (A : Type) : Type :=
| Ok (a : A)
| Throw (e : string).
Arguments Ok {A} a.
Arguments Throw {A} e.

Definition try_catch {A} (body : result A) (handler : string -> A) : A :=
  match body with
  | Ok a => a
  | Throw e => handler e
  end.

Global Instance result_ret : MRet result := fun A a => Ok a.
Global Instance result_bind : MBind result := fun A B k m =>
  match m with
  | Ok a => k a
  | Throw e => Throw e
  end.

(** ** Strings *)

Module JsString.

Definition is_upper (c : ascii) : bool :=
  let n := nat_of_ascii c in
  ((65 <=? n) && (n <=? 90)) || ((192 <=? n) && (n <=? 222) && negb (n =? 215)).

Definition lower_char (c : ascii) : ascii :=
  if is_upper c then ascii_of_nat (nat_of_ascii c + 32) else c.

(** [s.toLowerCase()] *)
Fixpoint toLowerCase (s : string) : string :=
  match s with
  | "" => ""
  | String c s' => String (lower_char c) (toLowerCase s')
  end.

(** [s.includes(sub)] *)
Fixpoint includes (s sub : string) : bool :=
  String.prefix sub s ||
  match s with
  | "" => false
  | String _ s' => includes s' sub
  end.

(** White space of [trim]: TAB, LF, VT, FF, CR, SP and NBSP. *)
Definition is_white (c : ascii) : bool :=
  Ascii.is_space c || (nat_of_ascii c =? 160).

Fixpoint trimStart (s : string) : string :=
  match s with
  | "" => ""
  | String c s' => if is_white c then trimStart s' else s
  end.

(** [s.trim()] *)
Definition trim (s : string) : string :=
  String.rev (trimStart (String.rev (trimStart s))).

(** [s.substring(0, n)] *)
Definition substring0 (n : nat) (s : string) : string :=
  String.substring 0 n s.

Definition is_sentence_end (c : ascii) : bool :=
  match c with
  | "."%char | "!"%char | "?"%char => true
  | _ => false
  end.

(** [s.split(/[.!?]+/)]: the pieces between maximal runs of '.', '!', '?'.
    [cur] is the piece being read, reversed; [in_sep] says that the
    previous character belonged to a separator. *)
Fixpoint split_go (cur : string) (in_sep : bool) (s : string) : list string :=
  match s with
  | "" => [String.rev cur]
  | String c s' =>
      if is_sentence_end c
      then (if in_sep then split_go "" true s'
            else String.rev cur :: split_go "" true s')
      else split_go (String c cur) false s'
  end.

Definition split_sentence_ends (s : string) : list string :=
  split_go "" false s.

(** No '.', '!' or '?' occurs in [s]. *)
Fixpoint no_sentence_end (s : string) : bool :=
  match s with
  | "" => true
  | String c s' => negb (is_sentence_end c) && no_sentence_end s'
  end.

(** [s] read as a proposition: [sub] occurs in [s]. *)
Definition occurs_in (sub s : string) : Prop :=
  exists pre post, s = pre +:+ sub +:+ post.

End JsString.
Import JsString.

(** ** Capture service: the heuristic analyzer (capture-service.tsx) *)

Inductive Priority := high | medium | low.

Definition priority_name (p : Priority) : string :=
  match p with
  | high => "high"
  | medium => "medium"
  | low => "low"
  end.

Definition sentences_of (content : string) : list string :=
  filter (fun s => 0 < String.length (trim s)) (split_sentence_ends content).

(** [generateFallbackSummary] (capture-service.tsx, lines 147-151) *)
Definition generateFallbackSummary (content : string) : string :=
  let sentences := sentences_of content in
  if decide (length sentences = 0) then substring0 100 content +:+ "..."
  else trim (default "" (sentences !! 0%nat))
       +:+ (if decide (1 < length sentences) then "..." else "").

Definition urgentWords : list string :=
  ["urgent"; "asap"; "deadline"; "critical"; "important"; "priority"].

Definition highPriorityWords : list string :=
  ["meeting"; "client"; "project"; "due"].

(** [determinePriority] (capture-service.tsx, lines 167-175) *)
Definition determinePriority (content : string) : Priority :=
  let lowerContent := toLowerCase content in
  if existsb (fun word => includes lowerContent word) urgentWords then high
  else if existsb (fun word => includes lowerContent word) highPriorityWords then medium
  else low.

(** One of the [words] occurs in [s]. *)
Definition some_occurs (words : list string) (s : string) : Prop :=
  exists word, word ∈ words /\ occurs_in word s.

Inductive CaptureType :=
| c_email | c_note | c_task | c_idea | c_link | c_file | c_voice.

Record CaptureData := {
  cd_type : CaptureType;
  cd_content : string
}.

(** [categorizeContent] (capture-service.tsx, lines 153-165) *)
Definition categorizeContent (content : string) (type : CaptureType) : string :=
  let lowerContent := toLowerCase content in
  match type with
  | c_email => "communication"
  | c_task => "task"
  | c_idea => "idea"
  | _ =>
      if includes lowerContent "meeting" || includes lowerContent "call" then "meeting"
      else if includes lowerContent "research" || includes lowerContent "study" then "research"
      else if includes lowerContent "plan" || includes lowerContent "strategy" then "planning"
      else "general"
  end.

(** [generateSuggestedActions] (capture-service.tsx, lines 177-194) *)
Definition generateSuggestedActions (captureData : CaptureData) : list string :=
  let content := toLowerCase (cd_content captureData) in
  let actions :=
    match cd_type captureData with
    | c_email => ["Reply to email"; "Add to calendar"; "Create task"]
    | c_idea => ["Create project"; "Add to research list"; "Schedule brainstorm"]
    | c_task => ["Set deadline"; "Assign priority"; "Add to project"]
    | _ => []
    end in
  let actions :=
    if includes content "meeting" then actions ++ ["Schedule meeting"] else actions in
  let actions :=
    if includes content "research" then actions ++ ["Create research project"] else actions in
  let actions :=
    if includes content "follow up" then actions ++ ["Set reminder"] else actions in
  take 3 actions.

(** [[...new Set(l)]]: the first occurrence of every element, in order. *)
Fixpoint unique_go (seen l : list string) : list string :=
  match l with
  | [] => []
  | x :: l' => if decide (x ∈ seen) then unique_go seen l' else x :: unique_go (x :: seen) l'
  end.
Definition unique (l : list string) : list string := unique_go [] l.

(** ** JavaScript values, as [JSON.parse] and an untyped reply produce them *)

Inductive jsval :=
| JUndefined
| JNull
| JBool (b : bool)
| JNum (q : Q)
| JStr (s : string)
| JArr (items : list jsval)
| JObj (fields : list (string * jsval)).

(** ToBoolean *)
Definition truthy (v : jsval) : bool :=
  match v with
  | JUndefined | JNull => false
  | JBool b => b
  | JNum q => negb (Qeq_bool q 0)
  | JStr s => negb (String.eqb s "")
  | JArr _ | JObj _ => true
  end.

(** [v || w] *)
Definition js_or (v w : jsval) : jsval := if truthy v then v else w.

Fixpoint assoc (name : string) (fields : list (string * jsval)) : jsval :=
  match fields with
  | [] => JUndefined
  | (k, v) :: rest => if String.eqb k name then v else assoc name rest
  end.

(** [v.name], for a name that no built-in prototype defines: a TypeError on
    undefined and null, the field of an object, undefined on anything else. *)
Definition get_prop (v : jsval) (name : string) : result jsval :=
  match v with
  | JUndefined | JNull => Throw "TypeError"
  | JObj fields => Ok (assoc name fields)
  | _ => Ok JUndefined
  end.

(** [v?.name] *)
Definition get_prop_opt (v : jsval) (name : string) : jsval :=
  match v with
  | JObj fields => assoc name fields
  | _ => JUndefined
  end.

(** [v[0]] *)
Definition get_first (v : jsval) : result jsval :=
  match v with
  | JUndefined | JNull => Throw "TypeError"
  | JArr items => Ok (default JUndefined (head items))
  | JObj fields => Ok (assoc "0" fields)
  | JStr (String c _) => Ok (JStr (String c ""))
  | _ => Ok JUndefined
  end.

(** What [fetch] gives: a rejection, or a response with its [ok] flag and the
    outcome of [response.json()]. *)
Inductive fetch_result :=
| FetchRejected
| FetchResponse (ok : bool) (json : result jsval).

Record ExtractedEntities := {
  people : jsval;
  dates : jsval;
  projects : jsval;
  tasks : jsval
}.

Record ProcessedContent := {
  summary : jsval;
  category : jsval;
  priority : jsval;
  suggestedActions : jsval;
  extractedEntities : ExtractedEntities
}.

Definition strings (l : list string) : jsval := JArr (JStr <$> l).

Section CaptureService.

(** Built-ins of the platform: [JSON.parse] ([Throw] is its SyntaxError) and
    the regular-expression engine, one matcher per pattern of the source
    ([content.match(pattern) || []]). *)
Variable JSON_parse : jsval -> result jsval.
Variable match_namePattern : string -> list string.
Variable match_datePatterns : list (string -> list string).
Variable match_taskPattern : string -> list string.
Variable strip_task_verb : string -> string.

(** [extractPeople] (capture-service.tsx, lines 196-201) *)
Definition extractPeople (content : string) : list string :=
  take 5 (unique (match_namePattern content)).

(** [extractDates] (capture-service.tsx, lines 203-219) *)
Definition extractDates (content : string) : list string :=
  let dates := concat ((fun pattern => pattern content) <$> match_datePatterns) in
  take 3 (unique dates).

(** [extractTasks] (capture-service.tsx, lines 221-225) *)
Definition extractTasks (content : string) : list string :=
  take 3 ((fun m => trim (strip_task_verb m)) <$> match_taskPattern content).

(** [data.choices[0]?.message?.content || '{}'] *)
Definition reply_content (data : jsval) : result jsval :=
  choices ← get_prop data "choices";
  first ← get_first choices;
  mret (js_or (get_prop_opt (get_prop_opt first "message") "content") (JStr "{}")).

(** [analyzeWithOpenAI] (capture-service.tsx, lines 91-130) *)
Definition analyzeWithOpenAI (response : fetch_result) : jsval :=
  try_catch
    (match response with
     | FetchRejected => Throw "fetch"
     | FetchResponse true json =>
         data ← json;
         content ← reply_content data;
         JSON_parse content
     | FetchResponse false _ => Ok (JObj [])
     end)
    (fun _ => JObj []).

(** [getFallbackProcessing] (capture-service.tsx, lines 132-145) *)
Definition getFallbackProcessing (captureData : CaptureData) : ProcessedContent :=
  let content := cd_content captureData in
  {| summary := JStr (generateFallbackSummary content);
     category := JStr (categorizeContent content (cd_type captureData));
     priority := JStr (priority_name (determinePriority content));
     suggestedActions := strings (generateSuggestedActions captureData);
     extractedEntities :=
       {| people := strings (extractPeople content);
          dates := strings (extractDates content);
          projects := JArr [];
          tasks := strings (extractTasks content) |} |}.

(** [processWithAI] (capture-service.tsx, lines 68-89) *)
Definition processWithAI (response : fetch_result) (captureData : CaptureData)
  : ProcessedContent :=
  let content := cd_content captureData in
  try_catch
    (let analysis := analyzeWithOpenAI response in
     a_summary ← get_prop analysis "summary";
     a_category ← get_prop analysis "category";
     a_priority ← get_prop analysis "priority";
     a_actions ← get_prop analysis "actions";
     a_people ← get_prop analysis "people";
     a_dates ← get_prop analysis "dates";
     a_projects ← get_prop analysis "projects";
     a_tasks ← get_prop analysis "tasks";
     mret
       {| summary := js_or a_summary (JStr (generateFallbackSummary content));
          category := js_or a_category (JStr (categorizeContent content (cd_type captureData)));
          priority := js_or a_priority (JStr (priority_name (determinePriority content)));
          suggestedActions := js_or a_actions (strings (generateSuggestedActions captureData));
          extractedEntities :=
            {| people := js_or a_people (strings (extractPeople content));
               dates := js_or a_dates (strings (extractDates content));
               projects := js_or a_projects (JArr []);
               tasks := js_or a_tasks (strings (extractTasks content)) |} |})
    (fun _ => getFallbackProcessing captureData).

(** The gateway call has failed: a network error, a status that is not 2xx,
    a body that is not JSON, a body without a first choice to read, or a
    reply that [JSON.parse] rejects. *)
Inductive gateway_failed : fetch_result -> Prop :=
| failed_network : gateway_failed FetchRejected
| failed_status json : gateway_failed (FetchResponse false json)
| failed_body e : gateway_failed (FetchResponse true (Throw e))
| failed_shape data e :
    reply_content data = Throw e ->
    gateway_failed (FetchResponse true (Ok data))
| failed_reply data content e :
    reply_content data = Ok content ->
    JSON_parse content = Throw e ->
    gateway_failed (FetchResponse true (Ok data)).

End CaptureService.

(** Every field of the processed object holds a value. *)
Definition fully_populated (p : ProcessedContent) : Prop :=
  truthy (summary p) = true /\ truthy (category p) = true /\
  truthy (priority p) = true /\ truthy (suggestedActions p) = true /\
  truthy (people (extractedEntities p)) = true /\
  truthy (dates (extractedEntities p)) = true /\
  truthy (projects (extractedEntities p)) = true /\
  truthy (tasks (extractedEntities p)) = true.

(** ** Numbers: binary64 arithmetic on rationals *)

Module JsNumber.

Definition pow2 (e : Z) : Q := Qpower 2 e.

(** floor (log2 x), for 0 < x *)
Definition ilog2 (x : Q) : Z :=
  let d := (Z.log2 (Qnum x) - Z.log2 (Zpos (Qden x)))%Z in
  if Qle_bool (pow2 d) x then d else (d - 1)%Z.

(** The nearest integer, ties to the even one. *)
Definition round_ties_even (t : Q) : Z :=
  let f := Qfloor t in
  match Qcompare (t - inject_Z f) (1 # 2) with
  | Lt => f
  | Gt => (f + 1)%Z
  | Eq => if Z.even f then f else (f + 1)%Z
  end.

(** The exponent of the last place of the binary64 values around [x]:
    53 significant bits, and 2^-1074 as the smallest step. *)
Definition ulp_exp (x : Q) : Z := Z.max (ilog2 x - 52) (-1074).

Definition fl_pos (x : Q) : Q :=
  inject_Z (round_ties_even (x / pow2 (ulp_exp x))) * pow2 (ulp_exp x).

(** Rounding of an exact result to binary64. *)
Definition fl (x : Q) : Q :=
  match Qnum x with
  | Z0 => 0
  | Zpos _ => Qred (fl_pos x)
  | Zneg _ => Qred (- fl_pos (- x))
  end.

Definition fadd (x y : Q) : Q := fl (x + y).
Definition fmul (x y : Q) : Q := fl (x * y).
Definition fdiv (x y : Q) : Q := fl (x / y).

(** [Math.round]: the nearest integer, ties upwards. *)
Definition Math_round (x : Q) : Z := Qfloor (x + (1 # 2)).

(** [Math.max] *)
Definition Math_max (x y : Q) : Q := if Qle_bool x y then y else x.

(** [x > y], [x < y] and [x === y] on numbers *)
Definition js_gt (x y : Q) : bool := negb (Qle_bool x y).
Definition js_lt (x y : Q) : bool := negb (Qle_bool y x).
Definition js_eq (x y : Q) : bool := Qeq_bool x y.

(** A value of the binary64 format. *)
Definition representable (r : Q) : Prop :=
  exists m e : Z, (Z.abs m <= 2 ^ 53)%Z /\ (-1074 <= e)%Z /\ r == inject_Z m * pow2 e.

(** The unit roundoff of binary64, 2^-53: the largest relative error of a
    rounding in the normal range. *)
Definition unit_roundoff : Q := 1 # 9007199254740992.

End JsNumber.
Import JsNumber.

(** ** Documents of the store *)

Inductive ProjectStatus := p_active | p_completed | p_paused | p_archived.
Inductive TaskStatus := t_pending | t_in_progress | t_completed | t_blocked.

Global Instance ProjectStatus_eq_dec : EqDecision ProjectStatus.
Proof. solve_decision. Defined.
Global Instance TaskStatus_eq_dec : EqDecision TaskStatus.
Proof. solve_decision. Defined.
Global Instance Priority_eq_dec : EqDecision Priority.
Proof. solve_decision. Defined.

(** A point in time, in milliseconds; its ISO text is what the store holds. *)
Definition Timestamp := Z.

Module Task.
Record t := mk {
  id : string;
  projectId : string;
  title : string;
  description : option string;
  status : TaskStatus;
  priority : Priority;
  assignee : option string;
  due_date : option Timestamp;
  created : Timestamp;
  updated : Timestamp;
  estimatedHours : option Q;
  actualHours : option Q;
  dependencies : list string;
  tags : list string
}.

(** [Partial<Task>]: [None] is a key that the object does not have. *)
Record partial := mk_partial {
  id' : option string;
  projectId' : option string;
  title' : option string;
  description' : option string;
  status' : option TaskStatus;
  priority' : option Priority;
  assignee' : option string;
  due_date' : option Timestamp;
  created' : option Timestamp;
  updated' : option Timestamp;
  estimatedHours' : option Q;
  actualHours' : option Q;
  dependencies' : option (list string);
  tags' : option (list string)
}.

Definition no_updates : partial :=
  mk_partial None None None None None None None None None None None None None None.
End Task.

Module Project.
Record t := mk {
  id : string;
  userId : string;
  name : string;
  description : string;
  status : ProjectStatus;
  priority : Priority;
  progress : Q;
  tasks : list Task.t;
  team : list string;
  deadline : option string;
  created : Timestamp;
  updated : Timestamp;
  tags : list string;
  metadata : jsval
}.

(** [Partial<Project>] *)
Record partial := mk_partial {
  id' : option string;
  userId' : option string;
  name' : option string;
  description' : option string;
  status' : option ProjectStatus;
  priority' : option Priority;
  progress' : option Q;
  tasks' : option (list Task.t);
  team' : option (list string);
  deadline' : option string;
  created' : option Timestamp;
  updated' : option Timestamp;
  tags' : option (list string);
  metadata' : option jsval
}.

Definition no_updates : partial :=
  mk_partial None None None None None None None None None None None None None None.
End Project.

Record ProductivityMetrics := {
  tasksCompleted : Q;
  tasksCreated : Q;
  focusScore : Q;
  captureCount : Q;
  activeProjects : Q;
  meetingTime : Q;
  deepWorkTime : Q
}.

Inductive ActivityType :=
| task_complete | capture | focus_session | meeting | integration_sync.

Definition activity_type_name (ty : ActivityType) : string :=
  match ty with
  | task_complete => "task_complete"
  | capture => "capture"
  | focus_session => "focus_session"
  | meeting => "meeting"
  | integration_sync => "integration_sync"
  end.

(** The [timestamp?] of an activity: missing (or the empty string), a text
    that [new Date] does not understand, or a point in time. *)
Inductive TimestampArg :=
| ts_absent
| ts_malformed
| ts_valid (at_ : Timestamp).

Record Activity := {
  a_type : ActivityType;
  a_metadata : jsval;
  a_timestamp : TimestampArg
}.

(** An entry of the hourly patterns: [{ count, types }]. *)
Record HourPattern := {
  hp_count : Q;
  hp_types : gmap string Q
}.

Record ProjectAnalytics := {
  pa_projectId : string;
  pa_created : Timestamp;
  pa_actions : list (string * Timestamp)
}.

Inductive doc :=
| DProject (p : Project.t)
| DTask (t : Task.t)
| DMetrics (m : ProductivityMetrics)
| DHourly (h : gmap string HourPattern)
| DProjectAnalytics (a : ProjectAnalytics).

(** ** The world of a request: the store and the environment *)

Record world := {
  kv : gmap string doc;
  (** the faults of the store still to come, one flag for each call *)
  kv_faults : list bool;
  (** [Date.now()] *)
  clock : Z;
  (** the suffixes that [Math.random().toString(36).substr(2, 9)] will give *)
  random : list string;
  (** the calls of [recordActivity] so far, latest first *)
  recorded : list (string * Activity)
}.

Definition M (A : Type) : Type := world -> result A * world.

Global Instance M_ret : MRet M := fun A a w => (Ok a, w).
Global Instance M_bind : MBind M := fun A B k m w =>
  match m w with
  | (Ok a, w') => k a w'
  | (Throw e, w') => (Throw e, w')
  end.

Definition throw {A} (e : string) : M A := fun w => (Throw e, w).

(** [try { body } catch (error) { handler }] *)
Definition try_catch_io {A} (body : M A) (handler : string -> M A) : M A := fun w =>
  match body w with
  | (Ok a, w') => (Ok a, w')
  | (Throw e, w') => handler e w'
  end.

(** [console.log] leaves no trace in the model. *)
Definition console_log (msg : string) : M unit := mret tt.

Definition Date_now : M Z := fun w => (Ok (clock w), w).

Definition random_suffix : M string := fun w =>
  match random w with
  | [] => (Ok "", w)
  | r :: rest =>
      (Ok r, {| kv := kv w; kv_faults := kv_faults w; clock := clock w;
                random := rest; recorded := recorded w |})
  end.

Definition set_kv (w : world) (m : gmap string doc) (faults : list bool) : world :=
  {| kv := m; kv_faults := faults; clock := clock w;
     random := random w; recorded := recorded w |}.

(** One call of the store: it fails when the next fault flag says so. *)
Definition kv_call {A} (op : gmap string doc -> A * gmap string doc) : M A := fun w =>
  let faults := tail (kv_faults w) in
  match head (kv_faults w) with
  | Some true => (Throw "kv", set_kv w (kv w) faults)
  | _ => (Ok (fst (op (kv w))), set_kv w (snd (op (kv w))) faults)
  end.

(** The store adapter, kv_store.tsx, is not among the sources.  The
    specification describes it: the Key-Value Store Adapter "persists
    arbitrary JSON documents under string keys, supports prefix scans". *)
Module kv_store.

(** Modelled from the spec: [kv.get(key)], the document under [key], if any. *)
Definition get (key : string) : M (option doc) :=
  kv_call (fun m => (m !! key, m)).

(** Modelled from the spec: [kv.set(key, value)] persists [value] under
    [key]. *)
Definition set (key : string) (value : doc) : M unit :=
  kv_call (fun m => (tt, <[key := value]> m)).

(** Modelled from the spec: [kv.getByPrefix(prefix)], the documents whose key
    starts with [prefix], in the order of the store. *)
Definition getByPrefix (prefix : string) : M (list doc) :=
  kv_call (fun m =>
    (snd <$> filter (fun kd => String.prefix prefix (fst kd) = true) (map_to_list m), m)).

End kv_store.

(** A document read as a value of the type that the caller declares.  A
    document of another shape has no counterpart in the typed model: its use
    is an exception of the model, the worst that the untyped code can do. *)
Definition as_project (d : doc) : M Project.t :=
  match d with DProject p => mret p | _ => throw "ill-typed document" end.
Definition as_metrics (d : doc) : M ProductivityMetrics :=
  match d with DMetrics m => mret m | _ => throw "ill-typed document" end.
Definition as_hourly (d : doc) : M (gmap string HourPattern) :=
  match d with DHourly h => mret h | _ => throw "ill-typed document" end.
Definition as_project_analytics (d : doc) : M ProjectAnalytics :=
  match d with DProjectAnalytics a => mret a | _ => throw "ill-typed document" end.

(** ** Analytics service (analytics-service.tsx) *)

Definition zero_metrics : ProductivityMetrics :=
  {| tasksCompleted := 0; tasksCreated := 0; focusScore := 0; captureCount := 0;
     activeProjects := 0; meetingTime := 0; deepWorkTime := 0 |}.

(** [calculateFocusScore] (analytics-service.tsx, lines 214-223) *)
Definition calculateFocusScore (metrics : ProductivityMetrics) : Q :=
  let totalTime := fadd (deepWorkTime metrics) (meetingTime metrics) in
  if js_eq totalTime 0 then 0
  else
    let focusRatio := fdiv (deepWorkTime metrics) totalTime in
    let taskRatio := fdiv (tasksCompleted metrics) (Math_max (tasksCreated metrics) 1) in
    inject_Z (Math_round
      (fmul (fadd (fmul focusRatio (fl (6 # 10))) (fmul taskRatio (fl (4 # 10)))) 100)).

(** [x += v] for a number [x] and the value [v] of an untyped field that the
    caller has passed through [|| 0]. *)
Definition plus_assign (x : Q) (v : jsval) : result Q :=
  match v with
  | JNum d => Ok (fadd x d)
  | JBool b => Ok (fadd x (if b then 1 else 0))
  | JNull => Ok (fadd x 0)
  | _ => Throw "ill-typed number"
  end.

(** [activity.metadata?.duration || 0] *)
Definition duration_of (activity : Activity) : jsval :=
  js_or (get_prop_opt (a_metadata activity) "duration") (JNum 0).

(** The [switch (activity.type)] of [updateDailyMetrics]. *)
Definition daily_switch (activity : Activity) (metrics : ProductivityMetrics)
  : result ProductivityMetrics :=
  match a_type activity with
  | task_complete =>
      Ok {| tasksCompleted := fadd (tasksCompleted metrics) 1;
            tasksCreated := tasksCreated metrics; focusScore := focusScore metrics;
            captureCount := captureCount metrics; activeProjects := activeProjects metrics;
            meetingTime := meetingTime metrics; deepWorkTime := deepWorkTime metrics |}
  | capture =>
      Ok {| tasksCompleted := tasksCompleted metrics;
            tasksCreated := tasksCreated metrics; focusScore := focusScore metrics;
            captureCount := fadd (captureCount metrics) 1;
            activeProjects := activeProjects metrics;
            meetingTime := meetingTime metrics; deepWorkTime := deepWorkTime metrics |}
  | focus_session =>
      deep ← plus_assign (deepWorkTime metrics) (duration_of activity);
      let metrics1 :=
        {| tasksCompleted := tasksCompleted metrics;
           tasksCreated := tasksCreated metrics; focusScore := focusScore metrics;
           captureCount := captureCount metrics; activeProjects := activeProjects metrics;
           meetingTime := meetingTime metrics; deepWorkTime := deep |} in
      Ok {| tasksCompleted := tasksCompleted metrics1;
            tasksCreated := tasksCreated metrics1;
            focusScore := calculateFocusScore metrics1;
            captureCount := captureCount metrics1; activeProjects := activeProjects metrics1;
            meetingTime := meetingTime metrics1; deepWorkTime := deepWorkTime metrics1 |}
  | meeting =>
      met ← plus_assign (meetingTime metrics) (duration_of activity);
      Ok {| tasksCompleted := tasksCompleted metrics;
            tasksCreated := tasksCreated metrics; focusScore := focusScore metrics;
            captureCount := captureCount metrics; activeProjects := activeProjects metrics;
            meetingTime := met; deepWorkTime := deepWorkTime metrics |}
  | integration_sync => Ok metrics
  end.

(** The [switch (activity.type)] of [updatePeriodMetric]. *)
Definition period_switch (activity : Activity) (metrics : ProductivityMetrics)
  : result ProductivityMetrics :=
  match a_type activity with
  | task_complete =>
      Ok {| tasksCompleted := fadd (tasksCompleted metrics) 1;
            tasksCreated := tasksCreated metrics; focusScore := focusScore metrics;
            captureCount := captureCount metrics; activeProjects := activeProjects metrics;
            meetingTime := meetingTime metrics; deepWorkTime := deepWorkTime metrics |}
  | capture =>
      Ok {| tasksCompleted := tasksCompleted metrics;
            tasksCreated := tasksCreated metrics; focusScore := focusScore metrics;
            captureCount := fadd (captureCount metrics) 1;
            activeProjects := activeProjects metrics;
            meetingTime := meetingTime metrics; deepWorkTime := deepWorkTime metrics |}
  | _ => Ok metrics
  end.

Definition lift {A} (r : result A) : M A := fun w => (r, w).

(** [values.slice(-n)] and [values.slice(-m, -n)] for [n <= m] *)
Definition slice_last {A} (n : nat) (l : list A) : list A :=
  drop (length l - n) l.
Definition slice_between {A} (m n : nat) (l : list A) : list A :=
  take (length l - n - (length l - m)) (drop (length l - m) l).

Inductive Trend := up | down | stable.

(** [values.reduce((sum, val) => sum + val, 0)] *)
Definition sum_values (values : list Q) : Q :=
  foldl (fun sum val => fadd sum val) 0%Q values.

(** [calculateTrend] (analytics-service.tsx, lines 294-303) *)
Definition calculateTrend (values : list Q) : Trend :=
  if decide (length values < 2) then stable
  else
    let recent := fdiv (sum_values (slice_last 3 values)) 3 in
    let previous := fdiv (sum_values (slice_between 6 3 values)) 3 in
    if js_gt recent (fmul previous (fl (11 # 10))) then up
    else if js_lt recent (fmul previous (fl (9 # 10))) then down
    else stable.

(** The mean that [calculateTrend] takes of three points. *)
Definition mean3 (x y z : Q) : Q := fdiv (fadd (fadd (fadd 0 x) y) z) 3.

(** [${n}] for a number that may be NaN ([None]) *)
Definition number_text (n : option Z) : string :=
  match n with
  | Some z => pretty z
  | None => "NaN"
  end.

Definition note_recorded (userId : string) (activity : Activity) : M unit := fun w =>
  (Ok tt, {| kv := kv w; kv_faults := kv_faults w; clock := clock w;
             random := random w; recorded := (userId, activity) :: recorded w |}).

Section AnalyticsService.

(** The calendar of the platform, for a valid [Date] (it depends on the
    time zone of the process). *)
Variable toDateString : Timestamp -> string.
Variables getHours getFullYear getMonth getDate : Timestamp -> Z.

(** A [Date] object: [None] is the Invalid Date. *)
Definition JsDate := option Timestamp.

Definition date_toDateString (date : JsDate) : string :=
  match date with
  | Some t => toDateString t
  | None => "Invalid Date"
  end.

(** [getWeekKey] (analytics-service.tsx, lines 397-400) *)
Definition getWeekKey (date : JsDate) : string :=
  let week := (fun t => Qceiling (fdiv (inject_Z (getDate t)) 7)) <$> date in
  number_text (getFullYear <$> date) +:+ "-" +:+ number_text (getMonth <$> date)
    +:+ "-W" +:+ number_text week.

(** [getMonthKey] (analytics-service.tsx, lines 402-404) *)
Definition getMonthKey (date : JsDate) : string :=
  number_text (getFullYear <$> date) +:+ "-" +:+ number_text (getMonth <$> date).

(** [updateDailyMetrics] (analytics-service.tsx, lines 120-153) *)
Definition updateDailyMetrics (userId dayKey : string) (activity : Activity) : M unit :=
  try_catch_io
    (let metricsKey := "user:" +:+ userId +:+ ":metrics:" +:+ dayKey in
     stored ← kv_store.get metricsKey;
     metrics ← from_option as_metrics (mret zero_metrics) stored;
     metrics ← lift (daily_switch activity metrics);
     kv_store.set metricsKey (DMetrics metrics))
    (fun error => console_log "Update daily metrics error:").

(** [updateHourlyPatterns] (analytics-service.tsx, lines 155-171) *)
Definition updateHourlyPatterns (userId : string) (hour : option Z) (activity : Activity)
  : M unit :=
  try_catch_io
    (let patternsKey := "user:" +:+ userId +:+ ":patterns:hourly" in
     stored ← kv_store.get patternsKey;
     patterns ← from_option as_hourly (mret ∅) stored;
     let slot := number_text hour in
     let entry := default {| hp_count := 0; hp_types := ∅ |} (patterns !! slot) in
     let type := activity_type_name (a_type activity) in
     let seen := default 0%Q (hp_types entry !! type) in
     let seen := if js_eq seen 0 then 0%Q else seen in
     let entry := {| hp_count := fadd (hp_count entry) 1;
                     hp_types := <[type := fadd seen 1]> (hp_types entry) |} in
     kv_store.set patternsKey (DHourly (<[slot := entry]> patterns)))
    (fun error => console_log "Update hourly patterns error:").

(** [updatePeriodMetric] (analytics-service.tsx, lines 188-212) *)
Definition updatePeriodMetric (userId period key : string) (activity : Activity) : M unit :=
  let metricsKey := "user:" +:+ userId +:+ ":metrics:" +:+ period +:+ ":" +:+ key in
  stored ← kv_store.get metricsKey;
  metrics ← from_option as_metrics (mret zero_metrics) stored;
  metrics ← lift (period_switch activity metrics);
  kv_store.set metricsKey (DMetrics metrics).

(** [updatePeriodMetrics] (analytics-service.tsx, lines 173-186) *)
Definition updatePeriodMetrics (userId : string) (date : JsDate) (activity : Activity)
  : M unit :=
  try_catch_io
    (let weekKey := getWeekKey date in
     let monthKey := getMonthKey date in
     _ ← updatePeriodMetric userId "weekly" weekKey activity;
     updatePeriodMetric userId "monthly" monthKey activity)
    (fun error => console_log "Update period metrics error:").

(** [recordActivity] (analytics-service.tsx, lines 65-88) *)
Definition recordActivity (userId : string) (activity : Activity) : M unit :=
  _ ← note_recorded userId activity;
  try_catch_io
    (now ← Date_now;
     let date : JsDate :=
       match a_timestamp activity with
       | ts_absent => Some now
       | ts_malformed => None
       | ts_valid t => Some t
       end in
     let dayKey := date_toDateString date in
     let hour := getHours <$> date in
     _ ← updateDailyMetrics userId dayKey activity;
     _ ← updateHourlyPatterns userId hour activity;
     updatePeriodMetrics userId date activity)
    (fun error => console_log "Record activity error:").

End AnalyticsService.

(** ** Project service (project-service.tsx) *)

Definition is_completed (task : Task.t) : bool :=
  bool_decide (Task.status task = t_completed).

(** [calculateProgress] (project-service.tsx, lines 269-274) *)
Definition calculateProgress (tasks : list Task.t) : Q :=
  if decide (length tasks = 0) then 0
  else
    let completedTasks := length (filter (fun task => is_completed task = true) tasks) in
    inject_Z (Math_round
      (fmul (fdiv (inject_Z (Z.of_nat completedTasks)) (inject_Z (Z.of_nat (length tasks))))
            100)).

Definition project_key (userId projectId : string) : string :=
  "user:" +:+ userId +:+ ":project:" +:+ projectId.
Definition task_key (userId taskId : string) : string :=
  "user:" +:+ userId +:+ ":task:" +:+ taskId.

(** [new Date(d.updated).getTime()], NaN ([None]) for a document without a
    date under [updated]. *)
Definition doc_updated (d : doc) : option Z :=
  match d with
  | DProject p => Some (Project.updated p)
  | DTask t => Some (Task.updated t)
  | _ => None
  end.

(** [(a, b) => getTime(b.updated) - getTime(a.updated)] puts [a] first when
    the difference is not positive; a NaN counts as zero. *)
Definition newest_first (a b : doc) : Prop :=
  match doc_updated a, doc_updated b with
  | Some ta, Some tb => (tb <= ta)%Z
  | _, _ => True
  end.

Global Instance newest_first_dec a b : Decision (newest_first a b).
Proof. unfold newest_first. destruct (doc_updated a), (doc_updated b); apply _. Defined.

(** [getUserProjects] (project-service.tsx, lines 38-46) *)
Definition getUserProjects (userId : string) : M (list doc) :=
  try_catch_io
    (projects ← kv_store.getByPrefix ("user:" +:+ userId +:+ ":project:");
     mret (merge_sort newest_first projects))
    (fun error => _ ← console_log "Get user projects error:";
                  throw "Failed to fetch projects").

(** [getProjectById] (project-service.tsx, lines 114-121) *)
Definition getProjectById (userId projectId : string) : M (option doc) :=
  try_catch_io
    (kv_store.get (project_key userId projectId))
    (fun error => _ ← console_log "Get project by ID error:"; mret None).

(** [analytics.actions.slice(-100)] *)
Definition updateProjectAnalytics (userId projectId action : string) : M unit :=
  try_catch_io
    (let analyticsKey := "user:" +:+ userId +:+ ":project_analytics:" +:+ projectId in
     stored ← kv_store.get analyticsKey;
     now ← Date_now;
     analytics ← from_option as_project_analytics
                   (mret {| pa_projectId := projectId; pa_created := now; pa_actions := [] |})
                   stored;
     let actions := pa_actions analytics ++ [(action, now)] in
     kv_store.set analyticsKey
       (DProjectAnalytics {| pa_projectId := pa_projectId analytics;
                             pa_created := pa_created analytics;
                             pa_actions := slice_last 100 actions |}))
    (fun error => console_log "Update project analytics error:").

(** [v || d] on a string and on any optional value *)
Definition or_string (v : option string) (d : string) : string :=
  match v with
  | Some s => if String.eqb s "" then d else s
  | None => d
  end.

(** [createProject] (project-service.tsx, lines 48-80) *)
Definition createProject (userId : string) (projectData : Project.partial) : M Project.t :=
  try_catch_io
    (millis ← Date_now;
     suffix ← random_suffix;
     let projectId := "project-" +:+ pretty millis +:+ "-" +:+ suffix in
     now ← Date_now;
     let project :=
       {| Project.id := projectId;
          Project.userId := userId;
          Project.name := or_string (Project.name' projectData) "Untitled Project";
          Project.description := or_string (Project.description' projectData) "";
          Project.status := default p_active (Project.status' projectData);
          Project.priority := default medium (Project.priority' projectData);
          Project.progress := 0;
          Project.tasks := [];
          Project.team := default [] (Project.team' projectData);
          Project.deadline := Project.deadline' projectData;
          Project.created := now;
          Project.updated := now;
          Project.tags := default [] (Project.tags' projectData);
          Project.metadata :=
            js_or (default JUndefined (Project.metadata' projectData)) (JObj []) |} in
     _ ← kv_store.set (project_key userId projectId) (DProject project);
     _ ← updateProjectAnalytics userId projectId "created";
     mret project)
    (fun error => _ ← console_log "Create project error:";
                  throw "Failed to create project").

(** [{ ...existing, ...updates, id: projectId, userId, updated: now }] *)
Definition merge_project (existing : Project.t) (updates : Project.partial)
    (projectId userId : string) (now : Timestamp) : Project.t :=
  {| Project.id := projectId;
     Project.userId := userId;
     Project.name := default (Project.name existing) (Project.name' updates);
     Project.description := default (Project.description existing) (Project.description' updates);
     Project.status := default (Project.status existing) (Project.status' updates);
     Project.priority := default (Project.priority existing) (Project.priority' updates);
     Project.progress := default (Project.progress existing) (Project.progress' updates);
     Project.tasks := default (Project.tasks existing) (Project.tasks' updates);
     Project.team := default (Project.team existing) (Project.team' updates);
     Project.deadline :=
       match Project.deadline' updates with
       | Some d => Some d
       | None => Project.deadline existing
       end;
     Project.created := default (Project.created existing) (Project.created' updates);
     Project.updated := now;
     Project.tags := default (Project.tags existing) (Project.tags' updates);
     Project.metadata := default (Project.metadata existing) (Project.metadata' updates) |}.

Definition with_progress (project : Project.t) (progress : Q) : Project.t :=
  {| Project.id := Project.id project;
     Project.userId := Project.userId project;
     Project.name := Project.name project;
     Project.description := Project.description project;
     Project.status := Project.status project;
     Project.priority := Project.priority project;
     Project.progress := progress;
     Project.tasks := Project.tasks project;
     Project.team := Project.team project;
     Project.deadline := Project.deadline project;
     Project.created := Project.created project;
     Project.updated := Project.updated project;
     Project.tags := Project.tags project;
     Project.metadata := Project.metadata project |}.

(** [updateProject] (project-service.tsx, lines 82-112) *)
Definition updateProject (userId projectId : string) (updates : Project.partial)
  : M Project.t :=
  try_catch_io
    (stored ← kv_store.get (project_key userId projectId);
     match stored with
     | None => throw "Project not found"
     | Some d =>
         existing ← as_project d;
         now ← Date_now;
         let updated := merge_project existing updates projectId userId now in
         let updated :=
           match Project.tasks' updates with
           | Some _ => with_progress updated (calculateProgress (Project.tasks updated))
           | None => updated
           end in
         _ ← kv_store.set (project_key userId projectId) (DProject updated);
         _ ← updateProjectAnalytics userId projectId "updated";
         mret updated
     end)
    (fun error => _ ← console_log "Update project error:";
                  throw "Failed to update project").

(** [project.status = 'archived'; project.updated = now] *)
Definition archived (project : Project.t) (now : Timestamp) : Project.t :=
  {| Project.id := Project.id project;
     Project.userId := Project.userId project;
     Project.name := Project.name project;
     Project.description := Project.description project;
     Project.status := p_archived;
     Project.priority := Project.priority project;
     Project.progress := Project.progress project;
     Project.tasks := Project.tasks project;
     Project.team := Project.team project;
     Project.deadline := Project.deadline project;
     Project.created := Project.created project;
     Project.updated := now;
     Project.tags := Project.tags project;
     Project.metadata := Project.metadata project |}.

(** [deleteProject] (project-service.tsx, lines 123-140) *)
Definition deleteProject (userId projectId : string) : M bool :=
  try_catch_io
    (found ← getProjectById userId projectId;
     match found with
     | None => mret false
     | Some d =>
         project ← as_project d;
         now ← Date_now;
         _ ← kv_store.set (project_key userId projectId) (DProject (archived project now));
         mret true
     end)
    (fun error => _ ← console_log "Delete project error:"; mret false).

(** [project.tasks.push(task); project.progress = ...; project.updated = now]
    and the like: the project with a new task array, its progress recomputed. *)
Definition with_tasks (project : Project.t) (tasks : list Task.t) (now : Timestamp)
  : Project.t :=
  {| Project.id := Project.id project;
     Project.userId := Project.userId project;
     Project.name := Project.name project;
     Project.description := Project.description project;
     Project.status := Project.status project;
     Project.priority := Project.priority project;
     Project.progress := calculateProgress tasks;
     Project.tasks := tasks;
     Project.team := Project.team project;
     Project.deadline := Project.deadline project;
     Project.created := Project.created project;
     Project.updated := now;
     Project.tags := Project.tags project;
     Project.metadata := Project.metadata project |}.

(** [v || 0] on an optional number *)
Definition or_zero (v : option Q) : Q :=
  match v with
  | Some q => if js_eq q 0 then 0%Q else q
  | None => 0%Q
  end.

(** [createTask] (project-service.tsx, lines 143-185) *)
Definition createTask (userId projectId : string) (taskData : Task.partial) : M Task.t :=
  try_catch_io
    (found ← getProjectById userId projectId;
     match found with
     | None => throw "Project not found"
     | Some d =>
         project ← as_project d;
         millis ← Date_now;
         suffix ← random_suffix;
         let taskId := "task-" +:+ pretty millis +:+ "-" +:+ suffix in
         now ← Date_now;
         let task :=
           {| Task.id := taskId;
              Task.projectId := projectId;
              Task.title := or_string (Task.title' taskData) "Untitled Task";
              Task.description := Task.description' taskData;
              Task.status := default t_pending (Task.status' taskData);
              Task.priority := default medium (Task.priority' taskData);
              Task.assignee := Task.assignee' taskData;
              Task.due_date := Task.due_date' taskData;
              Task.created := now;
              Task.updated := now;
              Task.estimatedHours := Task.estimatedHours' taskData;
              Task.actualHours := Some (or_zero (Task.actualHours' taskData));
              Task.dependencies := default [] (Task.dependencies' taskData);
              Task.tags := default [] (Task.tags' taskData) |} in
         let project := with_tasks project (Project.tasks project ++ [task]) now in
         _ ← kv_store.set (project_key userId projectId) (DProject project);
         _ ← kv_store.set (task_key userId taskId) (DTask task);
         mret task
     end)
    (fun error => _ ← console_log "Create task error:";
                  throw "Failed to create task").

(** [tasks.findIndex(t => t.id === taskId)], [None] for -1 *)
Fixpoint findIndex (taskId : string) (tasks : list Task.t) : option nat :=
  match tasks with
  | [] => None
  | t :: rest =>
      if String.eqb (Task.id t) taskId then Some 0%nat
      else S <$> findIndex taskId rest
  end.

Definition or_else {A} (v old : option A) : option A :=
  match v with
  | Some a => Some a
  | None => old
  end.

(** [{ ...task, ...updates, id: taskId, projectId, updated: now }] *)
Definition merge_task (task : Task.t) (updates : Task.partial)
    (taskId projectId : string) (now : Timestamp) : Task.t :=
  {| Task.id := taskId;
     Task.projectId := projectId;
     Task.title := default (Task.title task) (Task.title' updates);
     Task.description := or_else (Task.description' updates) (Task.description task);
     Task.status := default (Task.status task) (Task.status' updates);
     Task.priority := default (Task.priority task) (Task.priority' updates);
     Task.assignee := or_else (Task.assignee' updates) (Task.assignee task);
     Task.due_date := or_else (Task.due_date' updates) (Task.due_date task);
     Task.created := default (Task.created task) (Task.created' updates);
     Task.updated := now;
     Task.estimatedHours := or_else (Task.estimatedHours' updates) (Task.estimatedHours task);
     Task.actualHours := or_else (Task.actualHours' updates) (Task.actualHours task);
     Task.dependencies := default (Task.dependencies task) (Task.dependencies' updates);
     Task.tags := default (Task.tags task) (Task.tags' updates) |}.

Section ProjectService.

Variable toDateString : Timestamp -> string.
Variables getHours getFullYear getMonth getDate : Timestamp -> Z.

(** [updateTask] (project-service.tsx, lines 187-228) *)
Definition updateTask (userId projectId taskId : string) (updates : Task.partial)
  : M Task.t :=
  try_catch_io
    (found ← getProjectById userId projectId;
     match found with
     | None => throw "Project not found"
     | Some d =>
         project ← as_project d;
         match findIndex taskId (Project.tasks project) with
         | None => throw "Task not found"
         | Some taskIndex =>
             match Project.tasks project !! taskIndex with
             | None => throw "TypeError"
             | Some old =>
                 now ← Date_now;
                 let updatedTask := merge_task old updates taskId projectId now in
                 (* project.tasks[taskIndex] = updatedTask *)
                 let tasks := <[taskIndex := updatedTask]> (Project.tasks project) in
                 now' ← Date_now;
                 let project := with_tasks project tasks now' in
                 _ ← kv_store.set (project_key userId projectId) (DProject project);
                 _ ← kv_store.set (task_key userId taskId) (DTask updatedTask);
                 (* the test reads project.tasks[taskIndex] after the assignment *)
                 _ ← (if bool_decide (Task.status' updates = Some t_completed)
                         && negb (bool_decide (Task.status <$> (Project.tasks project !! taskIndex)
                                               = Some t_completed))
                      then recordActivity toDateString getHours getFullYear getMonth getDate
                             userId
                             {| a_type := task_complete;
                                a_metadata :=
                                  JObj [("taskId", JStr taskId);
                                        ("projectId", JStr projectId);
                                        ("priority", JStr (priority_name (Task.priority updatedTask)))];
                                a_timestamp := ts_absent |}
                      else mret tt);
                 mret updatedTask
             end
         end
     end)
    (fun error => _ ← console_log "Update task error:";
                  throw "Failed to update task").

End ProjectService.

(** ** Notions of the properties *)

(** What [updateProject] builds from the stored project. *)
Definition updated_project (existing : Project.t) (updates : Project.partial)
    (projectId userId : string) (now : Timestamp) : Project.t :=
  let updated := merge_project existing updates projectId userId now in
  match Project.tasks' updates with
  | Some _ => with_progress updated (calculateProgress (Project.tasks updated))
  | None => updated
  end.

Definition completed_count (tasks : list Task.t) : nat :=
  length (filter (fun task => is_completed task = true) tasks).

(** [Math.round((c / n) * 100)] *)
Definition percent (c n : nat) : Z :=
  Math_round (fmul (fdiv (inject_Z (Z.of_nat c)) (inject_Z (Z.of_nat n))) 100).

(** 100 c / n rounded exactly to the nearest integer, halves upwards. *)
Definition exact_percent (c n : nat) : Z :=
  (200 * Z.of_nat c + Z.of_nat n) / (2 * Z.of_nat n).

(** 100 c / n lies exactly halfway between two integers. *)
Definition halfway (c n : nat) : Prop :=
  ((200 * Z.of_nat c + Z.of_nat n) mod (2 * Z.of_nat n) = 0)%Z.

(** The numbers that the callers of [calculateTrend] pass are counts and
    scores: naturals, here up to 10^9. *)
Definition small_natural (n : Z) : Prop := (0 <= n <= 1000000000)%Z.

(** The progress of a project is the one that its tasks give. *)
Definition progress_consistent (p : Project.t) : Prop :=
  Project.progress p = calculateProgress (Project.tasks p).

Definition store_consistent (m : gmap string doc) : Prop :=
  forall key p, m !! key = Some (DProject p) -> progress_consistent p.

(** The outcome and the final world of [m] started in [w] satisfy [Q]. *)
Definition wp {A} (m : M A) (Q : result A -> world -> Prop) (w : world) : Prop :=
  Q (fst (m w)) (snd (m w)).
Global Arguments wp : simpl never.

(** The computation returns, whatever the store does. *)
Definition returns (m : M unit) : Prop :=
  forall w, wp m (fun r _ => r = Ok tt) w.

(** ** Sample data *)

(** A calendar for the examples: days and hours since the epoch. *)
Definition sample_toDateString (t : Timestamp) : string :=
  "day " +:+ pretty (t `div` 86400000)%Z.
Definition sample_getHours (t : Timestamp) : Z := ((t `div` 3600000) `mod` 24)%Z.
Definition sample_getFullYear (t : Timestamp) : Z := 2024%Z.
Definition sample_getMonth (t : Timestamp) : Z := 0%Z.
Definition sample_getDate (t : Timestamp) : Z := (1 + (t `div` 86400000) `mod` 28)%Z.

Definition sample_task (taskId projectId : string) (status : TaskStatus) : Task.t :=
  {| Task.id := taskId; Task.projectId := projectId; Task.title := "Write the report";
     Task.description := None; Task.status := status; Task.priority := medium;
     Task.assignee := None; Task.due_date := None;
     Task.created := 1000%Z; Task.updated := 1000%Z;
     Task.estimatedHours := None; Task.actualHours := Some 0%Q;
     Task.dependencies := []; Task.tags := [] |}.

Definition sample_project (tasks : list Task.t) (progress : Q) : Project.t :=
  {| Project.id := "p1"; Project.userId := "u1"; Project.name := "Launch";
     Project.description := ""; Project.status := p_active; Project.priority := medium;
     Project.progress := progress; Project.tasks := tasks; Project.team := [];
     Project.deadline := None; Project.created := 1000%Z; Project.updated := 1000%Z;
     Project.tags := []; Project.metadata := JObj [] |}.

(** A reliable store that holds one project of user u1 under p1. *)
Definition sample_world (project : Project.t) : world :=
  {| kv := {[ project_key "u1" "p1" := DProject project ]};
     kv_faults := []; clock := 5000%Z; random := ["k3x9q2m1z"]; recorded := [] |}.

Definition empty_world : world :=
  {| kv := ∅; kv_faults := []; clock := 5000%Z; random := []; recorded := [] |}.

Definition sample_updateTask :=
  updateTask sample_toDateString sample_getHours sample_getFullYear sample_getMonth
    sample_getDate.
Definition sample_recordActivity :=
  recordActivity sample_toDateString sample_getHours sample_getFullYear sample_getMonth
    sample_getDate.

(** [{ status: 'completed' }] *)
Definition complete_it : Task.partial :=
  {| Task.id' := None; Task.projectId' := None; Task.title' := None;
     Task.description' := None; Task.status' := Some t_completed; Task.priority' := None;
     Task.assignee' := None; Task.due_date' := None; Task.created' := None;
     Task.updated' := None; Task.estimatedHours' := None; Task.actualHours' := None;
     Task.dependencies' := None; Task.tags' := None |}.

(** [{ progress }] and [{ tasks }] *)
Definition set_progress (progress : Q) : Project.partial :=
  {| Project.id' := None; Project.userId' := None; Project.name' := None;
     Project.description' := None; Project.status' := None; Project.priority' := None;
     Project.progress' := Some progress; Project.tasks' := None; Project.team' := None;
     Project.deadline' := None; Project.created' := None; Project.updated' := None;
     Project.tags' := None; Project.metadata' := None |}.

Definition set_tasks (tasks : list Task.t) : Project.partial :=
  {| Project.id' := None; Project.userId' := None; Project.name' := None;
     Project.description' := None; Project.status' := None; Project.priority' := None;
     Project.progress' := None; Project.tasks' := Some tasks; Project.team' := None;
     Project.deadline' := None; Project.created' := None; Project.updated' := None;
     Project.tags' := None; Project.metadata' := None |}.

(** Forty tasks, 23 of them completed. *)
Definition forty_tasks : list Task.t :=
  replicate 23 (sample_task "done" "p1" t_completed)
  ++ replicate 17 (sample_task "open" "p1" t_pending).

(** The world after the tasks of project p1 have been replaced by one task
    that names another project. *)
Definition foreign_task_world : world :=
  snd (updateProject "u1" "p1" (set_tasks [sample_task "t1" "p2" t_completed])
         (sample_world (sample_project [sample_task "t1" "p1" t_pending] 0))).

(** [{ type: 'meeting', metadata: { duration: 30 } }] *)
Definition meeting_30 : Activity :=
  {| a_type := meeting; a_metadata := JObj [("duration", JNum 30)];
     a_timestamp := ts_absent |}.

Definition with_meetingTime (minutes : Q) : ProductivityMetrics :=
  {| tasksCompleted := 0; tasksCreated := 0; focusScore := 0; captureCount := 0;
     activeProjects := 0; meetingTime := minutes; deepWorkTime := 0 |}.

Definition quote : string := String (ascii_of_nat 34) "".

(** The text of the reply that carries only a priority [p]. *)
Definition priority_reply (p : string) : string :=
  "{" +:+ quote +:+ "priority" +:+ quote +:+ ":" +:+ quote +:+ p +:+ quote +:+ "}".

(** [JSON.parse] on the replies of the examples. *)
Definition parse_priority_reply (v : jsval) : result jsval :=
  match v with
  | JStr s =>
      if String.eqb s (priority_reply "low") then Ok (JObj [("priority", JStr "low")])
      else if String.eqb s (priority_reply "critical")
           then Ok (JObj [("priority", JStr "critical")])
      else if String.eqb s "{}" then Ok (JObj [])
      else Throw "SyntaxError"
  | _ => Throw "SyntaxError"
  end.

(** The response of the gateway whose first choice carries [content]. *)
Definition completion (content : string) : fetch_result :=
  FetchResponse true
    (Ok (JObj [("choices", JArr [JObj [("message", JObj [("content", JStr content)])]])])).

Definition no_match (content : string) : list string := [].

Definition urgent_note : CaptureData :=
  {| cd_type := c_note; cd_content := "urgent: the server is down" |}.

Definition long_text : string :=
  "a note that runs on without any full stop and is therefore kept whole by the summary although it is well over one hundred characters long".

(** ** Project service: listings, templates and insights (project-service.tsx) *)





(** [priorityOrder] (project-service.tsx, line 237) *)
Definition priorityOrder (p : Priority) : Z :=
  match p with
  | high => 3
  | medium => 2
  | low => 1
  end.






(** What [templates[templateName]] gives when it is not undefined: the own
    enumerable fields that a spread copies, the [name] and the
    [taskTemplates]. *)
Record ProjectTemplate := {
  tpl_name : option string;
  tpl_description : option string;
  tpl_tags : option (list string);
  taskTemplates : list Task.partial
}.

(** [{ title, priority, estimatedHours }] *)
Definition task_template (title : string) (priority : Priority) (hours : Q) : Task.partial :=
  {| Task.id' := None; Task.projectId' := None; Task.title' := Some title;
     Task.description' := None; Task.status' := None; Task.priority' := Some priority;
     Task.assignee' := None; Task.due_date' := None; Task.created' := None;
     Task.updated' := None; Task.estimatedHours' := Some hours; Task.actualHours' := None;
     Task.dependencies' := None; Task.tags' := None |}.

(** The functions that [templates] inherits from [Object.prototype], found by
    [templates[templateName]] as the three templates are, with the [name]
    that each function has.  ([__proto__] is left out: the platform removes
    that accessor.) *)
Definition inherited_functions : list (string * string) :=
  [("constructor", "Object"); ("hasOwnProperty", "hasOwnProperty");
   ("isPrototypeOf", "isPrototypeOf"); ("propertyIsEnumerable", "propertyIsEnumerable");
   ("toLocaleString", "toLocaleString"); ("toString", "toString"); ("valueOf", "valueOf");
   ("__defineGetter__", "__defineGetter__"); ("__defineSetter__", "__defineSetter__");
   ("__lookupGetter__", "__lookupGetter__"); ("__lookupSetter__", "__lookupSetter__")].

(** [getProjectTemplate] (project-service.tsx, lines 333-372) *)
Definition getProjectTemplate (templateName : string) : option ProjectTemplate :=
  if String.eqb templateName "ai-project" then
    Some {| tpl_name := Some "AI Project Template";
            tpl_description := Some "Template for AI/ML projects";
            tpl_tags := Some ["ai"; "machine-learning"];
            taskTemplates :=
              [task_template "Data Collection" high 16;
               task_template "Model Training" high 24;
               task_template "Testing & Validation" medium 8;
               task_template "Deployment" high 12] |}
  else if String.eqb templateName "web-app" then
    Some {| tpl_name := Some "Web Application Template";
            tpl_description := Some "Template for web application development";
            tpl_tags := Some ["web"; "development"];
            taskTemplates :=
              [task_template "UI/UX Design" high 20;
               task_template "Frontend Development" high 40;
               task_template "Backend Development" high 32;
               task_template "Testing" medium 16;
               task_template "Deployment" high 8] |}
  else if String.eqb templateName "research" then
    Some {| tpl_name := Some "Research Project Template";
            tpl_description := Some "Template for research projects";
            tpl_tags := Some ["research"; "analysis"];
            taskTemplates :=
              [task_template "Literature Review" high 24;
               task_template "Data Gathering" high 16;
               task_template "Analysis" high 32;
               task_template "Report Writing" medium 20] |}
  else
    (fun inherited => {| tpl_name := Some (snd inherited); tpl_description := None;
                         tpl_tags := None; taskTemplates := [] |})
    <$> find (fun inherited => String.eqb (fst inherited) templateName) inherited_functions.

(** [{ ...template, ...customization, name: customization.name || template.name }]
    as far as [createProject] reads it. *)
Definition template_data (template : ProjectTemplate) (customization : Project.partial)
  : Project.partial :=
  {| Project.id' := Project.id' customization;
     Project.userId' := Project.userId' customization;
     Project.name' :=
       match Project.name' customization with
       | Some name => if String.eqb name "" then tpl_name template else Some name
       | None => tpl_name template
       end;
     Project.description' :=
       or_else (Project.description' customization) (tpl_description template);
     Project.status' := Project.status' customization;
     Project.priority' := Project.priority' customization;
     Project.progress' := Project.progress' customization;
     Project.tasks' := Project.tasks' customization;
     Project.team' := Project.team' customization;
     Project.deadline' := Project.deadline' customization;
     Project.created' := Project.created' customization;
     Project.updated' := Project.updated' customization;
     Project.tags' := or_else (Project.tags' customization) (tpl_tags template);
     Project.metadata' := Project.metadata' customization |}.

(** [for (const x of l) { await body(x) }] *)
Fixpoint for_each {A B} (l : list A) (body : A -> M B) : M unit :=
  match l with
  | [] => mret tt
  | x :: l' => _ ← body x; for_each l' body
  end.

(** [createProjectFromTemplate] (project-service.tsx, lines 306-331);
    [customization] is [None] for null and undefined. *)
Definition createProjectFromTemplate (userId templateName : string)
    (customization : option Project.partial) : M Project.t :=
  try_catch_io
    (match getProjectTemplate templateName with
     | None => throw "Template not found"
     | Some template =>
         match customization with
         | None => throw "TypeError"
         | Some customization =>
             project ← createProject userId (template_data template customization);
             _ ← for_each (taskTemplates template)
                   (fun taskTemplate => createTask userId (Project.id project) taskTemplate);
             mret project
         end
     end)
    (fun error => _ ← console_log "Create project from template error:";
                  throw "Failed to create project from template").

(** [!s] and [s ? .. : ..] on an optional string *)
Definition string_truthy (s : option string) : bool :=
  match s with
  | Some s => negb (String.eqb s "")
  | None => false
  end.

(** [distribution[assignee] = (distribution[assignee] || 0) + 1], for an
    assignee whose name no built-in prototype defines. *)
Definition count_assignee (distribution : gmap string Q) (task : Task.t) : gmap string Q :=
  match Task.assignee task with
  | Some assignee =>
      if String.eqb assignee "" then distribution
      else <[assignee := fadd (or_zero (distribution !! assignee)) 1]> distribution
  | None => distribution
  end.

(** [getTaskDistribution] (project-service.tsx, lines 411-419) *)
Definition getTaskDistribution (tasks : list Task.t) : gmap string Q :=
  foldl count_assignee ∅ tasks.

(** [daysRemaining]: null without a deadline, NaN for a deadline that is no
    date, and a number of days otherwise. *)
Inductive DaysRemaining :=
| no_deadline
| not_a_date
| days (n : Z).

(** [Math.ceil((deadline - now) / (1000 * 60 * 60 * 24))] *)
Definition days_until (deadline now : Timestamp) : Z :=
  Qceiling (fdiv (fadd (inject_Z deadline) (- inject_Z now)) 86400000).

Record ProjectInsights := {
  percentage : Q;
  in_tasksCompleted : nat;
  totalTasks : nat;
  tasksInProgress : nat;
  in_created : Timestamp;
  in_deadline : option string;
  daysRemaining : DaysRemaining;
  teamSize : nat;
  taskDistribution : gmap string Q;
  risks : list string;
  recommendations : list string
}.

Section ProjectInsights.

(** [new Date(text).getTime()], [None] for NaN. *)
Variable Date_parse : string -> option Timestamp.

Definition days_remaining (project : Project.t) (now : Timestamp) : DaysRemaining :=
  if string_truthy (Project.deadline project)
  then match Date_parse (default "" (Project.deadline project)) with
       | Some deadline => days (days_until deadline now)
       | None => not_a_date
       end
  else no_deadline.

(** The tasks that [identifyProjectRisks] counts as overdue. *)
Definition overdue_in (now : Timestamp) (task : Task.t) : bool :=
  match Task.due_date task with
  | Some due => (due <? now)%Z && negb (is_completed task)
  | None => false
  end.

(** [identifyProjectRisks] (project-service.tsx, lines 421-447) *)
Definition identifyProjectRisks (project : Project.t) (now : Timestamp) : list string :=
  let risks := [] in
  let risks :=
    match days_remaining project now with
    | days daysRemaining =>
        if (daysRemaining <? 7)%Z && js_lt (Project.progress project) 80
        then risks ++ ["Project may miss deadline due to low completion rate"]
        else risks
    | _ => risks
    end in
  let overdueTasks := filter (fun task => overdue_in now task = true) (Project.tasks project) in
  let risks :=
    if decide (0 < length overdueTasks)
    then risks ++ [pretty (length overdueTasks) +:+ " tasks are overdue"]
    else risks in
  let blockedTasks :=
    filter (fun task => Task.status task = t_blocked) (Project.tasks project) in
  if decide (0 < length blockedTasks)
  then risks ++ [pretty (length blockedTasks) +:+ " tasks are blocked"]
  else risks.

(** [generateProjectRecommendations] (project-service.tsx, lines 449-469) *)
Definition generateProjectRecommendations (project : Project.t) : list string :=
  let recommendations := [] in
  let recommendations :=
    if js_lt (Project.progress project) 25 && bool_decide (10 < length (Project.tasks project))
    then recommendations
         ++ ["Consider breaking down large tasks into smaller, manageable chunks"]
    else recommendations in
  let highPriorityTasks :=
    filter (fun t => Task.priority t = high /\ is_completed t = false) (Project.tasks project) in
  let recommendations :=
    if decide (3 < length highPriorityTasks)
    then recommendations ++ ["Focus on completing high-priority tasks first"]
    else recommendations in
  if decide (1 < length (Project.team project))
  then
    let unassignedTasks :=
      filter (fun t => string_truthy (Task.assignee t) = false /\ is_completed t = false)
        (Project.tasks project) in
    if decide (0 < length unassignedTasks)
    then recommendations ++ ["Assign ownership to unassigned tasks"]
    else recommendations
  else recommendations.

(** [getProjectInsights] (project-service.tsx, lines 375-409) *)
Definition getProjectInsights (userId projectId : string) : M ProjectInsights :=
  try_catch_io
    (found ← getProjectById userId projectId;
     match found with
     | None => throw "Project not found"
     | Some d =>
         project ← as_project d;
         analytics ← kv_store.get ("user:" +:+ userId +:+ ":project_analytics:" +:+ projectId);
         now ← Date_now;
         mret {| percentage := Project.progress project;
                 in_tasksCompleted :=
                   length (filter (fun t => is_completed t = true) (Project.tasks project));
                 totalTasks := length (Project.tasks project);
                 tasksInProgress :=
                   length (filter (fun t => Task.status t = t_in_progress)
                             (Project.tasks project));
                 in_created := Project.created project;
                 in_deadline := Project.deadline project;
                 daysRemaining := days_remaining project now;
                 teamSize := length (Project.team project);
                 taskDistribution := getTaskDistribution (Project.tasks project);
                 risks := identifyProjectRisks project now;
                 recommendations := generateProjectRecommendations project |}
     end)
    (fun error => _ ← console_log "Get project insights error:";
                  throw "Failed to generate project insights").

End ProjectInsights.

(** ** Keys *)

(** No ':' occurs in [s]. *)
Fixpoint no_colon (s : string) : bool :=
  match s with
  | "" => true
  | String c s' => negb (Ascii.eqb c ":") && no_colon s'
  end.

Definition project_prefix (userId : string) : string := "user:" +:+ userId +:+ ":project:".

Definition analytics_log_key (userId projectId : string) : string :=
  "user:" +:+ userId +:+ ":project_analytics:" +:+ projectId.




(** [b] does not have a higher priority than [a]. *)
Definition higher_first (a b : Task.t) : Prop :=
  (priorityOrder (Task.priority b) <= priorityOrder (Task.priority a))%Z.


(** A task as [createTask] builds it from the data. *)
Definition task_from (projectId : string) (taskData : Task.partial) (task : Task.t) : Prop :=
  Task.projectId task = projectId /\
  Task.title task = or_string (Task.title' taskData) "Untitled Task" /\
  Task.status task = default t_pending (Task.status' taskData) /\
  Task.priority task = default medium (Task.priority' taskData) /\
  Task.estimatedHours task = Task.estimatedHours' taskData.

(** The project that holds the tasks of a template after the loop. *)
Definition extended (project stored : Project.t) (created : list Task.t) : Prop :=
  Project.tasks stored = Project.tasks project ++ created /\
  Project.id stored = Project.id project /\
  Project.userId stored = Project.userId project /\
  Project.name stored = Project.name project /\
  Project.description stored = Project.description project /\
  Project.tags stored = Project.tags project /\
  (created <> [] -> Project.progress stored = calculateProgress (Project.tasks stored)) /\
  (created = [] -> stored = project).

(** The titles of the tasks of the three templates. *)
Definition template_titles : list (string * list string) :=
  [("ai-project", ["Data Collection"; "Model Training"; "Testing & Validation"; "Deployment"]);
   ("web-app", ["UI/UX Design"; "Frontend Development"; "Backend Development"; "Testing";
                "Deployment"]);
   ("research", ["Literature Review"; "Data Gathering"; "Analysis"; "Report Writing"])].

(** ** Notions for the buckets of the analytics *)

(** The keys of the daily bucket, of a bucket of a period and of the hourly
    patterns, as [updateDailyMetrics], [updatePeriodMetric] and
    [updateHourlyPatterns] build them. *)
Definition metrics_key (userId dayKey : string) : string :=
  "user:" +:+ userId +:+ ":metrics:" +:+ dayKey.
Definition period_key (userId period key : string) : string :=
  "user:" +:+ userId +:+ ":metrics:" +:+ period +:+ ":" +:+ key.
Definition patterns_key (userId : string) : string :=
  "user:" +:+ userId +:+ ":patterns:hourly".

(** The metrics that the update of a bucket starts from: the stored ones, and
    zeros when the store holds nothing under the key. *)
Definition metrics_at (m : gmap string doc) (key : string) : option ProductivityMetrics :=
  match m !! key with
  | None => Some zero_metrics
  | Some (DMetrics metrics) => Some metrics
  | Some _ => None
  end.

(** The [Date] that [recordActivity] files an activity under. *)
Definition activity_date (activity : Activity) (now : Timestamp) : option Timestamp :=
  match a_timestamp activity with
  | ts_absent => Some now
  | ts_malformed => None
  | ts_valid t => Some t
  end.

(** A counter that holds a natural number below 2^53 and goes up by one. *)
Definition counts_up (before after : Q) : Prop :=
  forall n : Z, (0 <= n < 2 ^ 53)%Z -> before == inject_Z n -> after == inject_Z (n + 1).

Definition task_completed_now : Activity :=
  {| a_type := task_complete; a_metadata := JNull; a_timestamp := ts_absent |}.

(** The names that an object literal inherits: an assignee of such a name
    meets an inherited value in [distribution[task.assignee]]. *)
Definition inherited_names : list string :=
  "__proto__" :: (fst <$> inherited_functions).

(** The number of the tasks of an assignee. *)
Definition assigned_to (name : string) (tasks : list Task.t) : nat :=
  length (filter (fun task => Task.assignee task = Some name) tasks).

Definition assigned_task (taskId : string) (assignee : option string) : Task.t :=
  {| Task.id := taskId; Task.projectId := "p1"; Task.title := "Write the report";
     Task.description := None; Task.status := t_pending; Task.priority := medium;
     Task.assignee := assignee; Task.due_date := None;
     Task.created := 1000%Z; Task.updated := 1000%Z;
     Task.estimatedHours := None; Task.actualHours := Some 0%Q;
     Task.dependencies := []; Task.tags := [] |}.

(** [getCurrentFocusScore] (analytics-service.tsx, lines 225-234), with
    [getTodayKey] (lines 393-395): [metrics?.focusScore || 0] for the metrics
    of the day of the clock. *)
Definition getCurrentFocusScore (toDateString : Timestamp -> string) (userId : string)
  : M Q :=
  try_catch_io
    (now ← Date_now;
     let today := toDateString now in
     stored ← kv_store.get ("user:" +:+ userId +:+ ":metrics:" +:+ today);
     match stored with
     | Some d => metrics ← as_metrics d; mret (or_zero (Some (focusScore metrics)))
     | None => mret 0%Q
     end)
    (fun error => _ ← console_log "Get current focus score error:"; mret 0%Q).

Definition focus_45 : Activity :=
  {| a_type := focus_session; a_metadata := JObj [("duration", JNum 45)];
     a_timestamp := ts_absent |}.

(** * Properties *)

(** ** The embedding on small inputs *)

Example summary_one :
  generateFallbackSummary "This is an urgent idea about a new feature"
  = "This is an urgent idea about a new feature".
Proof. reflexivity. Qed.

Example summary_two : generateFallbackSummary "  Call Bob. Then lunch!" = "Call Bob...".
Proof. reflexivity. Qed.

Example summary_dots : generateFallbackSummary "?!" = "?!...".
Proof. reflexivity. Qed.

Example split_runs : split_sentence_ends "a..b." = ["a"; "b"; ""].
Proof. reflexivity. Qed.

Example priority_first_tier : determinePriority "An URGENT client meeting" = high.
Proof. reflexivity. Qed.

Example fl_tenth : fl (1 # 10) = (3602879701896397 # 36028797018963968)%Q.
Proof. vm_compute. reflexivity. Qed.

Example fl_third_neg : fl (- (1 # 3)) = (- (6004799503160661 # 18014398509481984))%Q.
Proof. vm_compute. reflexivity. Qed.

Example fmul_tie : fmul 10 (fl (11 # 10)) = 11%Q.
Proof. vm_compute. reflexivity. Qed.

Example fmul_up : fmul 3 (fl (11 # 10)) = (7430939385161319 # 2251799813685248)%Q.
Proof. vm_compute. reflexivity. Qed.

Example slices :
  slice_between 6 3 [1; 2; 3; 4]%nat = [1]%nat /\ slice_last 3 [1; 2; 3; 4]%nat = [2; 3; 4]%nat.
Proof. split; reflexivity. Qed.

(** ** Strings *)

Lemma append_empty_r (s : string) : s +:+ "" = s.
Proof. induction s as [|c s IH]; [done|]. unfold String.app in *. simpl. by rewrite IH. Qed.

Lemma append_assoc (s t u : string) : (s +:+ t) +:+ u = s +:+ (t +:+ u).
Proof. induction s as [|c s IH]; [done|]. unfold String.app in *. simpl. by rewrite IH. Qed.

Lemma length_append (s t : string) :
  String.length (s +:+ t) = String.length s + String.length t.
Proof. induction s as [|c s IH]; [done|]. unfold String.app in *. simpl. by rewrite IH. Qed.

Lemma rev_app_spec (s t u : string) :
  String.rev_app (String.rev_app s t) u = String.rev_app t (s +:+ u).
Proof.
  revert t u. induction s as [|c s IH]; intros t u; [done|].
  simpl. rewrite IH. done.
Qed.

Lemma rev_involutive (s : string) : String.rev (String.rev s) = s.
Proof. unfold String.rev. rewrite rev_app_spec. simpl. apply append_empty_r. Qed.

Lemma length_rev_app (s t : string) :
  String.length (String.rev_app s t) = String.length s + String.length t.
Proof.
  revert t. induction s as [|c s IH]; intros t; [done|].
  simpl. rewrite IH. simpl. lia.
Qed.

Lemma length_rev (s : string) : String.length (String.rev s) = String.length s.
Proof. unfold String.rev. rewrite length_rev_app. simpl. lia. Qed.

Lemma length_trimStart (s : string) : String.length (trimStart s) <= String.length s.
Proof.
  induction s as [|c s IH]; [done|]. simpl.
  destruct (is_white c); simpl; lia.
Qed.

Lemma length_trim (s : string) : String.length (trim s) <= String.length s.
Proof.
  unfold trim. rewrite length_rev.
  etrans; [apply length_trimStart|]. rewrite length_rev. apply length_trimStart.
Qed.

Lemma length_substring0 (n : nat) (s : string) :
  String.length (substring0 n s) <= n /\ String.length (substring0 n s) <= String.length s.
Proof.
  unfold substring0. revert s. induction n as [|n IH]; intros [|c s]; simpl; try lia.
  specialize (IH s). lia.
Qed.

Lemma length_zero_empty (s : string) : String.length s = 0 -> s = "".
Proof. by destruct s. Qed.

Lemma prefix_spec (sub s : string) :
  String.prefix sub s = true <-> exists post, s = sub +:+ post.
Proof.
  revert s. induction sub as [|a sub IH]; intros s.
  - destruct s; simpl; split; eauto.
  - destruct s as [|b s]; simpl.
    + split; [done|]. intros [post [=]].
    + destruct (ascii_dec a b) as [->|Hne].
      * rewrite IH. split; intros [post E]; exists post.
        -- unfold String.app. simpl. by rewrite E.
        -- unfold String.app in E. simpl in E. by injection E.
      * split; [done|]. intros [post E]. unfold String.app in E. simpl in E.
        injection E as E1 _. congruence.
Qed.

Lemma includes_empty (sub : string) : includes "" sub = String.prefix sub "" || false.
Proof. done. Qed.

Lemma includes_cons (c : ascii) (s sub : string) :
  includes (String c s) sub = String.prefix sub (String c s) || includes s sub.
Proof. done. Qed.

(** [includes] is the occurrence of a substring. *)
Lemma includes_spec (s sub : string) :
  includes s sub = true <-> occurs_in sub s.
Proof.
  unfold occurs_in. induction s as [|c s IH].
  - rewrite includes_empty, orb_false_r, prefix_spec. split.
    + intros [post E]. by exists "", post.
    + intros ([|c pre] & post & E).
      * by exists post.
      * unfold String.app in E. simpl in E. done.
  - rewrite includes_cons, orb_true_iff, prefix_spec, IH. split.
    + intros [[post E]|(pre & post & E)].
      * by exists "", post.
      * exists (String c pre), post. unfold String.app in *. simpl. by rewrite E.
    + intros ([|c' pre] & post & E).
      * left. by exists post.
      * right. exists pre, post. unfold String.app in *. simpl in E. by injection E.
Qed.

(** ** The heuristic summary *)

(** The pieces of a split are no longer than what was read. *)
Lemma split_go_length (cur : string) (in_sep : bool) (s piece : string) :
  piece ∈ split_go cur in_sep s ->
  String.length piece <= String.length cur + String.length s.
Proof.
  revert cur in_sep. induction s as [|c s IH]; intros cur in_sep; simpl.
  - intros ->%list_elem_of_singleton. rewrite length_rev. lia.
  - destruct (is_sentence_end c).
    + destruct in_sep.
      * intros H%IH. simpl in H. lia.
      * intros [->|H%IH]%elem_of_cons; [rewrite length_rev; lia|]. simpl in H. lia.
    + intros H%IH. simpl in H. lia.
Qed.

(** Without a sentence end there is one piece: the whole text. *)
Lemma split_go_whole (cur s : string) :
  no_sentence_end s = true ->
  split_go cur false s = [String.rev (String.rev_app s cur)].
Proof.
  revert cur. induction s as [|c s IH]; intros cur; simpl; [done|].
  destruct (is_sentence_end c); simpl; [done|]. intros H. by rewrite IH.
Qed.

Lemma split_whole (s : string) :
  no_sentence_end s = true -> split_sentence_ends s = [s].
Proof.
  intros H. unfold split_sentence_ends. rewrite split_go_whole by done.
  by rewrite <-(rev_involutive s) at 2.
Qed.

Lemma sentences_of_trimmed (content s : string) :
  s ∈ sentences_of content -> trim s <> "" /\ String.length s <= String.length content.
Proof.
  unfold sentences_of. intros [Hlen Hin]%list_elem_of_filter. split.
  - intros E. rewrite E in Hlen. simpl in Hlen. lia.
  - apply split_go_length in Hin. simpl in Hin. lia.
Qed.

Lemma summary_cases (content : string) :
  match sentences_of content with
  | [] => generateFallbackSummary content = substring0 100 content +:+ "..."
  | s :: rest =>
      generateFallbackSummary content
      = trim s +:+ (match rest with [] => "" | _ => "..." end)
  end.
Proof.
  unfold generateFallbackSummary. destruct (sentences_of content) as [|s rest]; simpl; [done|].
  destruct rest; simpl; [done|]. done.
Qed.

Lemma summary_nonempty (content : string) : generateFallbackSummary content <> "".
Proof.
  pose proof (summary_cases content) as Hc.
  destruct (sentences_of content) as [|s rest] eqn:Hs; rewrite Hc.
  - intros E. apply (f_equal String.length) in E. rewrite length_append in E. simpl in E. lia.
  - assert (s ∈ sentences_of content) as [Hne _]%sentences_of_trimmed by (rewrite Hs; left).
    intros E. apply (f_equal String.length) in E. rewrite length_append in E.
    destruct (trim s); [done|]. simpl in E. lia.
Qed.

Lemma summary_length (content : string) :
  String.length (generateFallbackSummary content) <= String.length content + 3.
Proof.
  pose proof (summary_cases content) as Hc.
  destruct (sentences_of content) as [|s rest] eqn:Hs; rewrite Hc, length_append.
  - pose proof (length_substring0 100 content). simpl. lia.
  - assert (s ∈ sentences_of content) as [_ Hlen]%sentences_of_trimmed by (rewrite Hs; left).
    pose proof (length_trim s). destruct rest; simpl; lia.
Qed.

Lemma summary_whole (content : string) :
  no_sentence_end content = true -> trim content <> "" ->
  generateFallbackSummary content = trim content.
Proof.
  intros Hno Hne. pose proof (summary_cases content) as Hc.
  unfold sentences_of in Hc. rewrite split_whole in Hc by done.
  rewrite filter_cons in Hc. destruct (decide _) as [|Hn].
  - rewrite filter_nil in Hc. by rewrite Hc, append_empty_r.
  - exfalso. apply Hne, length_zero_empty. lia.
Qed.

(** ** The priority tiers *)

Lemma existsb_includes (words : list string) (s : string) :
  existsb (fun word => includes s word) words = true <-> some_occurs words s.
Proof.
  unfold some_occurs. rewrite existsb_exists. split.
  - intros (w & Hin & H). exists w. by rewrite list_elem_of_In, <-includes_spec.
  - intros (w & Hin & H). exists w. by rewrite <-list_elem_of_In, includes_spec.
Qed.

Lemma determinePriority_tiers (content : string) :
  let lowerContent := toLowerCase content in
  (determinePriority content = high <-> some_occurs urgentWords lowerContent) /\
  (determinePriority content = medium <->
     ~ some_occurs urgentWords lowerContent /\ some_occurs highPriorityWords lowerContent) /\
  (determinePriority content = low <->
     ~ some_occurs urgentWords lowerContent /\ ~ some_occurs highPriorityWords lowerContent).
Proof.
  intros lowerContent. unfold determinePriority. fold lowerContent.
  rewrite <-!existsb_includes.
  destruct (existsb _ urgentWords), (existsb _ highPriorityWords);
    repeat split; try done; intros []; done.
Qed.

(** ** The capture pipeline *)

Section CaptureFacts.

Variable JSON_parse : jsval -> result jsval.
Variable match_namePattern : string -> list string.
Variable match_datePatterns : list (string -> list string).
Variable match_taskPattern : string -> list string.
Variable strip_task_verb : string -> string.

#[local] Abbreviation processWithAI' :=
  (processWithAI JSON_parse match_namePattern match_datePatterns match_taskPattern
     strip_task_verb).
#[local] Abbreviation getFallbackProcessing' :=
  (getFallbackProcessing match_namePattern match_datePatterns match_taskPattern
     strip_task_verb).
#[local] Abbreviation analyzeWithOpenAI' := (analyzeWithOpenAI JSON_parse).
#[local] Abbreviation gateway_failed' := (gateway_failed JSON_parse).

Lemma gateway_failed_empty response :
  gateway_failed' response -> analyzeWithOpenAI' response = JObj [].
Proof.
  intros [|json|e|data e Hc|data content e Hc Hp]; try done.
  - unfold analyzeWithOpenAI. simpl. by rewrite Hc.
  - unfold analyzeWithOpenAI. simpl. rewrite Hc. simpl. by rewrite Hp.
Qed.

(** The merge of [processWithAI], field by field. *)
Lemma processWithAI_fields response captureData :
  let analysis := analyzeWithOpenAI' response in
  let heuristic := getFallbackProcessing' captureData in
  let merged (name : string) (fallback : jsval) :=
    if truthy (get_prop_opt analysis name) then get_prop_opt analysis name else fallback in
  processWithAI' response captureData =
  {| summary := merged "summary" (summary heuristic);
     category := merged "category" (category heuristic);
     priority := merged "priority" (priority heuristic);
     suggestedActions := merged "actions" (suggestedActions heuristic);
     extractedEntities :=
       {| people := merged "people" (people (extractedEntities heuristic));
          dates := merged "dates" (dates (extractedEntities heuristic));
          projects := merged "projects" (projects (extractedEntities heuristic));
          tasks := merged "tasks" (tasks (extractedEntities heuristic)) |} |}.
Proof.
  intros analysis heuristic merged. unfold processWithAI. fold analysis.
  subst merged. destruct analysis; done.
Qed.

Lemma truthy_merge (v fallback : jsval) :
  truthy fallback = true -> truthy (if truthy v then v else fallback) = true.
Proof. by destruct (truthy v) eqn:E. Qed.

Lemma fallback_fully_populated captureData :
  fully_populated (getFallbackProcessing' captureData).
Proof.
  repeat split; simpl; try done.
  - pose proof (summary_nonempty (cd_content captureData)) as Hne.
    by destruct (generateFallbackSummary _).
  - unfold categorizeContent. destruct (cd_type captureData); try done;
      repeat (case_match; try done).
  - by destruct (determinePriority _).
Qed.

(** C6.  When the gateway call fails (network error, status that is not 2xx,
    body or reply that does not parse), [processWithAI] returns the object of
    the heuristic analyzer, every field of which holds a value; and in every
    case each field is the gateway's value when that value is truthy, and the
    heuristic analyzer's value for that very field otherwise. *)
Theorem processWithAI_field_fallback response captureData :
  let analysis := analyzeWithOpenAI' response in
  let heuristic := getFallbackProcessing' captureData in
  let merged (name : string) (fallback : jsval) :=
    if truthy (get_prop_opt analysis name) then get_prop_opt analysis name else fallback in
  (gateway_failed' response -> processWithAI' response captureData = heuristic) /\
  fully_populated (processWithAI' response captureData) /\
  processWithAI' response captureData =
  {| summary := merged "summary" (summary heuristic);
     category := merged "category" (category heuristic);
     priority := merged "priority" (priority heuristic);
     suggestedActions := merged "actions" (suggestedActions heuristic);
     extractedEntities :=
       {| people := merged "people" (people (extractedEntities heuristic));
          dates := merged "dates" (dates (extractedEntities heuristic));
          projects := merged "projects" (projects (extractedEntities heuristic));
          tasks := merged "tasks" (tasks (extractedEntities heuristic)) |} |}.
Proof.
  intros analysis heuristic merged.
  pose proof (processWithAI_fields response captureData) as Hf. simpl in Hf.
  fold analysis heuristic in Hf. split; [|split]; [| |exact Hf].
  - intros Hfail. rewrite Hf. subst analysis. rewrite (gateway_failed_empty _ Hfail).
    subst heuristic. reflexivity.
  - rewrite Hf. pose proof (fallback_fully_populated captureData) as Hp.
    fold heuristic in Hp. destruct Hp as (H1 & H2 & H3 & H4 & H5 & H6 & H7 & H8).
    unfold fully_populated. subst merged. cbv beta. simpl.
    clear Hf. repeat split; apply truthy_merge; assumption.
Qed.

(** C2 (amended).  The summary of a capture is the gateway's summary when
    that is truthy and the heuristic summary otherwise.  The heuristic summary
    is never empty and at most three characters longer than the content.  When
    no piece between the runs of '.', '!', '?' has a character that is not
    white space, it is the first 100 characters of the content followed by
    "..." (at most 103 characters); otherwise it is the first such piece,
    trimmed, followed by "..." exactly when there is a second one.  A content
    without '.', '!', '?' that is not blank is therefore returned whole
    (trimmed), without ellipsis and whatever its length. *)
Theorem generateFallbackSummary_spec response captureData :
  let content := cd_content captureData in
  let reply := get_prop_opt (analyzeWithOpenAI' response) "summary" in
  let heuristic := generateFallbackSummary content in
  summary (processWithAI' response captureData)
    = (if truthy reply then reply else JStr heuristic) /\
  heuristic <> "" /\
  String.length heuristic <= String.length content + 3 /\
  (sentences_of content = [] ->
     heuristic = substring0 100 content +:+ "..." /\ String.length heuristic <= 103) /\
  (forall s rest, sentences_of content = s :: rest ->
     heuristic = trim s +:+ (match rest with [] => "" | _ => "..." end)) /\
  (no_sentence_end content = true -> trim content <> "" -> heuristic = trim content).
Proof.
  intros content reply heuristic.
  pose proof (summary_cases content) as Hc. fold heuristic in Hc.
  split; [|split; [|split; [|split; [|split]]]].
  - pose proof (processWithAI_fields response captureData) as Hf. simpl in Hf.
    by rewrite Hf.
  - apply summary_nonempty.
  - apply summary_length.
  - intros Hs. rewrite Hs in Hc. split; [done|].
    rewrite Hc, length_append. pose proof (length_substring0 100 content). simpl. lia.
  - intros s rest Hs. by rewrite Hs in Hc.
  - apply summary_whole.
Qed.

(** C7 (amended).  The priority of a capture is the gateway's priority when
    that is truthy, whatever it is; otherwise it is the heuristic priority,
    which is one of high, medium and low: high exactly when an urgent word
    occurs in the lower-cased content, medium exactly when none does and a
    secondary word occurs, low exactly when no word of either list occurs. *)
Theorem priority_tiers response captureData :
  let content := cd_content captureData in
  let lowerContent := toLowerCase content in
  let reply := get_prop_opt (analyzeWithOpenAI' response) "priority" in
  priority (processWithAI' response captureData) =
    (if truthy reply then reply else JStr (priority_name (determinePriority content))) /\
  priority_name (determinePriority content) ∈ ["high"; "medium"; "low"] /\
  (determinePriority content = high <-> some_occurs urgentWords lowerContent) /\
  (determinePriority content = medium <->
     ~ some_occurs urgentWords lowerContent /\ some_occurs highPriorityWords lowerContent) /\
  (determinePriority content = low <->
     ~ some_occurs urgentWords lowerContent /\ ~ some_occurs highPriorityWords lowerContent).
Proof.
  intros content lowerContent reply.
  destruct (determinePriority_tiers content) as (H1 & H2 & H3).
  split; [|split; [|split; [exact H1|split; [exact H2|exact H3]]]].
  - pose proof (processWithAI_fields response captureData) as Hf. simpl in Hf.
    by rewrite Hf.
  - destruct (determinePriority content); simpl; repeat constructor.
Qed.

End CaptureFacts.

Lemma processWithAI_field_fallback_witness :
  processWithAI parse_priority_reply no_match [] no_match id FetchRejected urgent_note
  = getFallbackProcessing no_match [] no_match id urgent_note.
Proof.
  apply (proj1 (processWithAI_field_fallback parse_priority_reply no_match [] no_match id
                  FetchRejected urgent_note)).
  apply failed_network.
Defined.

Lemma generateFallbackSummary_spec_witness :
  generateFallbackSummary "?!" = "?!..." /\
  generateFallbackSummary "Call Bob. Then lunch!" = "Call Bob..." /\
  generateFallbackSummary "  no sentence end here " = "no sentence end here".
Proof.
  split; [|split].
  - apply (generateFallbackSummary_spec parse_priority_reply no_match [] no_match id
             FetchRejected {| cd_type := c_note; cd_content := "?!" |}).
    reflexivity.
  - apply (proj1 (proj2 (proj2 (proj2 (proj2
             (generateFallbackSummary_spec parse_priority_reply no_match [] no_match id
                FetchRejected
                {| cd_type := c_note; cd_content := "Call Bob. Then lunch!" |})))))
             "Call Bob" [" Then lunch"]).
    reflexivity.
  - apply (generateFallbackSummary_spec parse_priority_reply no_match [] no_match id
             FetchRejected
             {| cd_type := c_note; cd_content := "  no sentence end here " |});
      [reflexivity|].
    vm_compute. discriminate.
Defined.

(** C2, counterexample: a content without sentence end is summarised by
    itself, not by its first 100 characters and an ellipsis, and the summary
    of a long one exceeds 103 characters. *)
Lemma generateFallbackSummary_counterexample :
  no_sentence_end "hello world" = true /\
  generateFallbackSummary "hello world" = "hello world" /\
  generateFallbackSummary "hello world" <> substring0 100 "hello world" +:+ "..." /\
  no_sentence_end long_text = true /\
  String.length (generateFallbackSummary long_text) = 137.
Proof. vm_compute. repeat split; discriminate. Qed.

Lemma priority_tiers_witness :
  determinePriority (cd_content urgent_note) = high.
Proof.
  apply (priority_tiers parse_priority_reply no_match [] no_match id FetchRejected urgent_note).
  exists "urgent". split; [repeat constructor|]. apply includes_spec. reflexivity.
Defined.

(** C7, counterexample: the content holds an urgent word, and the priority of
    the capture is the "low", or the "critical", of the gateway's reply. *)
Lemma priority_counterexample :
  let process response :=
    processWithAI parse_priority_reply no_match [] no_match id response urgent_note in
  includes (toLowerCase (cd_content urgent_note)) "urgent" = true /\
  priority (process (completion (priority_reply "low"))) = JStr "low" /\
  priority (process (completion (priority_reply "critical"))) = JStr "critical".
Proof. vm_compute. done. Qed.

(** ** Rounding to binary64 *)

Section Binary64.
Local Open Scope Q_scope.

Lemma pow2_pos (e : Z) : 0 < pow2 e.
Proof. apply Qpower_0_lt. reflexivity. Qed.

Lemma pow2_add (a b : Z) : pow2 (a + b) == pow2 a * pow2 b.
Proof. apply Qpower_plus. discriminate. Qed.

Lemma pow2_le (a b : Z) : (a <= b)%Z -> pow2 a <= pow2 b.
Proof. intros H. apply Qpower_le_compat_l; [done|]. discriminate. Qed.

Lemma pow2_inject (n : Z) : (0 <= n)%Z -> inject_Z (2 ^ n) == pow2 n.
Proof. intros H. by rewrite Zpower_Qpower. Qed.

Lemma Q_as_quotient (x : Q) : x == inject_Z (Qnum x) / inject_Z (Zpos (Qden x)).
Proof. destruct x as [a b]. simpl. apply Qmake_Qdiv. Qed.

Lemma Qnum_pos (x : Q) : 0 < x -> (0 < Qnum x)%Z.
Proof. destruct x as [a b]. unfold Qlt. simpl. lia. Qed.

Lemma ilog2_lower (x : Q) : 0 < x -> pow2 (ilog2 x) <= x.
Proof.
  intros Hx. unfold ilog2.
  set (la := Z.log2 (Qnum x)). set (lb := Z.log2 (Zpos (Qden x))).
  destruct (Qle_bool (pow2 (la - lb)) x) eqn:E; [by apply Qle_bool_iff|].
  destruct (Z.log2_spec (Qnum x) (Qnum_pos x Hx)) as [Ha _].
  destruct (Z.log2_spec (Zpos (Qden x))) as [_ Hb]; [done|].
  fold la in Ha. fold lb in Hb.
  assert (0 <= la)%Z by apply Z.log2_nonneg. assert (0 <= lb)%Z by apply Z.log2_nonneg.
  rewrite (Q_as_quotient x) at 1.
  apply Qle_shift_div_l; [reflexivity|].
  apply Qle_trans with (pow2 (la - lb - 1) * pow2 (lb + 1)).
  - apply Qmult_le_l; [apply pow2_pos|].
    rewrite <-pow2_inject by lia. rewrite <-Zle_Qle. unfold Z.succ in Hb. lia.
  - rewrite <-pow2_add. replace (la - lb - 1 + (lb + 1))%Z with la by lia.
    rewrite <-pow2_inject by lia. by rewrite <-Zle_Qle.
Qed.

Lemma ilog2_upper (x : Q) : 0 < x -> x < pow2 (ilog2 x + 1).
Proof.
  intros Hx. unfold ilog2.
  set (la := Z.log2 (Qnum x)). set (lb := Z.log2 (Zpos (Qden x))).
  destruct (Qle_bool (pow2 (la - lb)) x) eqn:E.
  - destruct (Z.log2_spec (Qnum x) (Qnum_pos x Hx)) as [_ Ha].
    destruct (Z.log2_spec (Zpos (Qden x))) as [Hb _]; [done|].
    fold la in Ha. fold lb in Hb.
    assert (0 <= la)%Z by apply Z.log2_nonneg. assert (0 <= lb)%Z by apply Z.log2_nonneg.
    rewrite (Q_as_quotient x) at 1.
    apply Qlt_shift_div_r; [reflexivity|].
    apply Qlt_le_trans with (pow2 (la - lb + 1) * pow2 lb).
    + rewrite <-pow2_add. replace (la - lb + 1 + lb)%Z with (la + 1)%Z by lia.
      rewrite <-pow2_inject by lia. rewrite <-Zlt_Qlt. unfold Z.succ in Ha. lia.
    + apply Qmult_le_l; [apply pow2_pos|].
      rewrite <-pow2_inject by lia. by rewrite <-Zle_Qle.
  - replace (la - lb - 1 + 1)%Z with (la - lb)%Z by lia.
    apply Qnot_le_lt. intros H%Qle_bool_iff. congruence.
Qed.

Lemma round_ties_even_floor (t : Q) :
  (Qfloor t <= round_ties_even t <= Qfloor t + 1)%Z.
Proof.
  unfold round_ties_even. destruct (Qcompare _ _); [destruct (Z.even _)| |]; lia.
Qed.

Lemma round_ties_even_ceiling (t : Q) : (round_ties_even t <= Qceiling t)%Z.
Proof.
  pose proof (Qle_floor_ceiling t) as Hfc. rewrite <-Zle_Qle in Hfc.
  assert (inject_Z (Qfloor t) < t -> (Qfloor t + 1 <= Qceiling t)%Z) as Hstep.
  { intros Hlt. pose proof (Qle_ceiling t) as Hc.
    assert (inject_Z (Qfloor t) < inject_Z (Qceiling t)) as H by (eapply Qlt_le_trans; eauto).
    rewrite <-Zlt_Qlt in H. lia. }
  unfold round_ties_even. destruct (Qcompare _ _) eqn:E.
  - apply Qeq_alt in E. assert (inject_Z (Qfloor t) < t) as H%Hstep by lra.
    destruct (Z.even _); lia.
  - lia.
  - apply Qgt_alt in E. apply Hstep. lra.
Qed.

Lemma floor_ge (k : Z) (t : Q) : inject_Z k <= t -> (k <= Qfloor t)%Z.
Proof. intros H%Qfloor_resp_le. by rewrite Qfloor_Z in H. Qed.

Lemma ceiling_le (k : Z) (t : Q) : t <= inject_Z k -> (Qceiling t <= k)%Z.
Proof. intros H%Qceiling_resp_le. by rewrite Qceiling_Z in H. Qed.

(** A value whose last place is at or above [E] is a multiple of 2^E. *)
Lemma multiple_of_ulp (m e E : Z) :
  (E <= e)%Z -> inject_Z m * pow2 e == inject_Z (m * 2 ^ (e - E)) * pow2 E.
Proof.
  intros H. rewrite inject_Z_mult, pow2_inject by lia.
  rewrite <-Qmult_assoc, <-pow2_add. by replace (e - E + E)%Z with e by lia.
Qed.

(** A value whose last place is below that of [x] is at most the power of
    two at the bottom of the binade of [x]. *)
Lemma below_binade (x : Q) (m e : Z) :
  0 < x -> (Z.abs m <= 2 ^ 53)%Z -> (-1074 <= e)%Z -> (e < ulp_exp x)%Z ->
  inject_Z m * pow2 e <= pow2 (52 + ulp_exp x) /\ pow2 (52 + ulp_exp x) <= x.
Proof.
  intros Hx Hm He HE. unfold ulp_exp in *.
  assert (Z.max (ilog2 x - 52) (-1074) = ilog2 x - 52)%Z as -> by lia.
  assert (Z.max (ilog2 x - 52) (-1074) = ilog2 x - 52)%Z as HE' by lia.
  rewrite HE' in HE. split.
  - apply Qle_trans with (pow2 53 * pow2 e).
    + apply Qmult_le_compat_r; [|apply Qlt_le_weak, pow2_pos].
      rewrite <-pow2_inject by lia. rewrite <-Zle_Qle. lia.
    + rewrite <-pow2_add. apply pow2_le. lia.
  - replace (52 + (ilog2 x - 52))%Z with (ilog2 x) by lia. by apply ilog2_lower.
Qed.

Lemma fl_pos_lower (x r : Q) :
  0 < x -> representable r -> r <= x -> r <= fl_pos x.
Proof.
  intros Hx (m & e & Hm & He & Hr) Hle. unfold fl_pos.
  set (E := ulp_exp x). set (t := x / pow2 E).
  pose proof (pow2_pos E) as HE.
  assert (forall k : Z, inject_Z k * pow2 E <= x -> inject_Z k * pow2 E <= inject_Z (round_ties_even t) * pow2 E)
    as Hint.
  { intros k Hk. apply Qmult_le_compat_r; [|lra]. rewrite <-Zle_Qle.
    etrans; [|apply round_ties_even_floor]. apply floor_ge.
    unfold t. apply Qle_shift_div_l; [done|]. done. }
  destruct (Z_le_gt_dec E e) as [Hge|Hlt].
  - rewrite Hr, (multiple_of_ulp m e E) by done. apply Hint.
    by rewrite <-multiple_of_ulp, <-Hr.
  - destruct (below_binade x m e) as [H1 H2]; try done; [fold E; lia|]. fold E in H1, H2.
    rewrite Hr. eapply Qle_trans; [apply H1|].
    assert (pow2 (52 + E) == inject_Z (2 ^ 52) * pow2 E) as Hp
      by (by rewrite pow2_add, pow2_inject).
    rewrite Hp. apply Hint. by rewrite <-Hp.
Qed.

Lemma fl_pos_upper (x r : Q) :
  0 < x -> representable r -> x <= r -> fl_pos x <= r.
Proof.
  intros Hx (m & e & Hm & He & Hr) Hle. unfold fl_pos.
  set (E := ulp_exp x). set (t := x / pow2 E).
  pose proof (pow2_pos E) as HE.
  assert (forall k : Z, x <= inject_Z k * pow2 E -> inject_Z (round_ties_even t) * pow2 E <= inject_Z k * pow2 E)
    as Hint.
  { intros k Hk. apply Qmult_le_compat_r; [|lra]. rewrite <-Zle_Qle.
    etrans; [apply round_ties_even_ceiling|]. apply ceiling_le.
    unfold t. apply Qle_shift_div_r; [done|]. done. }
  destruct (Z_le_gt_dec E e) as [Hge|Hlt].
  - rewrite Hr, (multiple_of_ulp m e E) by done. apply Hint.
    by rewrite <-multiple_of_ulp, <-Hr.
  - destruct (below_binade x m e) as [H1 H2]; try done; [fold E; lia|]. fold E in H1, H2.
    assert (pow2 (52 + E) == inject_Z (2 ^ 52) * pow2 E) as Hp
      by (by rewrite pow2_add, pow2_inject).
    apply Qle_trans with (pow2 (52 + E)); [|lra].
    rewrite Hp. apply Hint. rewrite <-Hp. rewrite Hr in Hle. lra.
Qed.

Lemma fl_pos_representable (x : Q) : 0 < x -> representable (fl_pos x).
Proof.
  intros Hx. unfold fl_pos. set (E := ulp_exp x). set (t := x / pow2 E).
  pose proof (pow2_pos E) as HE.
  exists (round_ties_even t), E. split; [|split; [unfold E, ulp_exp; lia|done]].
  assert (0 <= t) as Ht0.
  { unfold t. apply Qle_shift_div_l; [done|]. lra. }
  assert (t <= inject_Z (2 ^ 53)) as Ht1.
  { unfold t. apply Qle_shift_div_r; [done|]. rewrite pow2_inject by lia.
    rewrite <-pow2_add. apply Qlt_le_weak. eapply Qlt_le_trans; [by apply ilog2_upper|].
    apply pow2_le. unfold E, ulp_exp. lia. }
  pose proof (round_ties_even_floor t) as [Hlo _].
  pose proof (round_ties_even_ceiling t) as Hhi.
  apply (floor_ge 0) in Ht0. apply ceiling_le in Ht1. lia.
Qed.

Lemma fl_positive (x : Q) : 0 < x -> fl x == fl_pos x.
Proof.
  intros Hx. pose proof (Qnum_pos x Hx). unfold fl.
  destruct (Qnum x); try lia. apply Qred_correct.
Qed.

Lemma fl_zero (x : Q) : x == 0 -> fl x = 0.
Proof.
  destruct x as [a b]. unfold Qeq. simpl. intros H. unfold fl. simpl.
  by replace a with 0%Z by lia.
Qed.

Lemma representable_zero : representable 0.
Proof. exists 0%Z, 0%Z. repeat split; try done. Qed.

Lemma representable_proper (r r' : Q) : r == r' -> representable r -> representable r'.
Proof. intros E (m & e & ? & ? & H). exists m, e. repeat split; try done. by rewrite <-E. Qed.

Lemma nonneg_cases (x : Q) : 0 <= x -> x == 0 \/ 0 < x.
Proof. intros H. destruct (Qlt_le_dec 0 x); [by right|left; lra]. Qed.

(** The rounded value is at least every binary64 value that the exact one
    reaches, and at most every one that reaches it. *)
Lemma fl_lower (x r : Q) : 0 <= x -> representable r -> r <= x -> r <= fl x.
Proof.
  intros [Hx|Hx]%nonneg_cases Hr Hle.
  - rewrite (fl_zero x Hx). lra.
  - rewrite (fl_positive x Hx). by apply fl_pos_lower.
Qed.

Lemma fl_upper (x r : Q) : 0 <= x -> representable r -> x <= r -> fl x <= r.
Proof.
  intros [Hx|Hx]%nonneg_cases Hr Hle.
  - rewrite (fl_zero x Hx). lra.
  - rewrite (fl_positive x Hx). by apply fl_pos_upper.
Qed.

Lemma fl_representable (x : Q) : 0 <= x -> representable (fl x).
Proof.
  intros [Hx|Hx]%nonneg_cases.
  - rewrite (fl_zero x Hx). apply representable_zero.
  - eapply representable_proper; [symmetry; by apply fl_positive|].
    by apply fl_pos_representable.
Qed.

Lemma fl_nonneg (x : Q) : 0 <= x -> 0 <= fl x.
Proof. intros H. apply fl_lower; [done|apply representable_zero|done]. Qed.

(** A binary64 value is its own rounding. *)
Lemma fl_exact (x : Q) : 0 <= x -> representable x -> fl x == x.
Proof.
  intros Hx Hr. apply Qle_antisym.
  - apply fl_upper; [done|done|lra].
  - apply fl_lower; [done|done|lra].
Qed.

Lemma representable_integer (n : Z) : (Z.abs n <= 2 ^ 53)%Z -> representable (inject_Z n).
Proof. intros H. exists n, 0%Z. split; [done|]. split; [lia|]. unfold pow2. simpl. lra. Qed.

Lemma round_ties_even_half (t : Q) :
  t - (1 # 2) <= inject_Z (round_ties_even t) <= t + (1 # 2).
Proof.
  pose proof (Qfloor_le t) as Hlo. pose proof (Qlt_floor t) as Hhi.
  rewrite inject_Z_plus in Hhi. change (inject_Z 1) with 1 in Hhi.
  unfold round_ties_even. cbv zeta.
  assert (inject_Z (Qfloor t + 1) == inject_Z (Qfloor t) + 1) as Hs
    by (rewrite inject_Z_plus; reflexivity).
  destruct (Qcompare _ _) eqn:E.
  - apply Qeq_alt in E. destruct (Z.even _); rewrite ?Hs;
      generalize dependent (inject_Z (Qfloor t)); intros; lra.
  - apply Qlt_alt in E. generalize dependent (inject_Z (Qfloor t)); intros; lra.
  - apply Qgt_alt in E. rewrite Hs. generalize dependent (inject_Z (Qfloor t)); intros; lra.
Qed.

Lemma unit_roundoff_pow2 : unit_roundoff == pow2 (-53).
Proof. reflexivity. Qed.

(** The relative error of a rounding in the normal range. *)
Lemma fl_relative (x : Q) :
  pow2 (-1022) <= x ->
  (1 - unit_roundoff) * x <= fl x <= (1 + unit_roundoff) * x.
Proof.
  intros Hx. pose proof (pow2_pos (-1022)) as H0.
  assert (0 < x) as Hpos by lra.
  rewrite (fl_positive x Hpos). unfold fl_pos.
  set (E := ulp_exp x). set (t := x / pow2 E).
  pose proof (pow2_pos E) as HE.
  assert (E = ilog2 x - 52)%Z as HEeq.
  { unfold E, ulp_exp. apply Z.max_l.
    assert (-1022 <= ilog2 x)%Z; [|lia].
    destruct (Z_le_gt_dec (-1022) (ilog2 x)) as [|Hlt]; [done|].
    pose proof (ilog2_upper x Hpos) as Hup.
    assert (pow2 (ilog2 x + 1) <= pow2 (-1022)) by (apply pow2_le; lia). lra. }
  assert (pow2 (E - 1) <= unit_roundoff * x) as Hulp.
  { pose proof (ilog2_lower x Hpos) as Hlow.
    replace (E - 1)%Z with (-53 + ilog2 x)%Z by lia. rewrite pow2_add.
    rewrite unit_roundoff_pow2. apply Qmult_le_l; [apply pow2_pos|done]. }
  assert (pow2 E * (1 # 2) == pow2 (E - 1)) as Hhalf.
  { replace E with (E - 1 + 1)%Z at 1 by lia. rewrite pow2_add.
    unfold pow2 at 2. simpl. field. }
  pose proof (round_ties_even_half t) as [Hlo Hhi].
  assert (t * pow2 E == x) as Ht by (unfold t; field; lra).
  assert ((t - (1 # 2)) * pow2 E <= inject_Z (round_ties_even t) * pow2 E) as H1
    by (apply Qmult_le_compat_r; lra).
  assert (inject_Z (round_ties_even t) * pow2 E <= (t + (1 # 2)) * pow2 E) as H2
    by (apply Qmult_le_compat_r; lra).
  assert ((t - (1 # 2)) * pow2 E == x - pow2 (E - 1)) as E1 by (rewrite <-Ht, <-Hhalf; ring).
  assert ((t + (1 # 2)) * pow2 E == x + pow2 (E - 1)) as E2 by (rewrite <-Ht, <-Hhalf; ring).
  rewrite E1 in H1. rewrite E2 in H2. split; lra.
Qed.

(** The same bounds hold at zero. *)
Lemma fl_relative_nonneg (x : Q) :
  x == 0 \/ pow2 (-1022) <= x ->
  (1 - unit_roundoff) * x <= fl x <= (1 + unit_roundoff) * x.
Proof.
  intros [Hx|Hx]; [|by apply fl_relative].
  rewrite (fl_zero x Hx), Hx. lra.
Qed.


Lemma normal_quarter (x : Q) : 1 # 4 <= x -> pow2 (-1022) <= x.
Proof.
  intros Hx. assert (pow2 (-1022) <= pow2 (-2)) as H by (apply pow2_le; lia).
  assert (pow2 (-2) == 1 # 4) as E by reflexivity. lra.
Qed.

Lemma normal_small (x : Q) : 1 # 1000000000 <= x -> pow2 (-1022) <= x.
Proof.
  intros Hx. assert (pow2 (-1022) <= pow2 (-30)) as H by (apply pow2_le; lia).
  assert (pow2 (-30) <= 1 # 1000000000) as E by (vm_compute; discriminate). lra.
Qed.

Lemma Qfloor_unique (x : Q) (e : Z) : inject_Z e <= x -> x < inject_Z e + 1 -> Qfloor x = e.
Proof.
  intros Hlo Hhi. pose proof (Qfloor_le x) as H1. pose proof (Qlt_floor x) as H2.
  rewrite inject_Z_plus in H2. change (inject_Z 1) with 1 in H2.
  assert (inject_Z e < inject_Z (Qfloor x) + 1) as H3 by lra.
  assert (inject_Z (Qfloor x) < inject_Z e + 1) as H4 by lra.
  change 1 with (inject_Z 1) in H3, H4. rewrite <-inject_Z_plus in H3, H4.
  rewrite <-Zlt_Qlt in H3, H4. lia.
Qed.

Lemma mult_bounds (a1 a a2 b1 b b2 : Q) :
  0 <= a1 -> a1 <= a -> a <= a2 -> 0 <= b1 -> b1 <= b -> b <= b2 ->
  a1 * b1 <= a * b <= a2 * b2.
Proof.
  intros. split.
  - apply Qle_trans with (a * b1).
    + apply Qmult_le_compat_r; done.
    + rewrite !(Qmult_comm a). apply Qmult_le_compat_r; [done|lra].
  - apply Qle_trans with (a2 * b).
    + apply Qmult_le_compat_r; [done|lra].
    + rewrite !(Qmult_comm a2). apply Qmult_le_compat_r; [done|lra].
Qed.

End Binary64.

(** ** Trend classification *)

Lemma slice_last_six {A} (older : list A) a b c x y z :
  slice_last 3 (older ++ [a; b; c; x; y; z]) = [x; y; z].
Proof.
  unfold slice_last.
  replace (older ++ [a; b; c; x; y; z]) with ((older ++ [a; b; c]) ++ [x; y; z])
    by (by rewrite <-app_assoc).
  replace (length ((older ++ [a; b; c]) ++ [x; y; z]) - 3) with (length (older ++ [a; b; c]))
    by (rewrite !length_app; simpl; lia).
  apply drop_app_length.
Qed.

Lemma slice_between_six {A} (older : list A) a b c x y z :
  slice_between 6 3 (older ++ [a; b; c; x; y; z]) = [a; b; c].
Proof.
  unfold slice_between.
  replace (length (older ++ [a; b; c; x; y; z]) - 6) with (length older)
    by (rewrite length_app; simpl; lia).
  replace (length (older ++ [a; b; c; x; y; z]) - 3 - length older) with 3
    by (rewrite length_app; simpl; lia).
  by rewrite drop_app_length.
Qed.

Lemma calculateTrend_six (older : list Q) (a b c x y z : Q) :
  calculateTrend (older ++ [a; b; c; x; y; z]) =
    if js_gt (mean3 x y z) (fmul (mean3 a b c) (fl (11 # 10))) then up
    else if js_lt (mean3 x y z) (fmul (mean3 a b c) (fl (9 # 10))) then down
    else stable.
Proof.
  unfold calculateTrend. destruct (decide _) as [Hlen|_].
  { rewrite length_app in Hlen. simpl in Hlen. lia. }
  by rewrite slice_last_six, slice_between_six.
Qed.

Lemma tenth_more : (1 <= fl (11 # 10))%Q.
Proof. vm_compute. discriminate. Qed.

Lemma tenth_less : (0 <= fl (9 # 10) /\ fl (9 # 10) <= 1)%Q.
Proof. split; vm_compute; discriminate. Qed.

(** A binary64 value that is not negative is neither above its product
    with 1.1 nor below its product with 0.9. *)
Lemma level_is_stable (r : Q) :
  (0 <= r)%Q -> representable r ->
  js_gt r (fmul r (fl (11 # 10))) = false /\ js_lt r (fmul r (fl (9 # 10))) = false.
Proof.
  intros Hr Hrep. pose proof tenth_more as H11. pose proof tenth_less as [H09 H09'].
  unfold js_gt, js_lt, fmul. split; apply negb_false_iff, Qle_bool_iff.
  - assert (r <= r * fl (11 # 10))%Q as Hle.
    { rewrite <-(Qmult_1_r r) at 1. rewrite !(Qmult_comm r).
      by apply Qmult_le_compat_r. }
    apply fl_lower; [lra|done|done].
  - assert (r * fl (9 # 10) <= r)%Q as Hle.
    { rewrite <-(Qmult_1_r r) at 2. rewrite !(Qmult_comm r).
      by apply Qmult_le_compat_r. }
    apply fl_upper; [|done|done].
    apply Qmult_le_0_compat; done.
Qed.

Lemma mean3_level (c : Q) :
  (0 <= c)%Q -> (0 <= mean3 c c c)%Q /\ representable (mean3 c c c).
Proof.
  intros Hc. unfold mean3, fdiv, fadd.
  assert (0 <= fl (0 + c))%Q as H1 by (apply fl_nonneg; lra).
  assert (0 <= fl (fl (0 + c) + c))%Q as H2 by (apply fl_nonneg; lra).
  assert (0 <= fl (fl (fl (0 + c) + c) + c))%Q as H3 by (apply fl_nonneg; lra).
  assert (0 <= fl (fl (fl (0 + c) + c) + c) / 3)%Q as H4
    by (apply Qle_shift_div_l; [done|lra]).
  split; [by apply fl_nonneg|by apply fl_representable].
Qed.

Section TrendBounds.
Local Open Scope Q_scope.

(** The sum of three small naturals is exact. *)
Lemma sum3_exact (x y z : Z) :
  small_natural x -> small_natural y -> small_natural z ->
  fadd (fadd (fadd 0 (inject_Z x)) (inject_Z y)) (inject_Z z) == inject_Z (x + y + z).
Proof.
  unfold small_natural. intros Hx Hy Hz. unfold fadd.
  assert (0 <= inject_Z x) as Hx' by (rewrite <-(Zle_Qle 0); lia).
  assert (0 <= inject_Z y) as Hy' by (rewrite <-(Zle_Qle 0); lia).
  assert (0 <= inject_Z z) as Hz' by (rewrite <-(Zle_Qle 0); lia).
  assert (fl (0 + inject_Z x) == inject_Z x) as E1.
  { rewrite fl_exact; [lra|lra|].
    eapply representable_proper; [|apply (representable_integer x); lia]. lra. }
  assert (fl (fl (0 + inject_Z x) + inject_Z y) == inject_Z (x + y)) as E2.
  { assert (fl (0 + inject_Z x) + inject_Z y == inject_Z (x + y)) as E
      by (rewrite E1, inject_Z_plus; reflexivity).
    rewrite fl_exact; [done|lra|].
    eapply representable_proper; [symmetry; exact E|]. apply representable_integer. lia. }
  assert (fl (fl (0 + inject_Z x) + inject_Z y) + inject_Z z == inject_Z (x + y + z)) as E
    by (rewrite E2, <-inject_Z_plus; reflexivity).
  assert (0 <= inject_Z (x + y + z)) as H0 by (rewrite <-(Zle_Qle 0); lia).
  rewrite fl_exact; [done|lra|].
  eapply representable_proper; [symmetry; exact E|]. apply representable_integer. lia.
Qed.

(** The mean of three small naturals is within one rounding of the exact
    mean. *)
Lemma mean3_bounds (x y z : Z) :
  small_natural x -> small_natural y -> small_natural z ->
  (1 - unit_roundoff) * (inject_Z (x + y + z) * (1 # 3))
    <= mean3 (inject_Z x) (inject_Z y) (inject_Z z)
    <= (1 + unit_roundoff) * (inject_Z (x + y + z) * (1 # 3)).
Proof.
  intros Hx Hy Hz. unfold mean3, fdiv.
  assert (0 <= x + y + z)%Z as Hsum by (unfold small_natural in *; lia).
  assert (fadd (fadd (fadd 0 (inject_Z x)) (inject_Z y)) (inject_Z z) / 3
          == inject_Z (x + y + z) * (1 # 3)) as E.
  { rewrite (sum3_exact x y z Hx Hy Hz). unfold Qdiv. reflexivity. }
  rewrite <-E. apply fl_relative_nonneg. rewrite E.
  destruct (Z.eq_dec (x + y + z)%Z 0%Z) as [->|Hne]; [left; reflexivity|right].
  apply normal_quarter.
  assert (1 <= inject_Z (x + y + z)) as H1 by (rewrite <-(Zle_Qle 1); lia).
  lra.
Qed.


(** The threshold [previous * k] of [calculateTrend] is within three
    roundings of the exact one. *)
Lemma threshold_bounds (p P k k1 k2 : Q) :
  P == 0 \/ 1 # 3 <= P ->
  (1 - unit_roundoff) * P <= p <= (1 + unit_roundoff) * P ->
  4 # 5 <= k1 -> k1 <= k -> k <= k2 ->
  (1 - unit_roundoff) * ((1 - unit_roundoff) * P * k1) <= fmul p k
    <= (1 + unit_roundoff) * ((1 + unit_roundoff) * P * k2).
Proof.
  intros HP [Hlo Hhi] Hk1 Hk Hk2. unfold fmul.
  assert (0 <= 1 - unit_roundoff) as Hu by (unfold unit_roundoff; lra).
  assert (0 <= 1 + unit_roundoff) as Hu' by (unfold unit_roundoff; lra).
  assert (0 <= P) as HP0 by (destruct HP; lra).
  assert (0 <= (1 - unit_roundoff) * P) as H0 by (by apply Qmult_le_0_compat).
  destruct (mult_bounds _ p _ k1 k k2 H0 Hlo Hhi) as [Hprod Hprod']; [lra|done|done|].
  assert (p * k == 0 \/ pow2 (-1022) <= p * k) as Hnormal.
  { destruct HP as [E|HP]; [left|right].
    - rewrite E in Hlo, Hhi. assert (p == 0) as -> by lra. ring.
    - apply normal_quarter.
      assert ((1 - unit_roundoff) * (1 # 3) <= (1 - unit_roundoff) * P) as HP'.
      { rewrite !(Qmult_comm (1 - unit_roundoff)). by apply Qmult_le_compat_r. }
      destruct (mult_bounds ((1 - unit_roundoff) * (1 # 3)) ((1 - unit_roundoff) * P)
                  ((1 - unit_roundoff) * P) (4 # 5) k1 k1) as [Hq _];
        [unfold unit_roundoff; lra|done|lra|lra|done|lra|].
      unfold unit_roundoff in *. lra. }
  destruct (fl_relative_nonneg _ Hnormal) as [Hfl Hfl']. split.
  - eapply Qle_trans; [|exact Hfl].
    rewrite !(Qmult_comm (1 - unit_roundoff) (_ * _)). by apply Qmult_le_compat_r.
  - eapply Qle_trans; [exact Hfl'|].
    rewrite !(Qmult_comm (1 + unit_roundoff) (_ * _)). by apply Qmult_le_compat_r.
Qed.

Lemma tenth_more_bounds :
  11 # 10 <= fl (11 # 10) /\ fl (11 # 10) <= (11 # 10) * (1 + unit_roundoff).
Proof. split; vm_compute; discriminate. Qed.

Lemma tenth_less_bounds :
  9 # 10 <= fl (9 # 10) /\ fl (9 # 10) <= (9 # 10) * (1 + unit_roundoff).
Proof. split; vm_compute; discriminate. Qed.

(** On naturals up to 10^9 the comparisons of [calculateTrend] decide as the
    exact ones do, away from the two exact thresholds. *)
Lemma trend_comparisons (a b c x y z : Z) :
  (0 <= a <= 1000000000)%Z -> (0 <= b <= 1000000000)%Z -> (0 <= c <= 1000000000)%Z ->
  small_natural x -> small_natural y -> small_natural z ->
  let recent := mean3 (inject_Z x) (inject_Z y) (inject_Z z) in
  let previous := mean3 (inject_Z a) (inject_Z b) (inject_Z c) in
  ((11 * (a + b + c) < 10 * (x + y + z))%Z ->
     js_gt recent (fmul previous (fl (11 # 10))) = true) /\
  ((10 * (x + y + z) < 11 * (a + b + c))%Z ->
     js_gt recent (fmul previous (fl (11 # 10))) = false) /\
  ((10 * (x + y + z) < 9 * (a + b + c))%Z ->
     js_lt recent (fmul previous (fl (9 # 10))) = true) /\
  ((9 * (a + b + c) < 10 * (x + y + z))%Z ->
     js_lt recent (fmul previous (fl (9 # 10))) = false).
Proof.
  intros Ha Hb Hc Hx Hy Hz recent previous.
  pose proof (mean3_bounds x y z Hx Hy Hz) as [Hr Hr'].
  pose proof (mean3_bounds a b c Ha Hb Hc) as Hp.
  unfold small_natural in *.
  fold recent in Hr, Hr'. fold previous in Hp.
  set (Sr := (x + y + z)%Z) in *. set (Sp := (a + b + c)%Z) in *.
  assert (0 <= Sr <= 3000000000)%Z as HSr by lia.
  assert (0 <= Sp <= 3000000000)%Z as HSp by lia.
  clearbody Sr Sp recent previous. clear Ha Hb Hc Hx Hy Hz a b c x y z.
  assert (inject_Z Sp * (1 # 3) == 0 \/ 1 # 3 <= inject_Z Sp * (1 # 3)) as HP.
  { destruct (Z.eq_dec Sp 0%Z) as [->|Hne]; [left; reflexivity|right].
    assert (1 <= inject_Z Sp) by (rewrite <-(Zle_Qle 1); lia). lra. }
  destruct tenth_more_bounds as [H11 H11']. destruct tenth_less_bounds as [H09 H09'].
  destruct (threshold_bounds previous _ _ (11 # 10) _ HP Hp ltac:(lra) H11 H11')
    as [Hup Hup'].
  destruct (threshold_bounds previous _ _ (9 # 10) _ HP Hp ltac:(lra) H09 H09')
    as [Hdown Hdown'].
  destruct Hp as [Hp Hp'].
  assert (0 <= inject_Z Sr <= 3000000000) as [HR HR'].
  { split; [rewrite <-(Zle_Qle 0)|rewrite <-(Zle_Qle _ 3000000000)]; lia. }
  assert (0 <= inject_Z Sp <= 3000000000) as [HP0 HP1].
  { split; [rewrite <-(Zle_Qle 0)|rewrite <-(Zle_Qle _ 3000000000)]; lia. }
  unfold js_gt, js_lt. rewrite !negb_true_iff, !negb_false_iff.
  rewrite <-!not_true_iff_false, !Qle_bool_iff.
  unfold unit_roundoff in *.
  repeat split; intros H.
  - assert (11 * inject_Z Sp + 1 <= 10 * inject_Z Sr) as H'.
    { change 11 with (inject_Z 11). change 10 with (inject_Z 10). change 1 with (inject_Z 1).
      rewrite <-!inject_Z_mult, <-inject_Z_plus, <-Zle_Qle. lia. }
    generalize dependent (inject_Z Sr). generalize dependent (inject_Z Sp). intros. lra.
  - assert (10 * inject_Z Sr + 1 <= 11 * inject_Z Sp) as H'.
    { change 11 with (inject_Z 11). change 10 with (inject_Z 10). change 1 with (inject_Z 1).
      rewrite <-!inject_Z_mult, <-inject_Z_plus, <-Zle_Qle. lia. }
    generalize dependent (inject_Z Sr). generalize dependent (inject_Z Sp). intros. lra.
  - assert (10 * inject_Z Sr + 1 <= 9 * inject_Z Sp) as H'.
    { change 9 with (inject_Z 9). change 10 with (inject_Z 10). change 1 with (inject_Z 1).
      rewrite <-!inject_Z_mult, <-inject_Z_plus, <-Zle_Qle. lia. }
    generalize dependent (inject_Z Sr). generalize dependent (inject_Z Sp). intros. lra.
  - assert (9 * inject_Z Sp + 1 <= 10 * inject_Z Sr) as H'.
    { change 9 with (inject_Z 9). change 10 with (inject_Z 10). change 1 with (inject_Z 1).
      rewrite <-!inject_Z_mult, <-inject_Z_plus, <-Zle_Qle. lia. }
    generalize dependent (inject_Z Sr). generalize dependent (inject_Z Sp). intros. lra.
Qed.

End TrendBounds.

(** On six naturals the comparison of the two means is the exact one, away
    from the two thresholds. *)
Lemma calculateTrend_naturals (older : list Q) (a b c x y z : Z) :
  small_natural a -> small_natural b -> small_natural c ->
  small_natural x -> small_natural y -> small_natural z ->
  let values := older ++ [inject_Z a; inject_Z b; inject_Z c;
                          inject_Z x; inject_Z y; inject_Z z] in
  ((11 * (a + b + c) < 10 * (x + y + z))%Z -> calculateTrend values = up) /\
  ((10 * (x + y + z) < 9 * (a + b + c))%Z -> calculateTrend values = down) /\
  ((9 * (a + b + c) < 10 * (x + y + z) < 11 * (a + b + c))%Z ->
     calculateTrend values = stable).
Proof.
  intros Ha Hb Hc Hx Hy Hz values. subst values. rewrite calculateTrend_six.
  destruct (trend_comparisons a b c x y z Ha Hb Hc Hx Hy Hz)
    as (Hup & Hnot_up & Hdown & Hnot_down).
  unfold small_natural in *.
  split; [|split].
  - intros H. by rewrite Hup.
  - intros H. rewrite Hnot_up by lia. by rewrite Hdown.
  - intros [H1 H2]. rewrite Hnot_up by lia. by rewrite Hnot_down.
Qed.

(** C3 (amended).  [calculateTrend] returns 'stable' for fewer than 2 points.
    On six points or more it compares, in binary64 arithmetic, the mean of the
    last three with the mean of the three before them, whatever precedes:
    'up' when it exceeds 1.1 times that mean, otherwise 'down' when it is
    below 0.9 times that mean, otherwise 'stable'.  When these six points are
    naturals up to 10^9, that is 'up' when the mean of the last three is more
    than 10% above the mean of the three before them, 'down' when it is more
    than 10% below, and 'stable' when it is less than 10% away.  It maps
    [10,10,10,10,10,10,20,20,20] to 'up', [20,20,20,10,10,10] to 'down',
    [20,20,20,10,10,10,10,10,10] to 'stable' (its last six points are level),
    and every constant sequence of six or more points that are not negative
    to 'stable'. *)
Theorem calculateTrend_spec :
  (forall values : list Q, length values < 2 -> calculateTrend values = stable) /\
  (forall (older : list Q) (a b c x y z : Q),
     calculateTrend (older ++ [a; b; c; x; y; z]) =
       if js_gt (mean3 x y z) (fmul (mean3 a b c) (fl (11 # 10))) then up
       else if js_lt (mean3 x y z) (fmul (mean3 a b c) (fl (9 # 10))) then down
       else stable) /\
  (forall (older : list Q) (a b c x y z : Z),
     small_natural a -> small_natural b -> small_natural c ->
     small_natural x -> small_natural y -> small_natural z ->
     let values := older ++ [inject_Z a; inject_Z b; inject_Z c;
                             inject_Z x; inject_Z y; inject_Z z] in
     ((11 * (a + b + c) < 10 * (x + y + z))%Z -> calculateTrend values = up) /\
     ((10 * (x + y + z) < 9 * (a + b + c))%Z -> calculateTrend values = down) /\
     ((9 * (a + b + c) < 10 * (x + y + z) < 11 * (a + b + c))%Z ->
        calculateTrend values = stable)) /\
  calculateTrend [10; 10; 10; 10; 10; 10; 20; 20; 20]%Q = up /\
  calculateTrend [20; 20; 20; 10; 10; 10]%Q = down /\
  calculateTrend [20; 20; 20; 10; 10; 10; 10; 10; 10]%Q = stable /\
  (forall (c : Q) (n : nat), (0 <= c)%Q -> 6 <= n -> calculateTrend (replicate n c) = stable).
Proof.
  split; [|split; [|split; [|split; [|split; [|split]]]]].
  - intros values Hlen. unfold calculateTrend. by destruct (decide _).
  - apply calculateTrend_six.
  - apply calculateTrend_naturals.
  - vm_compute. reflexivity.
  - vm_compute. reflexivity.
  - vm_compute. reflexivity.
  - intros c n Hc Hn.
    replace n with ((n - 6) + 6) by lia. rewrite replicate_add. simpl replicate at 2.
    rewrite calculateTrend_six.
    destruct (mean3_level c Hc) as [H0 Hrep].
    destruct (level_is_stable _ H0 Hrep) as [-> ->]. done.
Qed.

Lemma calculateTrend_spec_witness :
  calculateTrend [7]%Q = stable /\ calculateTrend (replicate 7 4%Q) = stable /\
  calculateTrend [40; 50; 60; 70; 80; 90; 60; 60; 60]%Q = down.
Proof.
  destruct calculateTrend_spec as (Hshort & _ & Hnat & _ & _ & _ & Hconst).
  split; [|split].
  - apply Hshort. simpl. lia.
  - apply Hconst; [discriminate|lia].
  - apply (Hnat [40; 50; 60]%Q 70 80 90 60 60 60)%Z; unfold small_natural; lia.
Defined.

(** C3, counterexample: the second sequence of the claim is 'stable';
    constant sequences of two points, or of negative points, are 'up'; and
    the means 50/3 and 15, of which the second is 10% below the first and
    no more, give 'down'. *)
Lemma calculateTrend_counterexample :
  calculateTrend [20; 20; 20; 10; 10; 10; 10; 10; 10]%Q = stable /\
  calculateTrend [5; 5]%Q = up /\
  calculateTrend [-5; -5; -5; -5; -5; -5]%Q = up /\
  calculateTrend [16; 17; 17; 15; 15; 15]%Q = down /\
  (10 * (15 + 15 + 15) = 9 * (16 + 17 + 17))%Z.
Proof. vm_compute. done. Qed.

(** ** Reasoning about computations *)

Lemma wp_ret {A} (a : A) Q w : Q (Ok a) w -> wp (mret a) Q w.
Proof. done. Qed.

Lemma wp_throw {A} e (Q : result A -> world -> Prop) w : Q (Throw e) w -> wp (throw e) Q w.
Proof. done. Qed.

Lemma wp_lift {A} (r : result A) Q w : Q r w -> wp (lift r) Q w.
Proof. done. Qed.

Lemma wp_bind {A B} (m : M A) (k : A -> M B) Q w :
  wp m (fun r w' => match r with
                    | Ok a => wp (k a) Q w'
                    | Throw e => Q (Throw e) w'
                    end) w ->
  wp (m ≫= k) Q w.
Proof. unfold wp, mbind, M_bind. by destruct (m w) as [[a|e] w']. Qed.

Lemma wp_try {A} (body : M A) handler Q w :
  wp body (fun r w' => match r with
                       | Ok a => Q (Ok a) w'
                       | Throw e => wp (handler e) Q w'
                       end) w ->
  wp (try_catch_io body handler) Q w.
Proof. unfold wp, try_catch_io. by destruct (body w) as [[a|e] w']. Qed.

Lemma wp_mono {A} (m : M A) (Q Q' : result A -> world -> Prop) w :
  wp m Q w -> (forall r w', Q r w' -> Q' r w') -> wp m Q' w.
Proof. unfold wp. auto. Qed.

(** A call of the store either fails or does its operation. *)
Lemma wp_kv_call {A} (op : gmap string doc -> A * gmap string doc) Q w :
  Q (Throw "kv") (set_kv w (kv w) (tail (kv_faults w))) ->
  Q (Ok (fst (op (kv w)))) (set_kv w (snd (op (kv w))) (tail (kv_faults w))) ->
  wp (kv_call op) Q w.
Proof. unfold wp, kv_call. by destruct (head (kv_faults w)) as [[]|]. Qed.

Lemma wp_get key Q w :
  Q (Throw "kv") (set_kv w (kv w) (tail (kv_faults w))) ->
  Q (Ok (kv w !! key)) (set_kv w (kv w) (tail (kv_faults w))) ->
  wp (kv_store.get key) Q w.
Proof. intros H1 H2. by apply (wp_kv_call (fun m => (m !! key, m))). Qed.

Lemma wp_set key value Q w :
  Q (Throw "kv") (set_kv w (kv w) (tail (kv_faults w))) ->
  Q (Ok tt) (set_kv w (<[key := value]> (kv w)) (tail (kv_faults w))) ->
  wp (kv_store.set key value) Q w.
Proof. intros H1 H2. by apply (wp_kv_call (fun m => (tt, <[key := value]> m))). Qed.

(** With no fault to come, a call of the store is the plain operation. *)
Lemma wp_kv_call_reliable {A} (op : gmap string doc -> A * gmap string doc) Q w :
  kv_faults w = [] ->
  Q (Ok (fst (op (kv w)))) (set_kv w (snd (op (kv w))) []) ->
  wp (kv_call op) Q w.
Proof. intros E H. unfold wp, kv_call. by rewrite E. Qed.

Lemma wp_get_reliable key Q w :
  kv_faults w = [] ->
  Q (Ok (kv w !! key)) (set_kv w (kv w) []) ->
  wp (kv_store.get key) Q w.
Proof. intros E H. by apply (wp_kv_call_reliable (fun m => (m !! key, m))). Qed.

Lemma wp_set_reliable key value Q w :
  kv_faults w = [] ->
  Q (Ok tt) (set_kv w (<[key := value]> (kv w)) []) ->
  wp (kv_store.set key value) Q w.
Proof. intros E H. by apply (wp_kv_call_reliable (fun m => (tt, <[key := value]> m))). Qed.

Lemma wp_now Q w : Q (Ok (clock w)) w -> wp Date_now Q w.
Proof. done. Qed.

Lemma wp_log msg Q w : Q (Ok tt) w -> wp (console_log msg) Q w.
Proof. done. Qed.

Lemma wp_note userId activity Q w :
  Q (Ok tt) {| kv := kv w; kv_faults := kv_faults w; clock := clock w;
               random := random w; recorded := (userId, activity) :: recorded w |} ->
  wp (note_recorded userId activity) Q w.
Proof. done. Qed.

Lemma wp_random Q w :
  (forall w', kv w' = kv w -> kv_faults w' = kv_faults w -> clock w' = clock w ->
              recorded w' = recorded w -> forall r, Q (Ok r) w') ->
  wp random_suffix Q w.
Proof.
  intros H. unfold wp, random_suffix. destruct (random w) as [|r rest] eqn:E; simpl.
  - by apply H.
  - by apply H.
Qed.

Lemma pair_eq {A B} (p : A * B) a b : fst p = a /\ snd p = b -> p = (a, b).
Proof. destruct p. simpl. by intros [-> ->]. Qed.

Ltac wp_step :=
  lazymatch goal with
  | |- wp (mbind _ _) _ _ => apply wp_bind
  | |- wp (try_catch_io _ _) _ _ => apply wp_try
  | |- wp (mret _) _ _ => apply wp_ret
  | |- wp (throw _) _ _ => apply wp_throw
  | |- wp (lift _) _ _ => apply wp_lift
  | |- wp (console_log _) _ _ => apply wp_log
  | |- wp Date_now _ _ => apply wp_now
  | |- wp (kv_store.get _) _ _ => apply wp_get
  | |- wp (kv_store.set _ _) _ _ => apply wp_set
  end.

Ltac wp_steps := repeat first [wp_step | progress (cbv beta iota) | progress simpl].

Ltac wp_step_reliable :=
  lazymatch goal with
  | |- wp (kv_store.get _) _ _ => apply wp_get_reliable; [done|]
  | |- wp (kv_store.set _ _) _ _ => apply wp_set_reliable; [done|]
  | |- wp (mbind _ _) _ _ => apply wp_bind
  | |- wp (try_catch_io _ _) _ _ => apply wp_try
  | |- wp (mret _) _ _ => apply wp_ret
  | |- wp (throw _) _ _ => apply wp_throw
  | |- wp (lift _) _ _ => apply wp_lift
  | |- wp (console_log _) _ _ => apply wp_log
  | |- wp Date_now _ _ => apply wp_now
  end.

Ltac wp_steps_reliable :=
  repeat first [wp_step_reliable | progress (cbv beta iota) | progress simpl].

Lemma wp_getProjectById userId projectId Q w :
  (forall found faults, found = None \/ found = kv w !! project_key userId projectId ->
     Q (Ok found) (set_kv w (kv w) faults)) ->
  wp (getProjectById userId projectId) Q w.
Proof. intros H. unfold getProjectById. wp_steps; auto. Qed.

Lemma wp_returns (m : M unit) (k : unit -> M unit) Q w :
  returns m -> (forall w', wp (k tt) Q w') -> wp (m ≫= k) Q w.
Proof.
  intros Hm Hk. apply wp_bind. eapply wp_mono; [apply Hm|].
  intros r w' ->. apply Hk.
Qed.

(** ** Keys of different kinds never coincide *)

Lemma project_key_prefix (userId projectId : string) :
  String.prefix ("user:" +:+ userId +:+ ":project:") (project_key userId projectId) = true.
Proof.
  apply prefix_spec. exists projectId. unfold project_key.
  by rewrite !append_assoc.
Qed.

Lemma project_key_not_analytics userId projectId projectId' :
  "user:" +:+ userId +:+ ":project_analytics:" +:+ projectId' <> project_key userId projectId.
Proof.
  unfold project_key. intros E.
  apply (inj (String.app "user:")), (inj (String.app userId)) in E. discriminate E.
Qed.

Lemma task_key_not_project userId projectId taskId :
  task_key userId taskId <> project_key userId projectId.
Proof.
  unfold project_key, task_key. intros E.
  apply (inj (String.app "user:")), (inj (String.app userId)) in E. discriminate E.
Qed.

(** ** Task updates and the recording of completions *)

Lemma findIndex_lookup (taskId : string) (tasks : list Task.t) (i : nat) :
  findIndex taskId tasks = Some i ->
  exists task, tasks !! i = Some task /\ Task.id task = taskId.
Proof.
  revert i. induction tasks as [|t rest IH]; intros i; simpl; [done|].
  destruct (String.eqb_spec (Task.id t) taskId) as [E|_].
  - intros [= <-]. by exists t.
  - destruct (findIndex taskId rest) as [j|]; [|done]. intros [= <-]. by apply IH.
Qed.

(** The test that guards the recording reads the task array after the
    assignment: it compares the new status with itself. *)
Lemma completion_test_false (old : Task.t) (updates : Task.partial)
    (taskId projectId : string) (now : Timestamp) (tasks : list Task.t) (i : nat) :
  tasks !! i = Some old ->
  bool_decide (Task.status' updates = Some t_completed)
  && negb (bool_decide
             (Task.status <$> (<[i := merge_task old updates taskId projectId now]> tasks !! i)
              = Some t_completed))
  = false.
Proof.
  intros Hi. rewrite list_lookup_insert_eq by (by eapply lookup_lt_Some).
  simpl. destruct (Task.status' updates) as [s|]; [|done].
  simpl. destruct s; done.
Qed.

Section UpdateTaskFacts.

Variable toDateString : Timestamp -> string.
Variables getHours getFullYear getMonth getDate : Timestamp -> Z.

#[local] Abbreviation updateTask' :=
  (updateTask toDateString getHours getFullYear getMonth getDate).

(** No call of [updateTask] reaches [recordActivity]. *)
Lemma updateTask_records_nothing userId projectId taskId updates w :
  recorded (snd (updateTask' userId projectId taskId updates w)) = recorded w.
Proof.
  change (wp (updateTask' userId projectId taskId updates)
            (fun _ w' => recorded w' = recorded w) w).
  unfold updateTask. wp_steps. apply wp_getProjectById. intros found faults _.
  destruct found as [d|]; wp_steps; [|done].
  destruct d; simpl; wp_steps; try done.
  destruct (findIndex taskId (Project.tasks p)) as [i|] eqn:Hi; wp_steps; [|done].
  apply findIndex_lookup in Hi as (old & Hold & _). rewrite Hold. wp_steps; try done.
  simpl. rewrite (completion_test_false _ _ _ _ _ _ _ Hold). by wp_steps.
Qed.

Lemma updateTask_result userId projectId taskId updates project i old w r :
  kv w !! project_key userId projectId = Some (DProject project) ->
  findIndex taskId (Project.tasks project) = Some i ->
  Project.tasks project !! i = Some old ->
  fst (updateTask' userId projectId taskId updates w) = Ok r ->
  let w' := snd (updateTask' userId projectId taskId updates w) in
  r = merge_task old updates taskId projectId (clock w) /\
  kv w' !! task_key userId taskId = Some (DTask r) /\
  kv w' !! project_key userId projectId
  = Some (DProject (with_tasks project (<[i := r]> (Project.tasks project)) (clock w))).
Proof.
  intros Hp Hi Hold. revert r.
  change (wp (updateTask' userId projectId taskId updates)
            (fun res w' => forall r, res = Ok r ->
               r = merge_task old updates taskId projectId (clock w) /\
               kv w' !! task_key userId taskId = Some (DTask r) /\
               kv w' !! project_key userId projectId
               = Some (DProject (with_tasks project (<[i := r]> (Project.tasks project))
                                   (clock w)))) w).
  unfold updateTask, getProjectById. wp_steps; try done.
  rewrite Hp. wp_steps. rewrite Hi, Hold. wp_steps; try done.
  rewrite (completion_test_false _ _ _ _ _ _ _ Hold). wp_steps.
  intros r [= <-]. split; [done|]. split.
  - by rewrite lookup_insert_eq.
  - rewrite lookup_insert_ne by apply task_key_not_project.
    by rewrite lookup_insert_eq.
Qed.

End UpdateTaskFacts.

(** C1, at the failing input.  The project of the sample world holds the
    pending task t1; the update [{ status: 'completed' }] returns the task as
    completed, and no activity has been recorded: the list of the calls of
    [recordActivity] is empty and no daily metrics exist. *)
Theorem updateTask_completion_not_recorded :
  let w := sample_world (sample_project [sample_task "t1" "p1" t_pending] 0) in
  let outcome := sample_updateTask "u1" "p1" "t1" complete_it w in
  Task.status <$> (Project.tasks (sample_project [sample_task "t1" "p1" t_pending] 0) !! 0%nat)
    = Some t_pending /\
  (exists task, fst outcome = Ok task /\ Task.status task = t_completed) /\
  recorded (snd outcome) = [] /\
  kv (snd outcome) !! ("user:u1:metrics:" +:+ sample_toDateString 5000%Z) = None.
Proof. vm_compute. repeat split; eauto. Qed.

(** ** Recording an activity *)

Lemma updateDailyMetrics_returns userId dayKey activity :
  returns (updateDailyMetrics userId dayKey activity).
Proof.
  intros w. unfold updateDailyMetrics. wp_steps; [done|].
  destruct (kv w !! _) as [d|]; simpl.
  - destruct d; simpl; wp_steps; try done.
    destruct (daily_switch activity m); wp_steps; done.
  - wp_steps. destruct (daily_switch activity zero_metrics); wp_steps; done.
Qed.

Lemma updateHourlyPatterns_returns userId hour activity :
  returns (updateHourlyPatterns userId hour activity).
Proof.
  intros w. unfold updateHourlyPatterns. wp_steps; [done|].
  destruct (kv w !! _) as [d|]; simpl.
  - destruct d; simpl; wp_steps; done.
  - wp_steps; done.
Qed.

(** [updatePeriodMetric] has no handler of its own: it may throw. *)
Lemma updatePeriodMetric_outcome userId period key activity w :
  wp (updatePeriodMetric userId period key activity)
     (fun r _ => match r with Ok a => a = tt | Throw _ => True end) w.
Proof.
  unfold updatePeriodMetric. wp_steps; [done|].
  destruct (kv _ !! _) as [d|]; simpl.
  - destruct d; simpl; wp_steps; try done.
    destruct (period_switch activity m); wp_steps; done.
  - wp_steps. destruct (period_switch activity zero_metrics); wp_steps; done.
Qed.

Section RecordActivityFacts.

Variable toDateString : Timestamp -> string.
Variables getHours getFullYear getMonth getDate : Timestamp -> Z.

Lemma updatePeriodMetrics_returns userId date activity :
  returns (updatePeriodMetrics getFullYear getMonth getDate userId date activity).
Proof.
  intros w. unfold updatePeriodMetrics. wp_steps.
  eapply wp_mono; [apply updatePeriodMetric_outcome|]. intros [[]|e] w' _.
  - eapply wp_mono; [apply updatePeriodMetric_outcome|]. intros [[]|e] w'' _; by wp_steps.
  - by wp_steps.
Qed.

(** C9.  For every user, every activity (whatever its metadata, and with a
    missing, malformed or valid timestamp) and every world (whatever the
    store holds and whichever of its calls fail), [recordActivity] returns
    normally: nothing that is thrown inside reaches the caller. *)
Theorem recordActivity_never_throws userId activity w :
  fst (recordActivity toDateString getHours getFullYear getMonth getDate userId activity w)
  = Ok tt.
Proof.
  change (wp (recordActivity toDateString getHours getFullYear getMonth getDate
                userId activity)
            (fun r _ => r = Ok tt) w).
  unfold recordActivity. apply wp_bind, wp_note. cbv beta iota.
  apply wp_try, wp_bind, wp_now. cbv beta iota.
  apply wp_returns; [apply updateDailyMetrics_returns|]. intros w1.
  apply wp_returns; [apply updateHourlyPatterns_returns|]. intros w2.
  eapply wp_mono; [apply updatePeriodMetrics_returns|]. by intros r w3 ->.
Qed.

End RecordActivityFacts.

(** The two switches agree on the types that the period switch handles. *)
Lemma period_switch_agrees (activity : Activity) (metrics : ProductivityMetrics) :
  a_type activity = task_complete \/ a_type activity = capture
  \/ a_type activity = integration_sync ->
  period_switch activity metrics = daily_switch activity metrics.
Proof. unfold period_switch, daily_switch. by intros [->|[->| ->]]. Qed.

(** C4, at the failing input.  A meeting of 30 minutes is recorded in an empty
    store: the daily bucket has a [meetingTime] of 30, the weekly and the
    monthly bucket are written with a [meetingTime] of 0. *)
Theorem period_metrics_miss_meeting :
  let w' := snd (sample_recordActivity "u1" meeting_30 empty_world) in
  daily_switch meeting_30 zero_metrics = Ok (with_meetingTime 30) /\
  period_switch meeting_30 zero_metrics = Ok (with_meetingTime 0) /\
  kv w' !! "user:u1:metrics:day 0" = Some (DMetrics (with_meetingTime 30)) /\
  kv w' !! "user:u1:metrics:weekly:2024-0-W1" = Some (DMetrics (with_meetingTime 0)) /\
  kv w' !! "user:u1:metrics:monthly:2024-0" = Some (DMetrics (with_meetingTime 0)).
Proof. vm_compute. repeat split. Qed.

(** ** Archiving a project *)

(** C8 (amended).  For a project that the store holds, [deleteProject] never
    removes the record, whichever calls of the store fail: afterwards the
    store holds it unchanged or archived.  When [deleteProject] reports
    success the record is archived, and with a reliable store it does; the
    archived record is then what [getProjectById] returns and is in the
    listing of [getUserProjects].  The archived record has the status
    'archived' and the time of the call as [updated]; every other field is as
    before. *)
Theorem deleteProject_archives userId projectId project w :
  kv w !! project_key userId projectId = Some (DProject project) ->
  let key := project_key userId projectId in
  let kept := archived project (clock w) in
  let w' := snd (deleteProject userId projectId w) in
  (kv w' !! key = Some (DProject project) \/ kv w' !! key = Some (DProject kept)) /\
  (fst (deleteProject userId projectId w) = Ok true -> kv w' !! key = Some (DProject kept)) /\
  (kv_faults w = [] ->
     fst (deleteProject userId projectId w) = Ok true /\
     getProjectById userId projectId w' = (Ok (Some (DProject kept)), w') /\
     exists listed, getUserProjects userId w' = (Ok listed, w') /\ DProject kept ∈ listed) /\
  Project.status kept = p_archived /\
  kept = {| Project.id := Project.id project; Project.userId := Project.userId project;
            Project.name := Project.name project;
            Project.description := Project.description project;
            Project.status := p_archived; Project.priority := Project.priority project;
            Project.progress := Project.progress project;
            Project.tasks := Project.tasks project; Project.team := Project.team project;
            Project.deadline := Project.deadline project;
            Project.created := Project.created project; Project.updated := clock w;
            Project.tags := Project.tags project;
            Project.metadata := Project.metadata project |}.
Proof.
  intros Hp key kept w'. split; [|split; [|split; [|done]]].
  - subst w'.
    change (wp (deleteProject userId projectId)
              (fun _ w' => kv w' !! key = Some (DProject project)
                           \/ kv w' !! key = Some (DProject kept)) w).
    unfold deleteProject, getProjectById. wp_steps; simpl; auto.
    rewrite Hp. wp_steps; simpl; auto.
    right. apply lookup_insert_eq.
  - subst w'.
    change (wp (deleteProject userId projectId)
              (fun r w' => r = Ok true -> kv w' !! key = Some (DProject kept)) w).
    unfold deleteProject, getProjectById. wp_steps; simpl; try done.
    rewrite Hp. wp_steps; simpl; try done.
    intros _. apply lookup_insert_eq.
  - intros Hrel.
    assert (deleteProject userId projectId w
            = (Ok true, set_kv w (<[key := DProject kept]> (kv w)) [])) as Hdel.
    { apply (pair_eq (deleteProject userId projectId w)).
      change (wp (deleteProject userId projectId)
                (fun r w' => r = Ok true
                             /\ w' = set_kv w (<[key := DProject kept]> (kv w)) []) w).
      unfold deleteProject, getProjectById. wp_steps_reliable.
      rewrite Hp. by wp_steps_reliable. }
    subst w'. rewrite Hdel. simpl. split; [done|]. split.
    + apply pair_eq.
      change (wp (getProjectById userId projectId)
                (fun r w' => r = Ok (Some (DProject kept))
                             /\ w' = set_kv w (<[key := DProject kept]> (kv w)) [])
                (set_kv w (<[key := DProject kept]> (kv w)) [])).
      unfold getProjectById. wp_steps_reliable. by rewrite lookup_insert_eq.
    + eexists. split.
      * apply pair_eq.
        unfold getUserProjects, try_catch_io, kv_store.getByPrefix, mbind, M_bind, kv_call.
        simpl. split; reflexivity.
      * rewrite merge_sort_Permutation. apply list_elem_of_fmap.
        exists (key, DProject kept). split; [done|].
        apply list_elem_of_filter. split; [apply project_key_prefix|].
        apply elem_of_map_to_list. apply lookup_insert_eq.
Qed.

Lemma deleteProject_archives_witness :
  let project := sample_project [sample_task "t1" "p1" t_pending] 0 in
  let w' := snd (deleteProject "u1" "p1" (sample_world project)) in
  kv w' !! project_key "u1" "p1" = Some (DProject (archived project 5000%Z)).
Proof.
  intros project w'.
  destruct (deleteProject_archives "u1" "p1" project (sample_world project)) as (_ & H & _).
  { apply lookup_singleton_eq. }
  apply H. vm_compute. reflexivity.
Defined.

(** C8, counterexample: the archived project that [getProjectById] returns
    has a new [updated], so not every field other than the status is intact. *)
Lemma deleteProject_counterexample :
  let project := sample_project [sample_task "t1" "p1" t_pending] 0 in
  let w' := snd (deleteProject "u1" "p1" (sample_world project)) in
  exists kept, fst (getProjectById "u1" "p1" w') = Ok (Some (DProject kept)) /\
               Project.status kept = p_archived /\
               Project.updated project = 1000%Z /\ Project.updated kept = 5000%Z.
Proof. vm_compute. eexists. repeat split. Qed.

(** ** The progress of a project *)

Lemma store_consistent_insert_project m key p :
  progress_consistent p -> store_consistent m ->
  store_consistent (<[key := DProject p]> m).
Proof.
  intros Hp Hm key' p'. destruct (decide (key = key')) as [->|Hne].
  - rewrite lookup_insert_eq. by intros [= <-].
  - rewrite lookup_insert_ne by done. apply Hm.
Qed.

Lemma store_consistent_insert_other m key d :
  (forall p, d <> DProject p) -> store_consistent m ->
  store_consistent (<[key := d]> m).
Proof.
  intros Hd Hm key' p'. destruct (decide (key = key')) as [->|Hne].
  - rewrite lookup_insert_eq. intros [= ->]. by destruct (Hd p').
  - rewrite lookup_insert_ne by done. apply Hm.
Qed.

Lemma updateProjectAnalytics_consistent userId projectId action w :
  store_consistent (kv w) ->
  wp (updateProjectAnalytics userId projectId action)
     (fun r w' => r = Ok tt /\ store_consistent (kv w')) w.
Proof.
  intros Hw. unfold updateProjectAnalytics. wp_steps; [done|].
  destruct (kv w !! _) as [d|]; wp_steps.
  - destruct d; wp_steps; try done.
    split; [done|]. by apply store_consistent_insert_other.
  - done.
  - split; [done|]. by apply store_consistent_insert_other.
Qed.

Lemma updateProjectAnalytics_frame userId projectId action key w :
  key <> "user:" +:+ userId +:+ ":project_analytics:" +:+ projectId ->
  wp (updateProjectAnalytics userId projectId action)
     (fun r w' => r = Ok tt /\ kv w' !! key = kv w !! key) w.
Proof.
  intros Hne. unfold updateProjectAnalytics. wp_steps; [done|].
  destruct (kv w !! ("user:" +:+ _)) as [d|]; wp_steps.
  - destruct d; wp_steps; try done.
    split; [done|]. by rewrite lookup_insert_ne.
  - done.
  - split; [done|]. by rewrite lookup_insert_ne.
Qed.

Lemma createProject_consistent userId projectData w :
  store_consistent (kv w) ->
  store_consistent (kv (snd (createProject userId projectData w))).
Proof.
  intros Hw.
  change (wp (createProject userId projectData) (fun _ w' => store_consistent (kv w')) w).
  unfold createProject. wp_steps. apply wp_random. intros w1 E1 _ _ _ suffix.
  wp_steps; rewrite ?E1; [done|].
  eapply wp_mono.
  { apply updateProjectAnalytics_consistent. simpl.
    by apply store_consistent_insert_project. }
  intros r w2 [-> H2]. by wp_steps.
Qed.

Lemma updateProject_consistent userId projectId updates w :
  is_Some (Project.tasks' updates) \/ Project.progress' updates = None ->
  store_consistent (kv w) ->
  store_consistent (kv (snd (updateProject userId projectId updates w))).
Proof.
  intros Hu Hw.
  change (wp (updateProject userId projectId updates)
            (fun _ w' => store_consistent (kv w')) w).
  unfold updateProject. wp_steps; [done|].
  destruct (kv w !! _) as [d|] eqn:Hd; wp_steps; [|done].
  destruct d as [existing| | | |]; wp_steps; try done.
  eapply wp_mono.
  { apply updateProjectAnalytics_consistent. simpl.
    apply store_consistent_insert_project; [|done].
    destruct (Project.tasks' updates) as [ts|] eqn:Ht.
    { unfold progress_consistent. simpl. by rewrite Ht. }
    destruct Hu as [[? [=]]|Hnone]. unfold progress_consistent. simpl.
    rewrite Hnone, Ht. simpl. by apply (Hw _ _ Hd). }
  intros r w2 [-> H2]. by wp_steps.
Qed.

Lemma updateProject_result userId projectId updates existing w r :
  kv w !! project_key userId projectId = Some (DProject existing) ->
  fst (updateProject userId projectId updates w) = Ok r ->
  r = updated_project existing updates projectId userId (clock w) /\
  kv (snd (updateProject userId projectId updates w)) !! project_key userId projectId
  = Some (DProject r).
Proof.
  intros Hp. revert r.
  change (wp (updateProject userId projectId updates)
            (fun res w' => forall r, res = Ok r ->
               r = updated_project existing updates projectId userId (clock w) /\
               kv w' !! project_key userId projectId = Some (DProject r)) w).
  unfold updateProject. wp_steps; [done|]. rewrite Hp. wp_steps; [done|].
  eapply wp_mono.
  { apply (updateProjectAnalytics_frame _ _ _ (project_key userId projectId)).
    intros E. symmetry in E. by apply project_key_not_analytics in E. }
  intros res w2 [-> H2]. wp_steps. intros r [= <-]. split; [done|].
  rewrite H2. simpl. by rewrite lookup_insert_eq.
Qed.

Lemma createTask_consistent userId projectId taskData w :
  store_consistent (kv w) ->
  store_consistent (kv (snd (createTask userId projectId taskData w))).
Proof.
  intros Hw.
  change (wp (createTask userId projectId taskData) (fun _ w' => store_consistent (kv w')) w).
  unfold createTask. wp_steps. apply wp_getProjectById. intros found faults _.
  destruct found as [d|]; wp_steps; [|done].
  destruct d; wp_steps; try done.
  apply wp_random. intros w1 E1 _ _ _ suffix. simpl in E1.
  wp_steps; rewrite ?E1; try done.
  - by apply store_consistent_insert_project.
  - apply store_consistent_insert_other; [done|].
    by apply store_consistent_insert_project.
Qed.

(** In binary64 arithmetic the percentage is the exactly rounded one for
    every project of fewer than 40 tasks. *)
Lemma percent_exact_table :
  forallb (fun n => forallb (fun c => Z.eqb (percent c n) (exact_percent c n)) (seq 0 (S n)))
          (seq 1 39) = true.
Proof. vm_compute. reflexivity. Qed.

Lemma percent_exact (c n : nat) :
  c <= n -> 0 < n < 40 -> percent c n = exact_percent c n.
Proof.
  intros Hc Hn. pose proof percent_exact_table as H.
  rewrite forallb_forall in H. specialize (H n).
  rewrite forallb_forall in H. apply Z.eqb_eq, H; apply in_seq; lia.
Qed.

Section PercentBounds.
Local Open Scope Q_scope.

(** [Math.round((c / n) * 100)] is 100 c / n rounded exactly, unless 100 c / n
    lies exactly halfway between two integers. *)
Lemma percent_exact_off_ties (c n : nat) :
  (c <= n)%nat -> (0 < n)%nat -> (Z.of_nat n <= 1000000000)%Z ->
  ((200 * Z.of_nat c + Z.of_nat n) mod (2 * Z.of_nat n) <> 0)%Z ->
  percent c n = exact_percent c n.
Proof.
  intros Hc Hn Hn' Htie. unfold percent, exact_percent, Math_round, fmul, fdiv.
  set (C := Z.of_nat c) in *. set (N := Z.of_nat n) in *.
  assert (0 <= C <= N)%Z as HC by lia. assert (0 < N <= 1000000000)%Z as HN by lia.
  clearbody C N. clear Hc Hn Hn' c n.
  set (e := ((200 * C + N) / (2 * N))%Z).
  pose proof (Z.div_mod (200 * C + N) (2 * N) ltac:(lia)) as Hdiv.
  pose proof (Z.mod_pos_bound (200 * C + N) (2 * N) ltac:(lia)) as Hmod.
  fold e in Hdiv. set (r := ((200 * C + N) mod (2 * N))%Z) in *.
  assert (1 <= r <= 2 * N - 1)%Z as Hr by lia. clear Hmod Htie.
  assert (0 < inject_Z N) as HN0 by (rewrite <-(Zlt_Qlt 0); lia).
  assert (inject_Z N <= 1000000000) as HN1 by (rewrite <-(Zle_Qle _ 1000000000); lia).
  assert (0 <= inject_Z C) as HC0 by (rewrite <-(Zle_Qle 0); lia).
  assert (inject_Z C <= inject_Z N) as HC1 by (rewrite <-Zle_Qle; lia).
  set (q := inject_Z C / inject_Z N).
  set (m := 1 / (2 * inject_Z N)).
  assert (0 <= q) as Hq0 by (apply Qle_shift_div_l; lra).
  assert (q <= 1) as Hq1 by (apply Qle_shift_div_r; lra).
  assert (1 # 2000000000 <= m) as Hm.
  { unfold m. apply Qle_shift_div_l; lra. }
  assert (200 * inject_Z C + inject_Z N == 2 * inject_Z N * inject_Z e + inject_Z r) as Hdiv'.
  { change 200 with (inject_Z 200). change 2 with (inject_Z 2).
    rewrite <-!inject_Z_mult, <-!inject_Z_plus. by rewrite Hdiv. }
  assert (1 <= inject_Z r) as Hr1 by (rewrite <-(Zle_Qle 1); lia).
  assert (inject_Z r <= 2 * inject_Z N - 1) as Hr2.
  { change 2 with (inject_Z 2). change 1 with (inject_Z 1).
    rewrite <-inject_Z_mult. unfold Qminus. rewrite <-inject_Z_opp, <-inject_Z_plus.
    rewrite <-Zle_Qle. lia. }
  assert (100 * q + (1 # 2) == inject_Z e + inject_Z r * m) as Hexact.
  { unfold q, m. 
    assert (100 * (inject_Z C / inject_Z N) + (1 # 2)
            == (200 * inject_Z C + inject_Z N) / (2 * inject_Z N)) as -> by (field; lra).
    rewrite Hdiv'. field. lra. }
  assert (m <= inject_Z r * m) as Hrm1.
  { rewrite <-(Qmult_1_l m) at 1. apply Qmult_le_compat_r; lra. }
  assert (inject_Z r * m <= 1 - m) as Hrm2.
  { assert (1 - m == (2 * inject_Z N - 1) * m) as -> by (unfold m; field; lra).
    apply Qmult_le_compat_r; lra. }
  assert (q == 0 \/ pow2 (-1022) <= q) as Hnormal.
  { destruct (Z.eq_dec C 0%Z) as [->|Hne]; [left; unfold q; reflexivity|right].
    apply normal_small. unfold q. apply Qle_shift_div_l; [done|].
    assert (1 <= inject_Z C) by (rewrite <-(Zle_Qle 1); lia). lra. }
  destruct (fl_relative_nonneg q Hnormal) as [Hd Hd']. fold q.
  set (d := fl q) in *.
  assert (d * 100 == 0 \/ pow2 (-1022) <= d * 100) as Hnormal'.
  { destruct Hnormal as [E|Hq]; [left|right].
    - unfold d. rewrite (fl_zero q E). reflexivity.
    - assert (1 # 1000000000 <= q).
      { unfold q. apply Qle_shift_div_l; [done|].
        destruct (Z.eq_dec C 0%Z) as [->|Hne].
        - exfalso. change (inject_Z 0 / inject_Z N) with (0 / inject_Z N) in q.
          assert (q == 0) as E by (unfold q; field; lra).
          pose proof (pow2_pos (-1022)). lra.
        - assert (1 <= inject_Z C) by (rewrite <-(Zle_Qle 1); lia). lra. }
      apply normal_small. unfold unit_roundoff in *. lra. }
  destruct (fl_relative_nonneg _ Hnormal') as [Hy Hy'].
  set (y := fl (d * 100)) in *.
  unfold unit_roundoff in *.
  apply Qfloor_unique;
    generalize dependent (inject_Z e); generalize dependent (inject_Z r);
    clearbody q m d y; intros; lra.
Qed.

End PercentBounds.

Section ProgressFacts.

Variable toDateString : Timestamp -> string.
Variables getHours getFullYear getMonth getDate : Timestamp -> Z.

#[local] Abbreviation updateTask' :=
  (updateTask toDateString getHours getFullYear getMonth getDate).

Lemma updateTask_consistent userId projectId taskId updates w :
  store_consistent (kv w) ->
  store_consistent (kv (snd (updateTask' userId projectId taskId updates w))).
Proof.
  intros Hw.
  change (wp (updateTask' userId projectId taskId updates)
            (fun _ w' => store_consistent (kv w')) w).
  unfold updateTask. wp_steps. apply wp_getProjectById. intros found faults _.
  destruct found as [d|]; wp_steps; [|done].
  destruct d; wp_steps; try done.
  destruct (findIndex taskId (Project.tasks p)) as [i|] eqn:Hi; wp_steps; [|done].
  apply findIndex_lookup in Hi as (old & Hold & _). rewrite Hold. wp_steps; try done.
  - by apply store_consistent_insert_project.
  - rewrite (completion_test_false _ _ _ _ _ _ _ Hold). wp_steps.
    apply store_consistent_insert_other; [done|].
    by apply store_consistent_insert_project.
Qed.

(** C5 (amended).  Call a project consistent when its progress is
    [calculateProgress] of its tasks: 0 without tasks, and otherwise
    [Math.round((completed / total) * 100)] in binary64 arithmetic, which is
    100 * completed / total rounded exactly for fewer than 40 tasks, and for
    up to 10^9 tasks unless 100 * completed / total lies exactly halfway
    between two integers.  If every
    project of the store is consistent, then so is every project of the store
    after [createProject], [createTask] and [updateTask], and after
    [updateProject] when the updates carry a tasks array or carry no progress.
    An [updateProject] that carries a tasks array stores, whatever the
    progress before and in the updates, that array and its progress. *)
Theorem progress_invariant userId projectId taskId projectData taskData taskUpdates
    updates w :
  (store_consistent (kv w) ->
     store_consistent (kv (snd (createProject userId projectData w))) /\
     store_consistent (kv (snd (createTask userId projectId taskData w))) /\
     store_consistent (kv (snd (updateTask' userId projectId taskId taskUpdates w))) /\
     (is_Some (Project.tasks' updates) \/ Project.progress' updates = None ->
        store_consistent (kv (snd (updateProject userId projectId updates w))))) /\
  (forall tasks existing r,
     Project.tasks' updates = Some tasks ->
     kv w !! project_key userId projectId = Some (DProject existing) ->
     fst (updateProject userId projectId updates w) = Ok r ->
     Project.tasks r = tasks /\ Project.progress r = calculateProgress tasks /\
     kv (snd (updateProject userId projectId updates w)) !! project_key userId projectId
     = Some (DProject r)) /\
  calculateProgress [] = 0%Q /\
  (forall tasks, tasks <> [] ->
     calculateProgress tasks
     = inject_Z (percent (completed_count tasks) (length tasks))) /\
  (forall tasks, 0 < length tasks < 40 ->
     calculateProgress tasks
     = inject_Z (exact_percent (completed_count tasks) (length tasks))) /\
  (forall tasks, tasks <> [] -> (Z.of_nat (length tasks) <= 1000000000)%Z ->
     ~ halfway (completed_count tasks) (length tasks) ->
     calculateProgress tasks
     = inject_Z (exact_percent (completed_count tasks) (length tasks))).
Proof.
  split; [|split; [|split; [|split; [|split]]]].
  - intros Hw. split; [|split; [|split]].
    + by apply createProject_consistent.
    + by apply createTask_consistent.
    + by apply updateTask_consistent.
    + intros Hu. by apply updateProject_consistent.
  - intros tasks existing r Ht Hp Hr.
    destruct (updateProject_result _ _ _ _ _ _ Hp Hr) as [-> Hst].
    split; [|split]; [| |done]; unfold updated_project; rewrite Ht; simpl; by rewrite Ht.
  - done.
  - intros tasks Hne. unfold calculateProgress.
    destruct (decide _) as [E|_]; [by destruct tasks|done].
  - intros tasks Hlen. unfold calculateProgress.
    destruct (decide _) as [E|_]; [lia|].
    fold (completed_count tasks). fold (percent (completed_count tasks) (length tasks)).
    rewrite percent_exact; [done| |done].
    unfold completed_count. apply length_filter.
  - intros tasks Hne Hlen Htie. unfold calculateProgress.
    destruct (decide _) as [E|_]; [by destruct tasks|].
    fold (completed_count tasks). fold (percent (completed_count tasks) (length tasks)).
    rewrite percent_exact_off_ties; [done| | |done|done].
    + unfold completed_count. apply length_filter.
    + destruct tasks; [done|simpl; lia].
Qed.

End ProgressFacts.

Lemma sample_world_consistent project :
  progress_consistent project -> store_consistent (kv (sample_world project)).
Proof.
  intros Hp key p. simpl. intros [_ [= <-]]%lookup_singleton_Some. done.
Qed.

Lemma progress_invariant_witness :
  let w := sample_world (sample_project [sample_task "t1" "p1" t_pending] 0) in
  store_consistent (kv w) /\
  store_consistent
    (kv (snd (updateProject "u1" "p1" (set_tasks [sample_task "t2" "p1" t_completed]) w))).
Proof.
  assert (store_consistent
            (kv (sample_world (sample_project [sample_task "t1" "p1" t_pending] 0)))) as Hw.
  { apply sample_world_consistent. vm_compute. reflexivity. }
  split; [exact Hw|].
  apply (proj1 (progress_invariant sample_toDateString sample_getHours sample_getFullYear
                  sample_getMonth sample_getDate "u1" "p1" "t1" Project.no_updates
                  Task.no_updates Task.no_updates
                  (set_tasks [sample_task "t2" "p1" t_completed]) _) Hw).
  left. by eexists.
Defined.

(** C5, counterexample: the update [{ progress: 50 }] of a project without
    tasks stores a progress of 50, not 0; and a project of 40 tasks with 23
    completed ones has the progress 57, while 100 * 23 / 40 = 57.5 rounds
    to 58. *)
Lemma progress_counterexample :
  let before := sample_project [] 0 in
  let w' := snd (updateProject "u1" "p1" (set_progress 50) (sample_world before)) in
  Project.progress before = calculateProgress (Project.tasks before) /\
  (exists after, kv w' !! project_key "u1" "p1" = Some (DProject after) /\
                 Project.tasks after = [] /\ Project.progress after = 50%Q) /\
  calculateProgress forty_tasks = 57%Q /\
  exact_percent (completed_count forty_tasks) (length forty_tasks) = 58%Z.
Proof. vm_compute. repeat split. eexists. repeat split. Qed.

(** ** The identity of updated records *)

Section IdentityFacts.

Variable toDateString : Timestamp -> string.
Variables getHours getFullYear getMonth getDate : Timestamp -> Z.

#[local] Abbreviation updateTask' :=
  (updateTask toDateString getHours getFullYear getMonth getDate).

(** C10 (amended).  A successful [updateProject] returns and stores a project
    whose id and userId are those of the call (the key under which the record
    was found), whatever the updates say: they are the previous ones whenever
    the record was stored under its own id and user.  Its [updated] is the
    time of the call, its progress is recomputed from the new tasks when the
    updates carry a tasks array, and every other field is the supplied one, or
    the previous one when none is supplied.  A successful [updateTask]
    returns and stores a task with the id of the task found and the projectId
    of the call, which is the previous one whenever the task named the project
    that holds it; its [updated] is the time of the call and every other field
    is the supplied one, or the previous one when none is supplied. *)
Theorem update_keeps_identity userId projectId taskId w :
  (forall updates existing r,
     kv w !! project_key userId projectId = Some (DProject existing) ->
     fst (updateProject userId projectId updates w) = Ok r ->
     Project.id r = projectId /\ Project.userId r = userId /\
     (Project.id existing = projectId -> Project.id r = Project.id existing) /\
     (Project.userId existing = userId -> Project.userId r = Project.userId existing) /\
     Project.updated r = clock w /\
     Project.progress r =
       match Project.tasks' updates with
       | Some tasks => calculateProgress tasks
       | None => default (Project.progress existing) (Project.progress' updates)
       end /\
     Project.name r = default (Project.name existing) (Project.name' updates) /\
     Project.description r
       = default (Project.description existing) (Project.description' updates) /\
     Project.status r = default (Project.status existing) (Project.status' updates) /\
     Project.priority r = default (Project.priority existing) (Project.priority' updates) /\
     Project.tasks r = default (Project.tasks existing) (Project.tasks' updates) /\
     Project.team r = default (Project.team existing) (Project.team' updates) /\
     Project.deadline r = or_else (Project.deadline' updates) (Project.deadline existing) /\
     Project.created r = default (Project.created existing) (Project.created' updates) /\
     Project.tags r = default (Project.tags existing) (Project.tags' updates) /\
     Project.metadata r = default (Project.metadata existing) (Project.metadata' updates) /\
     kv (snd (updateProject userId projectId updates w)) !! project_key userId projectId
     = Some (DProject r)) /\
  (forall updates project i old r,
     kv w !! project_key userId projectId = Some (DProject project) ->
     findIndex taskId (Project.tasks project) = Some i ->
     Project.tasks project !! i = Some old ->
     fst (updateTask' userId projectId taskId updates w) = Ok r ->
     Task.id r = Task.id old /\ Task.projectId r = projectId /\
     (Task.projectId old = projectId -> Task.projectId r = Task.projectId old) /\
     Task.updated r = clock w /\
     Task.title r = default (Task.title old) (Task.title' updates) /\
     Task.description r = or_else (Task.description' updates) (Task.description old) /\
     Task.status r = default (Task.status old) (Task.status' updates) /\
     Task.priority r = default (Task.priority old) (Task.priority' updates) /\
     Task.assignee r = or_else (Task.assignee' updates) (Task.assignee old) /\
     Task.due_date r = or_else (Task.due_date' updates) (Task.due_date old) /\
     Task.created r = default (Task.created old) (Task.created' updates) /\
     Task.estimatedHours r
       = or_else (Task.estimatedHours' updates) (Task.estimatedHours old) /\
     Task.actualHours r = or_else (Task.actualHours' updates) (Task.actualHours old) /\
     Task.dependencies r = default (Task.dependencies old) (Task.dependencies' updates) /\
     Task.tags r = default (Task.tags old) (Task.tags' updates) /\
     kv (snd (updateTask' userId projectId taskId updates w)) !! task_key userId taskId
     = Some (DTask r)).
Proof.
  split.
  - intros updates existing r Hp Hr.
    destruct (updateProject_result _ _ _ _ _ _ Hp Hr) as [-> Hst].
    unfold updated_project in *.
    destruct (Project.tasks' updates) as [ts|] eqn:Ht; simpl in *; rewrite ?Ht in *;
      simpl in *; repeat split; try done; try (intros <-; done);
      by destruct (Project.deadline' updates).
  - intros updates project i old r Hp Hi Hold Hr.
    destruct (updateTask_result toDateString getHours getFullYear getMonth getDate
                _ _ _ _ _ _ _ _ _ Hp Hi Hold Hr) as (-> & Hst & _).
    destruct (findIndex_lookup _ _ _ Hi) as (old' & Hold' & Hid).
    assert (old' = old) as -> by congruence.
    simpl. repeat split; try done.
Qed.

End IdentityFacts.

Lemma update_keeps_identity_witness :
  let project := sample_project [sample_task "t1" "p1" t_pending] 0 in
  let w := sample_world project in
  (exists r, fst (updateProject "u1" "p1" (set_progress 10) w) = Ok r /\
             Project.id r = Project.id project /\ Project.userId r = Project.userId project) /\
  (exists r, fst (sample_updateTask "u1" "p1" "t1" complete_it w) = Ok r /\
             Task.id r = "t1" /\ Task.projectId r = "p1").
Proof.
  intros project w.
  destruct (update_keeps_identity sample_toDateString sample_getHours sample_getFullYear
              sample_getMonth sample_getDate "u1" "p1" "t1" w) as [Hp Ht].
  split.
  - eexists. split; [vm_compute; reflexivity|].
    edestruct (Hp (set_progress 10) project) as (_ & _ & H1 & H2 & _);
      [apply lookup_singleton_eq|vm_compute; reflexivity|].
    split; [by apply H1|by apply H2].
  - eexists. split; [vm_compute; reflexivity|].
    edestruct (Ht complete_it project 0%nat (sample_task "t1" "p1" t_pending))
      as (H1 & H2 & _);
      [apply lookup_singleton_eq|reflexivity|reflexivity|vm_compute; reflexivity|].
    split; [exact H1|exact H2].
Defined.

(** C10, counterexample: a new task array changes the progress of the project
    from 0 to 100 although the update carries no progress; and the task that
    the project then holds, which names project p2, names p1 after an
    [updateTask] without updates. *)
Lemma update_identity_counterexample :
  Project.progress' (set_tasks [sample_task "t1" "p2" t_completed]) = None /\
  Project.progress (sample_project [sample_task "t1" "p1" t_pending] 0) = 0%Q /\
  (exists after, kv foreign_task_world !! project_key "u1" "p1" = Some (DProject after) /\
                 Project.progress after = 100%Q /\
                 Task.projectId <$> Project.tasks after = ["p2"]) /\
  (exists task, fst (sample_updateTask "u1" "p1" "t1" Task.no_updates foreign_task_world)
                = Ok task /\
                Task.projectId task = "p1").
Proof. vm_compute. repeat split; eexists; repeat split. Qed.

(** ** Operations on a project that the store does not hold *)

Section MissingProject.

Variable toDateString : Timestamp -> string.
Variables getHours getFullYear getMonth getDate : Timestamp -> Z.
Variable Date_parse : string -> option Timestamp.

(** X1.  When the store holds nothing under the key of the project,
    [updateProject], [createTask], [updateTask] and [getProjectInsights] throw
    their own 'Failed to ...' error and [deleteProject] answers false,
    whichever calls of the store fail; none of them writes to the store. *)
Theorem missing_project_fails userId projectId updates taskData taskId taskUpdates w :
  kv w !! project_key userId projectId = None ->
  (fst (updateProject userId projectId updates w) = Throw "Failed to update project" /\
   kv (snd (updateProject userId projectId updates w)) = kv w) /\
  (fst (createTask userId projectId taskData w) = Throw "Failed to create task" /\
   kv (snd (createTask userId projectId taskData w)) = kv w) /\
  (fst (updateTask toDateString getHours getFullYear getMonth getDate
          userId projectId taskId taskUpdates w) = Throw "Failed to update task" /\
   kv (snd (updateTask toDateString getHours getFullYear getMonth getDate
              userId projectId taskId taskUpdates w)) = kv w) /\
  (fst (getProjectInsights Date_parse userId projectId w)
   = Throw "Failed to generate project insights" /\
   kv (snd (getProjectInsights Date_parse userId projectId w)) = kv w) /\
  (fst (deleteProject userId projectId w) = Ok false /\
   kv (snd (deleteProject userId projectId w)) = kv w).
Proof.
  intros Hp. repeat split.
  - change (wp (updateProject userId projectId updates)
              (fun r _ => r = Throw "Failed to update project") w).
    unfold updateProject. wp_steps; [done|]. rewrite Hp. by wp_steps.
  - change (wp (updateProject userId projectId updates) (fun _ w' => kv w' = kv w) w).
    unfold updateProject. wp_steps; [done|]. rewrite Hp. by wp_steps.
  - change (wp (createTask userId projectId taskData)
              (fun r _ => r = Throw "Failed to create task") w).
    unfold createTask. wp_steps. apply wp_getProjectById. intros found faults [->| ->];
      rewrite ?Hp; by wp_steps.
  - change (wp (createTask userId projectId taskData) (fun _ w' => kv w' = kv w) w).
    unfold createTask. wp_steps. apply wp_getProjectById. intros found faults [->| ->];
      rewrite ?Hp; by wp_steps.
  - change (wp (updateTask toDateString getHours getFullYear getMonth getDate
                  userId projectId taskId taskUpdates)
              (fun r _ => r = Throw "Failed to update task") w).
    unfold updateTask. wp_steps. apply wp_getProjectById. intros found faults [->| ->];
      rewrite ?Hp; by wp_steps.
  - change (wp (updateTask toDateString getHours getFullYear getMonth getDate
                  userId projectId taskId taskUpdates)
              (fun _ w' => kv w' = kv w) w).
    unfold updateTask. wp_steps. apply wp_getProjectById. intros found faults [->| ->];
      rewrite ?Hp; by wp_steps.
  - change (wp (getProjectInsights Date_parse userId projectId)
              (fun r _ => r = Throw "Failed to generate project insights") w).
    unfold getProjectInsights. wp_steps. apply wp_getProjectById.
    intros found faults [->| ->]; rewrite ?Hp; by wp_steps.
  - change (wp (getProjectInsights Date_parse userId projectId)
              (fun _ w' => kv w' = kv w) w).
    unfold getProjectInsights. wp_steps. apply wp_getProjectById.
    intros found faults [->| ->]; rewrite ?Hp; by wp_steps.
  - change (wp (deleteProject userId projectId) (fun r _ => r = Ok false) w).
    unfold deleteProject. wp_steps. apply wp_getProjectById.
    intros found faults [->| ->]; rewrite ?Hp; by wp_steps.
  - change (wp (deleteProject userId projectId) (fun _ w' => kv w' = kv w) w).
    unfold deleteProject. wp_steps. apply wp_getProjectById.
    intros found faults [->| ->]; rewrite ?Hp; by wp_steps.
Qed.

End MissingProject.

(** ** Creating and updating tasks *)

(** A call of the store does what the next fault flag says. *)
Lemma wp_kv_call_next {A} (op : gmap string doc -> A * gmap string doc) Q w :
  match head (kv_faults w) with
  | Some true => Q (Throw "kv") (set_kv w (kv w) (tail (kv_faults w)))
  | _ => Q (Ok (fst (op (kv w)))) (set_kv w (snd (op (kv w))) (tail (kv_faults w)))
  end ->
  wp (kv_call op) Q w.
Proof. unfold wp, kv_call. by destruct (head (kv_faults w)) as [[]|]. Qed.

Lemma wp_get_next key Q w :
  match head (kv_faults w) with
  | Some true => Q (Throw "kv") (set_kv w (kv w) (tail (kv_faults w)))
  | _ => Q (Ok (kv w !! key)) (set_kv w (kv w) (tail (kv_faults w)))
  end ->
  wp (kv_store.get key) Q w.
Proof. intros H. by apply (wp_kv_call_next (fun m => (m !! key, m))). Qed.

Lemma wp_set_next key value Q w :
  match head (kv_faults w) with
  | Some true => Q (Throw "kv") (set_kv w (kv w) (tail (kv_faults w)))
  | _ => Q (Ok tt) (set_kv w (<[key := value]> (kv w)) (tail (kv_faults w)))
  end ->
  wp (kv_store.set key value) Q w.
Proof. intros H. by apply (wp_kv_call_next (fun m => (tt, <[key := value]> m))). Qed.

Ltac wp_step_pure :=
  lazymatch goal with
  | |- wp (mbind _ _) _ _ => apply wp_bind
  | |- wp (try_catch_io _ _) _ _ => apply wp_try
  | |- wp (mret _) _ _ => apply wp_ret
  | |- wp (throw _) _ _ => apply wp_throw
  | |- wp (lift _) _ _ => apply wp_lift
  | |- wp (console_log _) _ _ => apply wp_log
  | |- wp Date_now _ _ => apply wp_now
  end.

Ltac wp_pure := repeat first [wp_step_pure | progress (cbv beta iota)].

(** X2.  A successful [createTask] appends the new task to the task array of
    the stored project, keeping the earlier tasks in their order, recomputes
    the progress, and stores the same task under its own key.  The task names
    the project of the call, is created and updated at the time of the call,
    and takes 'Untitled Task', 'pending', 'medium' and 0 actual hours where
    the data give nothing. *)
Theorem createTask_appends userId projectId taskData project w task :
  kv w !! project_key userId projectId = Some (DProject project) ->
  fst (createTask userId projectId taskData w) = Ok task ->
  let w' := snd (createTask userId projectId taskData w) in
  kv w' !! project_key userId projectId
  = Some (DProject (with_tasks project (Project.tasks project ++ [task]) (clock w))) /\
  kv w' !! task_key userId (Task.id task) = Some (DTask task) /\
  Task.projectId task = projectId /\
  Task.created task = clock w /\ Task.updated task = clock w /\
  Task.title task = or_string (Task.title' taskData) "Untitled Task" /\
  Task.status task = default t_pending (Task.status' taskData) /\
  Task.priority task = default medium (Task.priority' taskData) /\
  Task.actualHours task = Some (or_zero (Task.actualHours' taskData)).
Proof.
  intros Hp. revert task.
  change (wp (createTask userId projectId taskData)
            (fun res w' => forall task, res = Ok task ->
               kv w' !! project_key userId projectId
               = Some (DProject (with_tasks project (Project.tasks project ++ [task])
                                   (clock w))) /\
               kv w' !! task_key userId (Task.id task) = Some (DTask task) /\
               Task.projectId task = projectId /\
               Task.created task = clock w /\ Task.updated task = clock w /\
               Task.title task = or_string (Task.title' taskData) "Untitled Task" /\
               Task.status task = default t_pending (Task.status' taskData) /\
               Task.priority task = default medium (Task.priority' taskData) /\
               Task.actualHours task = Some (or_zero (Task.actualHours' taskData))) w).
  unfold createTask. wp_steps. apply wp_getProjectById. intros found faults [->| ->];
    rewrite ?Hp; wp_steps; try done.
  apply wp_random. intros w1 E1 _ Hc _ suffix. simpl in E1, Hc.
  wp_steps; try done. rewrite Hc, E1. intros task [= <-]. simpl.
  split; [|split; [|done]].
  - rewrite lookup_insert_ne by apply task_key_not_project.
    by rewrite lookup_insert_eq.
  - by rewrite lookup_insert_eq.
Qed.

(** X3.  The two writes of [createTask] are not atomic: when the store fails
    on the write of the standalone task, [createTask] throws 'Failed to create
    task' although the stored project already holds the new task, and nothing
    is stored under the key of that task. *)
Theorem createTask_not_atomic userId projectId taskData project w rest :
  kv w !! project_key userId projectId = Some (DProject project) ->
  kv_faults w = false :: false :: true :: rest ->
  let w' := snd (createTask userId projectId taskData w) in
  fst (createTask userId projectId taskData w) = Throw "Failed to create task" /\
  exists task,
    kv w' !! project_key userId projectId
    = Some (DProject (with_tasks project (Project.tasks project ++ [task]) (clock w))) /\
    Task.title task = or_string (Task.title' taskData) "Untitled Task" /\
    kv w' !! task_key userId (Task.id task) = kv w !! task_key userId (Task.id task).
Proof.
  intros Hp Hf.
  change (wp (createTask userId projectId taskData)
            (fun res w' => res = Throw "Failed to create task" /\
               exists task,
                 kv w' !! project_key userId projectId
                 = Some (DProject (with_tasks project (Project.tasks project ++ [task])
                                     (clock w))) /\
                 Task.title task = or_string (Task.title' taskData) "Untitled Task" /\
                 kv w' !! task_key userId (Task.id task)
                 = kv w !! task_key userId (Task.id task)) w).
  unfold createTask, getProjectById. apply wp_try, wp_bind, wp_try, wp_get_next.
  rewrite Hf. simpl. rewrite Hp. wp_steps.
  apply wp_random. intros w1 E1 Hf1 Hc _ suffix. simpl in E1, Hf1, Hc.
  apply wp_bind, wp_now, wp_bind, wp_set_next. rewrite Hf1. simpl.
  apply wp_bind, wp_set_next. simpl. wp_steps. split; [done|].
  eexists. split; [|split]; [| |].
  - rewrite lookup_insert_eq, Hc. reflexivity.
  - done.
  - simpl. rewrite lookup_insert_ne; [by rewrite E1|].
    intros E. symmetry in E. by apply task_key_not_project in E.
Qed.

Section UpdateTaskArray.

Variable toDateString : Timestamp -> string.
Variables getHours getFullYear getMonth getDate : Timestamp -> Z.

#[local] Abbreviation updateTask' :=
  (updateTask toDateString getHours getFullYear getMonth getDate).

Lemma findIndex_first (taskId : string) (tasks : list Task.t) (i : nat) :
  findIndex taskId tasks = Some i ->
  forall j other, j < i -> tasks !! j = Some other -> Task.id other <> taskId.
Proof.
  revert i. induction tasks as [|t rest_ IH]; intros i; simpl; [done|].
  destruct (String.eqb_spec (Task.id t) taskId) as [E|Hne].
  - intros [= <-] j other Hj. lia.
  - destruct (findIndex taskId rest_) as [k|]; [|done]. intros [= <-] [|j] other Hj; simpl.
    + by intros [= <-].
    + apply (IH k); [done|lia].
Qed.

Lemma findIndex_none (taskId : string) (tasks : list Task.t) :
  findIndex taskId tasks = None <-> forall task, task ∈ tasks -> Task.id task <> taskId.
Proof.
  induction tasks as [|t rest_ IH]; simpl.
  - split; [|done]. intros _ task Hin. by apply elem_of_nil in Hin.
  - destruct (String.eqb_spec (Task.id t) taskId) as [E|Hne].
    + split; [done|]. intros H. destruct (H t); [by left|done].
    + destruct (findIndex taskId rest_) as [k|]; simpl.
      * split; [done|]. intros H. exfalso.
        assert (Some k = None) as [=]. apply IH. intros task Hin. apply H. by right.
      * split; [|done]. intros _ task [->|Hin]%elem_of_cons; [done|]. by apply IH.
Qed.

(** X4.  A successful [updateTask] replaces, in the task array of the stored
    project, the first task that has the id, by the task that it returns:
    the array keeps its length, every other entry stays as it was (also a
    later task with the same id), and the progress is the one of the new
    array.  When no task of the project has the id, [updateTask] throws
    'Failed to update task' and writes nothing. *)
Theorem updateTask_replaces_first userId projectId taskId updates project w :
  kv w !! project_key userId projectId = Some (DProject project) ->
  let outcome := updateTask' userId projectId taskId updates w in
  (forall r, fst outcome = Ok r ->
     exists i stored,
       findIndex taskId (Project.tasks project) = Some i /\
       kv (snd outcome) !! project_key userId projectId = Some (DProject stored) /\
       Project.tasks stored = <[i := r]> (Project.tasks project) /\
       length (Project.tasks stored) = length (Project.tasks project) /\
       Project.tasks stored !! i = Some r /\
       (forall j, j <> i -> Project.tasks stored !! j = Project.tasks project !! j) /\
       (forall j other, j < i -> Project.tasks project !! j = Some other ->
                        Task.id other <> taskId) /\
       Project.progress stored = calculateProgress (Project.tasks stored)) /\
  ((forall task, task ∈ Project.tasks project -> Task.id task <> taskId) ->
     fst outcome = Throw "Failed to update task" /\ kv (snd outcome) = kv w).
Proof.
  intros Hp outcome. split.
  - intros r Hr.
    destruct (findIndex taskId (Project.tasks project)) as [i|] eqn:Hi.
    + destruct (findIndex_lookup _ _ _ Hi) as (old & Hold & _).
      destruct (updateTask_result toDateString getHours getFullYear getMonth getDate
                  _ _ _ _ _ _ _ _ _ Hp Hi Hold Hr) as (_ & _ & Hst).
      eexists i, _. split; [done|]. split; [exact Hst|]. simpl.
      split; [done|]. split; [by rewrite length_insert|].
      split; [apply list_lookup_insert_eq; by eapply lookup_lt_Some|].
      split; [intros j Hj; by apply list_lookup_insert_ne|].
      split; [by apply findIndex_first|done].
    + exfalso. revert Hr. subst outcome.
      change (wp (updateTask' userId projectId taskId updates)
                (fun res _ => res = Ok r -> False) w).
      unfold updateTask. wp_steps. apply wp_getProjectById.
      intros found faults [->| ->]; rewrite ?Hp; wp_steps; try done.
      rewrite Hi. by wp_steps.
  - intros Hnone. apply findIndex_none in Hnone. subst outcome. split.
    + change (wp (updateTask' userId projectId taskId updates)
                (fun res _ => res = Throw "Failed to update task") w).
      unfold updateTask. wp_steps. apply wp_getProjectById.
      intros found faults [->| ->]; rewrite ?Hp; wp_steps; try done.
      rewrite Hnone. by wp_steps.
    + change (wp (updateTask' userId projectId taskId updates)
                (fun _ w' => kv w' = kv w) w).
      unfold updateTask. wp_steps. apply wp_getProjectById.
      intros found faults [->| ->]; rewrite ?Hp; wp_steps; try done.
      rewrite Hnone. by wp_steps.
Qed.

End UpdateTaskArray.

Lemma missing_project_fails_witness :
  fst (createTask "u1" "p1" Task.no_updates empty_world) = Throw "Failed to create task" /\
  fst (deleteProject "u1" "p1" empty_world) = Ok false.
Proof.
  destruct (missing_project_fails sample_toDateString sample_getHours sample_getFullYear
              sample_getMonth sample_getDate (fun _ => None)
              "u1" "p1" Project.no_updates Task.no_updates "t1" Task.no_updates empty_world)
    as (_ & [Hcreate _] & _ & _ & [Hdelete _]).
  - reflexivity.
  - split; [exact Hcreate|exact Hdelete].
Defined.

Lemma createTask_appends_witness :
  let w := sample_world (sample_project [] 0) in
  exists task,
    fst (createTask "u1" "p1" Task.no_updates w) = Ok task /\
    Task.title task = "Untitled Task" /\
    kv (snd (createTask "u1" "p1" Task.no_updates w)) !! project_key "u1" "p1"
    = Some (DProject (with_tasks (sample_project [] 0) [task] 5000%Z)).
Proof.
  intros w.
  assert (exists task, fst (createTask "u1" "p1" Task.no_updates w) = Ok task) as [task Ht].
  { vm_compute. eexists. reflexivity. }
  exists task. split; [exact Ht|].
  destruct (createTask_appends "u1" "p1" Task.no_updates (sample_project [] 0) w task)
    as (Hp & _ & _ & _ & _ & Htitle & _).
  - apply lookup_singleton_eq.
  - exact Ht.
  - split; [exact Htitle|exact Hp].
Defined.

Lemma createTask_not_atomic_witness :
  let w := {| kv := {[ project_key "u1" "p1" := DProject (sample_project [] 0) ]};
              kv_faults := [false; false; true]; clock := 5000%Z;
              random := ["k3x9q2m1z"]; recorded := [] |} in
  fst (createTask "u1" "p1" Task.no_updates w) = Throw "Failed to create task" /\
  exists task,
    kv (snd (createTask "u1" "p1" Task.no_updates w)) !! project_key "u1" "p1"
    = Some (DProject (with_tasks (sample_project [] 0) [task] 5000%Z)).
Proof.
  intros w.
  destruct (createTask_not_atomic "u1" "p1" Task.no_updates (sample_project [] 0) w [])
    as (Hthrow & task & Hp & _).
  - apply lookup_singleton_eq.
  - reflexivity.
  - split; [exact Hthrow|]. exists task. exact Hp.
Defined.

Lemma updateTask_replaces_first_witness :
  let project := sample_project [sample_task "t1" "p1" t_pending] 0 in
  let outcome := sample_updateTask "u1" "p1" "t1" complete_it (sample_world project) in
  exists r stored,
    fst outcome = Ok r /\
    kv (snd outcome) !! project_key "u1" "p1" = Some (DProject stored) /\
    Project.tasks stored = [r].
Proof.
  intros project outcome.
  assert (exists r, fst outcome = Ok r) as [r Hr].
  { vm_compute. eexists. reflexivity. }
  destruct (updateTask_replaces_first sample_toDateString sample_getHours sample_getFullYear
              sample_getMonth sample_getDate "u1" "p1" "t1" complete_it project
              (sample_world project)) as [Hok _].
  { apply lookup_singleton_eq. }
  destruct (Hok r Hr) as (i & stored & Hi & Hstored & Htasks & _).
  exists r, stored. split; [exact Hr|]. split; [exact Hstored|].
  rewrite Htasks. injection Hi as <-. reflexivity.
Defined.

(** ** Creating and listing projects *)

(** X5.  [createProject] fails exactly when the write of the project fails,
    and then the store is as before; a failure of the analytics log is
    swallowed.  The project that it returns belongs to the user of the call,
    has no tasks and a progress of 0, is created and updated at the time of
    the call, takes 'Untitled Project', 'active' and 'medium' where the data
    give nothing, and is what the store holds under its id: a following
    [getProjectById] that the store serves returns it. *)
Theorem createProject_round_trip userId projectData w :
  let outcome := createProject userId projectData w in
  (head (kv_faults w) = Some true ->
     fst outcome = Throw "Failed to create project" /\ kv (snd outcome) = kv w) /\
  (head (kv_faults w) <> Some true -> exists project, fst outcome = Ok project) /\
  (forall project, fst outcome = Ok project ->
     Project.userId project = userId /\
     Project.tasks project = [] /\ Project.progress project = 0%Q /\
     Project.created project = clock w /\ Project.updated project = clock w /\
     Project.name project = or_string (Project.name' projectData) "Untitled Project" /\
     Project.status project = default p_active (Project.status' projectData) /\
     Project.priority project = default medium (Project.priority' projectData) /\
     kv (snd outcome) !! project_key userId (Project.id project) = Some (DProject project) /\
     (head (kv_faults (snd outcome)) <> Some true ->
        fst (getProjectById userId (Project.id project) (snd outcome))
        = Ok (Some (DProject project)))).
Proof.
  intros outcome. subst outcome. split; [|split].
  - intros Hf.
    change (wp (createProject userId projectData)
              (fun r w' => r = Throw "Failed to create project" /\ kv w' = kv w) w).
    unfold createProject. wp_pure. apply wp_random. intros w1 E1 Hf1 _ _ suffix.
    wp_pure. apply wp_set_next. rewrite Hf1, Hf. by wp_steps.
  - intros Hf.
    change (wp (createProject userId projectData)
              (fun r w' => exists project, r = Ok project) w).
    unfold createProject. wp_pure. apply wp_random. intros w1 E1 Hf1 _ _ suffix.
    wp_pure. apply wp_set_next. rewrite Hf1.
    destruct (head (kv_faults w)) as [[]|]; [done| |]; wp_pure.
    + eapply wp_mono.
      { apply (updateProjectAnalytics_frame _ _ _ "").
        unfold String.app. discriminate. }
      intros r w2 [-> _]. wp_steps. by eexists.
    + eapply wp_mono.
      { apply (updateProjectAnalytics_frame _ _ _ "").
        unfold String.app. discriminate. }
      intros r w2 [-> _]. wp_steps. by eexists.
  - change (wp (createProject userId projectData)
              (fun r w' => forall project, r = Ok project ->
                 Project.userId project = userId /\
                 Project.tasks project = [] /\ Project.progress project = 0%Q /\
                 Project.created project = clock w /\ Project.updated project = clock w /\
                 Project.name project
                 = or_string (Project.name' projectData) "Untitled Project" /\
                 Project.status project = default p_active (Project.status' projectData) /\
                 Project.priority project = default medium (Project.priority' projectData) /\
                 kv w' !! project_key userId (Project.id project) = Some (DProject project) /\
                 (head (kv_faults w') <> Some true ->
                    fst (getProjectById userId (Project.id project) w')
                    = Ok (Some (DProject project)))) w).
    unfold createProject. wp_steps. apply wp_random. intros w1 E1 _ Hc _ suffix.
    wp_steps; [done|].
    eapply wp_mono.
    { apply (updateProjectAnalytics_frame _ _ _
               (project_key userId ("project-" +:+ pretty (clock w) +:+ "-" +:+ suffix))).
      intros E. symmetry in E. by apply project_key_not_analytics in E. }
    intros r w2 [-> H2]. wp_steps. intros project [= <-]. simpl.
    rewrite Hc in *. repeat split; try done.
    + rewrite H2. simpl. by rewrite lookup_insert_eq.
    + intros Hf2.
      change (wp (getProjectById userId ("project-" +:+ pretty (clock w) +:+ "-" +:+ suffix))
                (fun r _ => r = Ok (Some (DProject
                   {| Project.id := "project-" +:+ pretty (clock w) +:+ "-" +:+ suffix;
                      Project.userId := userId;
                      Project.name := or_string (Project.name' projectData) "Untitled Project";
                      Project.description := or_string (Project.description' projectData) "";
                      Project.status := default p_active (Project.status' projectData);
                      Project.priority := default medium (Project.priority' projectData);
                      Project.progress := 0;
                      Project.tasks := [];
                      Project.team := default [] (Project.team' projectData);
                      Project.deadline := Project.deadline' projectData;
                      Project.created := clock w;
                      Project.updated := clock w;
                      Project.tags := default [] (Project.tags' projectData);
                      Project.metadata :=
                        js_or (default JUndefined (Project.metadata' projectData))
                          (JObj []) |}))) w2).
      unfold getProjectById. apply wp_try, wp_get_next.
      destruct (head (kv_faults w2)) as [[]|]; [done| |];
        rewrite H2; simpl; by rewrite lookup_insert_eq.
Qed.

Lemma createProject_round_trip_witness :
  exists project,
    fst (createProject "u1" Project.no_updates empty_world) = Ok project /\
    Project.name project = "Untitled Project" /\
    fst (getProjectById "u1" (Project.id project)
           (snd (createProject "u1" Project.no_updates empty_world)))
    = Ok (Some (DProject project)).
Proof.
  destruct (createProject_round_trip "u1" Project.no_updates empty_world) as (_ & Hok & Hp).
  destruct Hok as [project Hproject]; [discriminate|].
  exists project. split; [exact Hproject|].
  destruct (Hp project Hproject) as (_ & _ & _ & _ & _ & Hname & _ & _ & _ & Hget).
  split; [exact Hname|]. apply Hget.
  vm_compute. discriminate.
Defined.

Global Instance newest_first_total : Total newest_first.
Proof.
  intros a b. unfold newest_first.
  destruct (doc_updated a), (doc_updated b); auto. lia.
Qed.

Lemma prefix_project_key (userId key : string) :
  String.prefix (project_prefix userId) key = true <->
  exists projectId, key = project_key userId projectId.
Proof.
  rewrite prefix_spec. unfold project_prefix, project_key. split.
  - intros [rest ->]. exists rest. by rewrite !append_assoc.
  - intros [projectId ->]. exists projectId. by rewrite !append_assoc.
Qed.

(** X6.  [getUserProjects] reads the store without changing it.  When the
    store fails it throws 'Failed to fetch projects'.  Otherwise it returns
    the documents that the store holds under the project keys of the user,
    one entry for each key, each at least as recently updated as the next
    one. *)
Theorem getUserProjects_lists userId w :
  let outcome := getUserProjects userId w in
  kv (snd outcome) = kv w /\
  (head (kv_faults w) = Some true -> fst outcome = Throw "Failed to fetch projects") /\
  (head (kv_faults w) <> Some true ->
     exists listed,
       fst outcome = Ok listed /\
       Sorted newest_first listed /\
       length listed
       = length (filter (fun kd => String.prefix (project_prefix userId) (fst kd) = true)
                   (map_to_list (kv w))) /\
       forall d, d ∈ listed <->
                 exists projectId, kv w !! project_key userId projectId = Some d).
Proof.
  intros outcome. subst outcome. split; [|split].
  - change (wp (getUserProjects userId) (fun _ w' => kv w' = kv w) w).
    unfold getUserProjects. apply wp_try, wp_bind, wp_kv_call; by wp_steps.
  - intros Hf.
    change (wp (getUserProjects userId) (fun r _ => r = Throw "Failed to fetch projects") w).
    unfold getUserProjects. apply wp_try, wp_bind, wp_kv_call_next. rewrite Hf. by wp_steps.
  - intros Hf.
    change (wp (getUserProjects userId)
              (fun r _ => exists listed,
                 r = Ok listed /\ Sorted newest_first listed /\
                 length listed
                 = length (filter (fun kd => String.prefix (project_prefix userId) (fst kd)
                                             = true)
                             (map_to_list (kv w))) /\
                 forall d, d ∈ listed <->
                           exists projectId,
                             kv w !! project_key userId projectId = Some d) w).
    unfold getUserProjects. apply wp_try, wp_bind, wp_kv_call_next.
    assert (forall (Q : Prop), Q ->
              match head (kv_faults w) with Some true => False | _ => Q end) as Hcase.
    { intros Q HQ. by destruct (head (kv_faults w)) as [[]|]. }
    destruct (head (kv_faults w)) as [[]|] eqn:Hh; [done| |]; simpl; wp_steps;
      (eexists; split; [reflexivity|]; split; [apply Sorted_merge_sort, _|]; split;
       [by rewrite merge_sort_Permutation, length_fmap|];
       intros d; rewrite merge_sort_Permutation, list_elem_of_fmap; split;
       [intros [[key d'] [-> [Hpre Hin]%list_elem_of_filter]]; simpl in *;
        apply prefix_project_key in Hpre as [projectId ->]; exists projectId;
        by apply elem_of_map_to_list
       |intros [projectId Hd]; exists (project_key userId projectId, d); split; [done|];
        apply list_elem_of_filter; split;
        [apply prefix_project_key; by eexists|by apply elem_of_map_to_list]]).
Qed.

Lemma getUserProjects_lists_witness :
  let project := sample_project [] 0 in
  exists listed, fst (getUserProjects "u1" (sample_world project)) = Ok listed /\
                 DProject project ∈ listed.
Proof.
  intros project.
  destruct (getUserProjects_lists "u1" (sample_world project)) as (_ & _ & H).
  destruct H as (listed & Hl & _ & _ & Hin); [discriminate|].
  exists listed. split; [exact Hl|]. apply Hin. exists "p1". apply lookup_singleton_eq.
Defined.

(** ** The keys of the store *)

Lemma app_colon_inj (a b x y : string) :
  no_colon a = true -> no_colon b = true ->
  a +:+ String ":" x = b +:+ String ":" y -> a = b /\ x = y.
Proof.
  revert b. induction a as [|c a IH]; intros [|c' b]; simpl.
  - intros _ _ [= ->]. done.
  - intros _ [Hc _]%andb_prop [= <- _]. done.
  - intros [Hc _]%andb_prop _ [= -> _]. done.
  - intros [_ Ha]%andb_prop [_ Hb]%andb_prop [= -> E].
    destruct (IH b Ha Hb E) as [-> ->]. done.
Qed.

(** X7.  The keys separate the users whose ids hold no ':': the key of a
    project, of a task or of an analytics log determines the user and the id,
    and keys of different kinds never coincide.  With a ':' in a user id two
    users can share a key: the project b:project:c of user a is stored where
    the project c of user a:project:b is. *)
Theorem keys_separate_users userId userId' id id' :
  no_colon userId = true -> no_colon userId' = true ->
  (project_key userId id = project_key userId' id' -> userId = userId' /\ id = id') /\
  (task_key userId id = task_key userId' id' -> userId = userId' /\ id = id') /\
  (analytics_log_key userId id = analytics_log_key userId' id' ->
     userId = userId' /\ id = id') /\
  project_key userId id <> task_key userId' id' /\
  project_key userId id <> analytics_log_key userId' id' /\
  task_key userId id <> analytics_log_key userId' id' /\
  project_key "a" "b:project:c" = project_key "a:project:b" "c".
Proof.
  intros Hu Hu'. unfold project_key, task_key, analytics_log_key.
  split; [|split; [|split; [|split; [|split; [|split]]]]]; try reflexivity;
    intros E; apply (inj (String.app "user:")) in E.
  - apply (app_colon_inj _ _ ("project:" +:+ id) ("project:" +:+ id') Hu Hu') in E as [-> E].
    by simplify_eq.
  - apply (app_colon_inj _ _ ("task:" +:+ id) ("task:" +:+ id') Hu Hu') in E as [-> E].
    by simplify_eq.
  - apply (app_colon_inj _ _ ("project_analytics:" +:+ id) ("project_analytics:" +:+ id')
             Hu Hu') in E as [-> E].
    by simplify_eq.
  - by apply (app_colon_inj _ _ ("project:" +:+ id) ("task:" +:+ id') Hu Hu') in E as [-> E].
  - by apply (app_colon_inj _ _ ("project:" +:+ id) ("project_analytics:" +:+ id') Hu Hu')
      in E as [-> E].
  - by apply (app_colon_inj _ _ ("task:" +:+ id) ("project_analytics:" +:+ id') Hu Hu')
      in E as [-> E].
Qed.

Lemma keys_separate_users_witness :
  project_key "u1" "p1" <> task_key "u2" "p1" /\
  (project_key "u1" "p1" = project_key "u1" "p1" -> "u1" = "u1" /\ "p1" = "p1").
Proof.
  destruct (keys_separate_users "u1" "u2" "p1" "p1") as (_ & _ & _ & H & _);
    [reflexivity|reflexivity|].
  split; [exact H|].
  destruct (keys_separate_users "u1" "u1" "p1" "p1") as (H' & _);
    [reflexivity|reflexivity|exact H'].
Defined.

(** ** The log of a project *)

Lemma slice_last_length {A} (n : nat) (l : list A) : length (slice_last n l) <= n.
Proof. unfold slice_last. rewrite length_drop. lia. Qed.

Lemma slice_last_last {A} (n : nat) (l : list A) : 0 < n -> last (slice_last n l) = last l.
Proof.
  intros Hn. unfold slice_last. destruct (decide (length l = 0)) as [E|Hne].
  - destruct l; [done|simpl in E; lia].
  - rewrite !last_lookup, lookup_drop, length_drop. f_equal. lia.
Qed.

(** X8.  [updateProjectAnalytics] never throws.  When the store serves its
    two calls and holds a log of the project, or nothing, under the key of the
    log, the new log is the old one with the action and the time of the call
    at its end, cut down to its latest 100 entries: it has at most 100
    entries, and the last one is the new one. *)
Theorem updateProjectAnalytics_bounded userId projectId action old w :
  kv w !! analytics_log_key userId projectId = Some (DProjectAnalytics old)
  \/ (kv w !! analytics_log_key userId projectId = None /\
      old = {| pa_projectId := projectId; pa_created := clock w; pa_actions := [] |}) ->
  let w' := snd (updateProjectAnalytics userId projectId action w) in
  fst (updateProjectAnalytics userId projectId action w) = Ok tt /\
  (kv_faults w = [] ->
     exists log,
       kv w' !! analytics_log_key userId projectId = Some (DProjectAnalytics log) /\
       pa_projectId log = pa_projectId old /\ pa_created log = pa_created old /\
       pa_actions log = slice_last 100 (pa_actions old ++ [(action, clock w)]) /\
       length (pa_actions log) <= 100 /\
       last (pa_actions log) = Some (action, clock w)).
Proof.
  intros Hold. split.
  - change (wp (updateProjectAnalytics userId projectId action) (fun r _ => r = Ok tt) w).
    eapply wp_mono; [apply (updateProjectAnalytics_frame _ _ _ "")|by intros r w' [-> _]].
    unfold String.app. discriminate.
  - intros Hf.
    change (wp (updateProjectAnalytics userId projectId action)
              (fun _ w' => exists log,
                 kv w' !! analytics_log_key userId projectId = Some (DProjectAnalytics log) /\
                 pa_projectId log = pa_projectId old /\ pa_created log = pa_created old /\
                 pa_actions log = slice_last 100 (pa_actions old ++ [(action, clock w)]) /\
                 length (pa_actions log) <= 100 /\
                 last (pa_actions log) = Some (action, clock w)) w).
    unfold updateProjectAnalytics. fold (analytics_log_key userId projectId).
    wp_steps_reliable.
    destruct Hold as [Hold|[Hold ->]]; rewrite Hold; wp_steps_reliable;
      (eexists; split; [apply lookup_insert_eq|]; simpl;
       split; [done|]; split; [done|]; split; [done|]; split;
       [first [apply slice_last_length|simpl; lia]
       |first [rewrite slice_last_last by lia; apply last_snoc|done]]).
Qed.

Lemma updateProjectAnalytics_bounded_witness :
  exists log,
    kv (snd (updateProjectAnalytics "u1" "p1" "updated" empty_world))
    !! analytics_log_key "u1" "p1" = Some (DProjectAnalytics log) /\
    pa_actions log = [("updated", 5000%Z)].
Proof.
  destruct (updateProjectAnalytics_bounded "u1" "p1" "updated"
              {| pa_projectId := "p1"; pa_created := 5000%Z; pa_actions := [] |}
              empty_world) as (_ & H).
  { right. split; reflexivity. }
  destruct H as (log & Hlog & _ & _ & Hactions & _); [reflexivity|].
  exists log. split; [exact Hlog|exact Hactions].
Defined.

(** ** Listing tasks *)

















Global Instance higher_first_transitive : Transitive higher_first.
Proof. intros a b c. unfold higher_first. lia. Qed.







(** ** Projects from templates *)

Lemma updateProjectAnalytics_reliable userId projectId action w :
  kv_faults w = [] ->
  wp (updateProjectAnalytics userId projectId action)
     (fun r w' => r = Ok tt /\ kv_faults w' = [] /\ clock w' = clock w /\
                  forall key, key <> analytics_log_key userId projectId ->
                              kv w' !! key = kv w !! key) w.
Proof.
  intros Hf. unfold updateProjectAnalytics. fold (analytics_log_key userId projectId).
  wp_steps_reliable.
  destruct (kv w !! analytics_log_key userId projectId) as [d|]; wp_steps_reliable.
  - destruct d; wp_steps_reliable; try done.
    repeat split; try done. intros key Hne. by rewrite lookup_insert_ne.
  - repeat split; try done. intros key Hne. by rewrite lookup_insert_ne.
Qed.

Lemma wp_random_reliable Q w :
  (forall w', kv w' = kv w -> kv_faults w' = kv_faults w -> clock w' = clock w ->
              forall r, Q (Ok r) w') ->
  wp random_suffix Q w.
Proof. intros H. apply wp_random. intros w' ? ? ? _ r. by apply H. Qed.

(** [createProject] with a store that serves every call. *)
Lemma wp_createProject_reliable userId projectData Q w :
  kv_faults w = [] ->
  (forall project w',
     kv_faults w' = [] -> clock w' = clock w ->
     kv w' !! project_key userId (Project.id project) = Some (DProject project) ->
     Project.tasks project = [] -> Project.progress project = 0%Q ->
     Project.userId project = userId ->
     Project.name project = or_string (Project.name' projectData) "Untitled Project" ->
     Project.description project = or_string (Project.description' projectData) "" ->
     Project.tags project = default [] (Project.tags' projectData) ->
     Q (Ok project) w') ->
  wp (createProject userId projectData) Q w.
Proof.
  intros Hf HQ. unfold createProject. wp_pure. apply wp_random_reliable.
  intros w1 E1 Hf1 Hc1 suffix. rewrite Hf in Hf1. wp_steps_reliable.
  eapply wp_mono; [by apply updateProjectAnalytics_reliable|].
  intros r w2 (-> & Hf2 & Hc2 & Hframe). wp_pure. apply HQ; try done.
  - by rewrite Hc2.
  - simpl. rewrite Hframe.
    + apply lookup_insert_eq.
    + intros E. symmetry in E. by apply project_key_not_analytics in E.
Qed.

(** [createTask] with a store that serves every call. *)
Lemma wp_createTask_reliable userId projectId taskData project Q w :
  kv w !! project_key userId projectId = Some (DProject project) ->
  kv_faults w = [] ->
  (forall task w',
     kv_faults w' = [] -> clock w' = clock w ->
     kv w' !! project_key userId projectId
     = Some (DProject (with_tasks project (Project.tasks project ++ [task]) (clock w))) ->
     task_from projectId taskData task ->
     Q (Ok task) w') ->
  wp (createTask userId projectId taskData) Q w.
Proof.
  intros Hp Hf HQ. unfold createTask, getProjectById. wp_steps_reliable.
  rewrite Hp. wp_steps_reliable. apply wp_random_reliable.
  intros w1 E1 Hf1 Hc1 suffix. simpl in E1, Hf1, Hc1. wp_steps_reliable.
  apply HQ; try done.
  - simpl. rewrite lookup_insert_ne by apply task_key_not_project.
    rewrite lookup_insert_eq, Hc1. reflexivity.
Qed.

Lemma for_each_createTask userId projectId (templates : list Task.partial) :
  forall project w,
    kv w !! project_key userId projectId = Some (DProject project) ->
    kv_faults w = [] ->
    wp (for_each templates (fun taskTemplate => createTask userId projectId taskTemplate))
       (fun r w' =>
          r = Ok tt /\ kv_faults w' = [] /\
          exists stored created,
            kv w' !! project_key userId projectId = Some (DProject stored) /\
            extended project stored created /\
            Forall2 (task_from projectId) templates created) w.
Proof.
  induction templates as [|data templates IH]; intros project w Hp Hf; simpl.
  - wp_pure. split; [done|]. split; [done|]. exists project, [].
    split; [done|]. split; [|constructor].
    unfold extended. by rewrite app_nil_r.
  - apply wp_bind. apply (wp_createTask_reliable _ _ _ project); [done..|].
    intros task w1 Hf1 Hc1 Hp1 Htask. cbv beta iota.
    eapply wp_mono; [by apply (IH _ w1 Hp1)|].
    intros r w2 (-> & Hf2 & stored & created & Hp2 & Hext & Hall).
    split; [done|]. split; [done|]. exists stored, (task :: created).
    split; [done|]. split; [|by constructor].
    destruct Hext as (Ht & Hid & Hu & Hn & Hd & Htags & Hprog & Hsame). simpl in *.
    unfold extended. rewrite Ht, <-app_assoc. repeat split; try done.
    intros _. destruct (decide (created = [])) as [->|Hne].
    + rewrite (Hsame eq_refl). done.
    + rewrite (Hprog Hne), Ht, <-app_assoc. done.
Qed.

Lemma calculateProgress_none_completed (tasks : list Task.t) :
  Forall (fun task => Task.status task = t_pending) tasks -> calculateProgress tasks = 0%Q.
Proof.
  intros Hall. unfold calculateProgress. destruct (decide _) as [|Hne]; [done|].
  assert (filter (fun task => is_completed task = true) tasks = []) as ->.
  { clear Hne. induction Hall as [|task tasks Ht _ IH]; [done|].
    rewrite filter_cons_False; [done|]. unfold is_completed. rewrite Ht.
    by intros [=]%bool_decide_eq_true. }
  destruct tasks as [|task tasks]; [done|]. reflexivity.
Qed.

Lemma getProjectTemplate_plain (templateName : string) (template : ProjectTemplate) :
  getProjectTemplate templateName = Some template ->
  Forall (fun data => Task.status' data = None) (taskTemplates template).
Proof.
  unfold getProjectTemplate.
  destruct (String.eqb templateName "ai-project");
    [intros [= <-]; simpl; by repeat constructor|].
  destruct (String.eqb templateName "web-app");
    [intros [= <-]; simpl; by repeat constructor|].
  destruct (String.eqb templateName "research");
    [intros [= <-]; simpl; by repeat constructor|].
  destruct (find _ _); intros [= <-]. constructor.
Qed.

(** What [createProjectFromTemplate] does for a template that it finds, with
    a store that serves every call. *)
Lemma createProjectFromTemplate_outcome userId templateName customization template w :
  getProjectTemplate templateName = Some template ->
  kv_faults w = [] ->
  let outcome := createProjectFromTemplate userId templateName (Some customization) w in
  exists project stored,
    fst outcome = Ok project /\
    Project.tasks project = [] /\
    Project.userId project = userId /\
    Project.name project
    = or_string (Project.name' (template_data template customization)) "Untitled Project" /\
    Project.description project
    = or_string (Project.description' (template_data template customization)) "" /\
    Project.tags project = default [] (Project.tags' (template_data template customization)) /\
    kv (snd outcome) !! project_key userId (Project.id project) = Some (DProject stored) /\
    Project.name stored = Project.name project /\
    Task.title <$> Project.tasks stored
    = (fun data => or_string (Task.title' data) "Untitled Task") <$> taskTemplates template /\
    Task.priority <$> Project.tasks stored
    = (fun data => default medium (Task.priority' data)) <$> taskTemplates template /\
    Forall (fun task => Task.status task = t_pending /\
                        Task.projectId task = Project.id project) (Project.tasks stored) /\
    Project.progress stored = 0%Q /\
    (taskTemplates template = [] -> stored = project).
Proof.
  intros Htpl Hf outcome. subst outcome.
  change (wp (createProjectFromTemplate userId templateName (Some customization))
            (fun r w' => exists project stored,
               r = Ok project /\
               Project.tasks project = [] /\
               Project.userId project = userId /\
               Project.name project
               = or_string (Project.name' (template_data template customization))
                   "Untitled Project" /\
               Project.description project
               = or_string (Project.description' (template_data template customization)) "" /\
               Project.tags project
               = default [] (Project.tags' (template_data template customization)) /\
               kv w' !! project_key userId (Project.id project) = Some (DProject stored) /\
               Project.name stored = Project.name project /\
               Task.title <$> Project.tasks stored
               = (fun data => or_string (Task.title' data) "Untitled Task")
                 <$> taskTemplates template /\
               Task.priority <$> Project.tasks stored
               = (fun data => default medium (Task.priority' data))
                 <$> taskTemplates template /\
               Forall (fun task => Task.status task = t_pending /\
                                   Task.projectId task = Project.id project)
                 (Project.tasks stored) /\
               Project.progress stored = 0%Q /\
               (taskTemplates template = [] -> stored = project)) w).
  unfold createProjectFromTemplate. rewrite Htpl. apply wp_try, wp_bind.
  apply wp_createProject_reliable; [done|].
  intros project w1 Hf1 Hc1 Hp1 Htasks Hprog0 Hu Hname Hdesc Htags. cbv beta iota.
  apply wp_bind.
  eapply wp_mono; [by apply (for_each_createTask _ _ _ project w1)|].
  intros r w2 (-> & Hf2 & stored & created & Hp2 & Hext & Hall). wp_pure.
  destruct Hext as (Ht & Hid & _ & Hn & _ & _ & Hprog & Hsame).
  rewrite Htasks in Ht. simpl in Ht.
  pose proof (getProjectTemplate_plain _ _ Htpl) as Hplain.
  assert (Forall (fun task => Task.status task = t_pending /\
                              Task.projectId task = Project.id project) created) as Hst.
  { clear -Hall Hplain. induction Hall as [|data task templates created Htask _ IH];
      [constructor|].
    apply Forall_cons in Hplain as [Hnone Hplain].
    constructor; [|by apply IH].
    destruct Htask as (? & _ & Hs & _). rewrite Hnone in Hs. done. }
  exists project, stored. rewrite Ht. repeat split; try done.
  - clear -Hall. induction Hall as [|data task templates created Htask _ IH]; [done|].
    simpl. f_equal; [|done]. by destruct Htask as (_ & ? & _).
  - clear -Hall. induction Hall as [|data task templates created Htask _ IH]; [done|].
    simpl. f_equal; [|done]. by destruct Htask as (_ & _ & _ & ? & _).
  - destruct (decide (created = [])) as [->|Hne].
    + by rewrite (Hsame eq_refl).
    + rewrite (Hprog Hne), Ht. apply calculateProgress_none_completed.
      eapply Forall_impl; [exact Hst|]. by intros task [? _].
  - intros E. rewrite E in Hall. apply Forall2_nil_inv_l in Hall. by apply Hsame.
Qed.

Lemma find_none_fst (name : string) (l : list (string * string)) :
  name ∉ l.*1 -> find (fun inherited => String.eqb (fst inherited) name) l = None.
Proof.
  induction l as [|[k v] l IH]; simpl; [done|].
  intros Hnot. apply not_elem_of_cons in Hnot as [Hne Hnot].
  destruct (String.eqb_spec k name) as [->|_]; [done|]. by apply IH.
Qed.

Lemma getProjectTemplate_unknown (templateName : string) :
  templateName ∉ ["ai-project"; "web-app"; "research"] ++ inherited_functions.*1 ->
  getProjectTemplate templateName = None.
Proof.
  intros Hnot. apply not_elem_of_app in Hnot as [Hthree Hinherited].
  unfold getProjectTemplate.
  destruct (String.eqb_spec templateName "ai-project") as [->|_].
  { destruct Hthree. repeat constructor. }
  destruct (String.eqb_spec templateName "web-app") as [->|_].
  { destruct Hthree. repeat constructor. }
  destruct (String.eqb_spec templateName "research") as [->|_].
  { destruct Hthree. repeat constructor. }
  by rewrite find_none_fst.
Qed.

Lemma getProjectTemplate_inherited (templateName fname : string) :
  (templateName, fname) ∈ inherited_functions ->
  getProjectTemplate templateName
  = Some {| tpl_name := Some fname; tpl_description := None; tpl_tags := None;
            taskTemplates := [] |}.
Proof.
  intros Hin. unfold inherited_functions in Hin.
  repeat (apply elem_of_cons in Hin as [[= -> ->]|Hin]; [reflexivity|]).
  by apply elem_of_nil in Hin.
Qed.

Lemma getProjectTemplate_titles (templateName : string) (titles : list string) :
  (templateName, titles) ∈ template_titles ->
  exists template,
    getProjectTemplate templateName = Some template /\
    (fun data => or_string (Task.title' data) "Untitled Task") <$> taskTemplates template
    = titles.
Proof.
  intros Hin. unfold template_titles in Hin.
  repeat (apply elem_of_cons in Hin as [[= -> ->]|Hin]; [by eexists|]).
  by apply elem_of_nil in Hin.
Qed.

(** X11.  With a store that serves every call, [createProjectFromTemplate]
    for one of the three templates stores a project of the user that holds
    the tasks of the template, in the order of the template, each pending and
    naming the project, with a progress of 0.  The project that it returns
    is the one that [createProject] built: it has no tasks. *)
Theorem createProjectFromTemplate_tasks userId templateName titles customization w :
  (templateName, titles) ∈ template_titles ->
  kv_faults w = [] ->
  let outcome := createProjectFromTemplate userId templateName (Some customization) w in
  exists project stored,
    fst outcome = Ok project /\
    Project.tasks project = [] /\
    Project.userId project = userId /\
    kv (snd outcome) !! project_key userId (Project.id project) = Some (DProject stored) /\
    Project.name stored = Project.name project /\
    Task.title <$> Project.tasks stored = titles /\
    Forall (fun task => Task.status task = t_pending /\
                        Task.projectId task = Project.id project) (Project.tasks stored) /\
    Project.progress stored = 0%Q.
Proof.
  intros Hin Hf outcome.
  destruct (getProjectTemplate_titles _ _ Hin) as (template & Htpl & <-).
  destruct (createProjectFromTemplate_outcome userId templateName customization template w
              Htpl Hf)
    as (project & stored & H1 & H2 & H3 & _ & _ & _ & H4 & H5 & H6 & _ & H7 & H8 & _).
  by exists project, stored.
Qed.

Lemma createProjectFromTemplate_tasks_witness :
  exists project stored,
    fst (createProjectFromTemplate "u1" "research" (Some Project.no_updates) empty_world)
    = Ok project /\
    Project.tasks project = [] /\
    kv (snd (createProjectFromTemplate "u1" "research" (Some Project.no_updates) empty_world))
    !! project_key "u1" (Project.id project) = Some (DProject stored) /\
    Task.title <$> Project.tasks stored
    = ["Literature Review"; "Data Gathering"; "Analysis"; "Report Writing"].
Proof.
  destruct (createProjectFromTemplate_tasks "u1" "research"
              ["Literature Review"; "Data Gathering"; "Analysis"; "Report Writing"]
              Project.no_updates empty_world)
    as (project & stored & H1 & H2 & _ & H3 & _ & H4 & _).
  { apply (list_elem_of_lookup_2 _ 2). reflexivity. }
  { reflexivity. }
  exists project, stored. split; [exact H1|]. split; [exact H2|]. split; [exact H3|exact H4].
Defined.

(** X12.  [createProjectFromTemplate] throws 'Failed to create project from
    template', without a write, for a customization that is null or undefined
    and for every name that is neither one of the three templates nor a
    function that the template table inherits from [Object.prototype].  For
    the name of such a function it does not fail: with a store that serves
    every call and a customization without a name it stores and returns a
    project without tasks whose name is the name of the function
    ('toString' for toString, 'Object' for constructor). *)
Theorem createProjectFromTemplate_names userId templateName customization w :
  let outcome := createProjectFromTemplate userId templateName customization w in
  (templateName ∉ ["ai-project"; "web-app"; "research"] ++ inherited_functions.*1
   \/ customization = None ->
     fst outcome = Throw "Failed to create project from template" /\
     kv (snd outcome) = kv w) /\
  (forall fname custom,
     (templateName, fname) ∈ inherited_functions ->
     customization = Some custom -> Project.name' custom = None -> kv_faults w = [] ->
     exists project,
       fst outcome = Ok project /\
       Project.name project = fname /\ Project.tasks project = [] /\
       kv (snd outcome) !! project_key userId (Project.id project)
       = Some (DProject project)).
Proof.
  intros outcome. subst outcome. split.
  - intros Hbad. unfold createProjectFromTemplate, try_catch_io.
    destruct Hbad as [Hname| ->].
    + by rewrite (getProjectTemplate_unknown _ Hname).
    + by destruct (getProjectTemplate templateName).
  - intros fname custom Hin -> Hnone Hf.
    destruct (createProjectFromTemplate_outcome userId templateName custom _ w
                (getProjectTemplate_inherited _ _ Hin) Hf)
      as (project & stored & H1 & H2 & _ & H3 & _ & _ & H4 & _ & _ & _ & _ & _ & Hsame).
    exists project. rewrite (Hsame eq_refl) in H4. simpl in H3. rewrite Hnone in H3.
    split; [exact H1|]. split; [|by split]. rewrite H3.
    unfold inherited_functions in Hin.
    repeat (apply elem_of_cons in Hin as [[= -> ->]|Hin]; [reflexivity|]).
    by apply elem_of_nil in Hin.
Qed.

Lemma createProjectFromTemplate_names_witness :
  fst (createProjectFromTemplate "u1" "kanban" (Some Project.no_updates) empty_world)
  = Throw "Failed to create project from template" /\
  exists project,
    fst (createProjectFromTemplate "u1" "toString" (Some Project.no_updates) empty_world)
    = Ok project /\
    Project.name project = "toString".
Proof.
  split.
  - destruct (createProjectFromTemplate_names "u1" "kanban" (Some Project.no_updates)
                empty_world) as [H _].
    apply H. left. refine (bool_decide_unpack _ _). vm_compute. exact I.
  - destruct (createProjectFromTemplate_names "u1" "toString" (Some Project.no_updates)
                empty_world) as [_ H].
    destruct (H "toString" Project.no_updates) as (project & H1 & H2 & _); try reflexivity.
    { apply (list_elem_of_lookup_2 _ 5). reflexivity. }
    exists project. split; [exact H1|exact H2].
Defined.

(** ** Rounding of negative numbers, and days until a deadline *)

Section Days.
Local Open Scope Q_scope.

Lemma fl_negative (x : Q) : x < 0 -> fl x == - fl_pos (- x).
Proof.
  intros Hx. unfold fl. destruct x as [n d]. unfold Qlt in Hx. simpl in *.
  destruct n; try lia. apply Qred_correct.
Qed.

Lemma Qopp_opp_eq (x : Q) : - - x = x.
Proof. destruct x as [n d]. unfold Qopp. simpl. by rewrite Z.opp_involutive. Qed.

(** Rounding is symmetric. *)
Lemma fl_opp (x : Q) : fl (- x) == - fl x.
Proof.
  destruct (Q_dec x 0) as [[Hneg|Hpos]|Hzero].
  - rewrite (fl_negative x Hneg). rewrite fl_positive by lra. lra.
  - rewrite (fl_negative (- x)) by lra. rewrite Qopp_opp_eq.
    by rewrite (fl_positive x Hpos).
  - rewrite (fl_zero x Hzero). rewrite (fl_zero (- x)) by lra. lra.
Qed.

(** An integer below 2^53 in size is its own rounding, whatever its sign. *)
Lemma fl_integer (x : Q) (n : Z) :
  x == inject_Z n -> (Z.abs n <= 2 ^ 53)%Z -> fl x == inject_Z n.
Proof.
  intros Hx Hn. destruct (Z_lt_le_dec n 0) as [Hneg|Hpos].
  - assert (0 <= inject_Z (- n)) as H0 by (rewrite <-(Zle_Qle 0); lia).
    assert (- x == inject_Z (- n)) as Hopp by (rewrite Hx, inject_Z_opp; reflexivity).
    assert (fl (- x) == inject_Z (- n)) as E.
    { rewrite fl_exact; [done|lra|].
      eapply representable_proper; [symmetry; exact Hopp|].
      apply representable_integer. lia. }
    rewrite fl_opp in E. rewrite inject_Z_opp in E. lra.
  - assert (0 <= inject_Z n) as H0 by (rewrite <-(Zle_Qle 0); lia).
    rewrite fl_exact; [done|lra|].
    eapply representable_proper; [symmetry; exact Hx|].
    apply representable_integer. lia.
Qed.

Lemma Qceiling_unique (x : Q) (k : Z) :
  inject_Z k - 1 < x -> x <= inject_Z k -> Qceiling x = k.
Proof.
  intros Hlo Hhi. unfold Qceiling.
  rewrite (Qfloor_unique (- x) (- k)); [lia|rewrite inject_Z_opp; lra..].
Qed.

(** A quotient by the milliseconds of a day does not cross an integer when
    it is rounded. *)
Lemma day_quotient_ceiling (x : Q) (d : Z) :
  x == inject_Z d -> (0 < d <= 2 ^ 52)%Z ->
  let k := ((d + 86399999) / 86400000)%Z in
  inject_Z k - 1 < fl (x / 86400000) <= inject_Z k.
Proof.
  intros Hx Hd k.
  assert (86400000 * (k - 1) + 1 <= d <= 86400000 * k)%Z as [Hlo Hhi].
  { subst k. pose proof (Z.div_mod (d + 86399999) 86400000 ltac:(lia)).
    pose proof (Z.mod_pos_bound (d + 86399999) 86400000 ltac:(lia)). lia. }
  assert (1 <= k <= 2 ^ 53)%Z as Hk by lia.
  set (y := x / 86400000).
  assert (y * 86400000 == inject_Z d) as Hy by (unfold y; rewrite <-Hx; field).
  assert (86400000 * (inject_Z k - 1) + 1 <= inject_Z d) as Hlo'.
  { change 86400000 with (inject_Z 86400000). change 1 with (inject_Z 1).
    unfold Qminus. rewrite <-inject_Z_opp, <-inject_Z_plus, <-inject_Z_mult, <-inject_Z_plus.
    rewrite <-Zle_Qle. lia. }
  assert (inject_Z d <= 86400000 * inject_Z k) as Hhi'.
  { change 86400000 with (inject_Z 86400000). rewrite <-inject_Z_mult, <-Zle_Qle. lia. }
  assert (inject_Z d <= 4503599627370496) as Hmax.
  { rewrite <-(Zle_Qle _ 4503599627370496). lia. }
  assert (1 <= inject_Z d) as Hmin by (rewrite <-(Zle_Qle 1); lia).
  assert (pow2 (-1022) <= y) as Hnormal.
  { apply normal_small. generalize dependent (inject_Z d). intros. lra. }
  destruct (fl_relative y Hnormal) as [Hrel _].
  split.
  - unfold unit_roundoff in Hrel.
    generalize dependent (inject_Z d). generalize dependent (inject_Z k). intros. lra.
  - apply fl_upper.
    + generalize dependent (inject_Z d). intros. lra.
    + apply representable_integer. lia.
    + generalize dependent (inject_Z d). generalize dependent (inject_Z k). intros. lra.
Qed.

Lemma day_quotient_floor (x : Q) (d : Z) :
  x == inject_Z d -> (0 < d <= 2 ^ 52)%Z ->
  let m := (d / 86400000)%Z in
  inject_Z m <= fl (x / 86400000) < inject_Z m + 1.
Proof.
  intros Hx Hd m.
  assert (86400000 * m <= d <= 86400000 * (m + 1) - 1)%Z as [Hlo Hhi].
  { subst m. pose proof (Z.div_mod d 86400000 ltac:(lia)).
    pose proof (Z.mod_pos_bound d 86400000 ltac:(lia)). lia. }
  assert (0 <= m <= 2 ^ 53)%Z as Hm by (split; [apply Z.div_pos|]; lia).
  set (y := x / 86400000).
  assert (y * 86400000 == inject_Z d) as Hy by (unfold y; rewrite <-Hx; field).
  assert (86400000 * inject_Z m <= inject_Z d) as Hlo'.
  { change 86400000 with (inject_Z 86400000). rewrite <-inject_Z_mult, <-Zle_Qle. lia. }
  assert (inject_Z d <= 86400000 * (inject_Z m + 1) - 1) as Hhi'.
  { change 86400000 with (inject_Z 86400000). change 1 with (inject_Z 1).
    unfold Qminus. rewrite <-inject_Z_opp, <-inject_Z_plus, <-inject_Z_mult, <-inject_Z_plus.
    rewrite <-Zle_Qle. lia. }
  assert (inject_Z d <= 4503599627370496) as Hmax.
  { rewrite <-(Zle_Qle _ 4503599627370496). lia. }
  assert (1 <= inject_Z d) as Hmin by (rewrite <-(Zle_Qle 1); lia).
  assert (pow2 (-1022) <= y) as Hnormal.
  { apply normal_small. generalize dependent (inject_Z d). intros. lra. }
  destruct (fl_relative y Hnormal) as [_ Hrel].
  split.
  - apply fl_lower.
    + generalize dependent (inject_Z d). intros. lra.
    + apply representable_integer. lia.
    + generalize dependent (inject_Z d). generalize dependent (inject_Z m). intros. lra.
  - unfold unit_roundoff in Hrel.
    generalize dependent (inject_Z d). generalize dependent (inject_Z m). intros. lra.
Qed.

(** The days until a deadline are the exact quotient, rounded up. *)
Lemma days_until_exact (deadline now : Timestamp) :
  (Z.abs (deadline - now) <= 2 ^ 52)%Z ->
  days_until deadline now = (- ((now - deadline) / 86400000))%Z.
Proof.
  intros Hd. unfold days_until, fdiv, fadd.
  set (d := (deadline - now)%Z) in *.
  assert (inject_Z deadline + - inject_Z now == inject_Z d) as Hsum.
  { unfold d, Z.sub. by rewrite inject_Z_plus, inject_Z_opp. }
  assert (fl (inject_Z deadline + - inject_Z now) == inject_Z d) as Hdiff
    by (apply fl_integer; [done|lia]).
  replace (now - deadline)%Z with (- d)%Z by (unfold d; lia).
  set (x := fl (inject_Z deadline + - inject_Z now)) in *. clearbody x.
  destruct (Z.lt_trichotomy d 0) as [Hneg|[Hzero|Hpos]].
  - assert (- x == inject_Z (- d)) as Hx by (rewrite Hdiff, inject_Z_opp; reflexivity).
    destruct (day_quotient_floor (- x) (- d) Hx ltac:(lia)) as [Hlo Hhi].
    assert (x / 86400000 = - (- x / 86400000)) as E.
    { destruct x as [n q]. unfold Qdiv, Qmult, Qopp. simpl. f_equal. lia. }
    rewrite E. unfold Qceiling. f_equal.
    pose proof (fl_opp (- x / 86400000)) as Ho.
    apply Qfloor_unique; lra.
  - rewrite Hzero in *. simpl.
    assert (fl (x / 86400000) = 0) as ->; [|done].
    apply fl_zero. rewrite Hdiff. reflexivity.
  - destruct (day_quotient_ceiling x d Hdiff ltac:(lia)) as [Hlo Hhi].
    rewrite (Qceiling_unique _ _ Hlo Hhi).
    pose proof (Z.div_mod (d + 86399999) 86400000 ltac:(lia)).
    pose proof (Z.mod_pos_bound (d + 86399999) 86400000 ltac:(lia)).
    pose proof (Z.div_mod (- d) 86400000 ltac:(lia)).
    pose proof (Z.mod_pos_bound (- d) 86400000 ltac:(lia)). lia.
Qed.

End Days.

(** ** Risks, recommendations and insights *)

Lemma app_same_length (a c b d : string) :
  String.length b = String.length d -> a +:+ b = c +:+ d -> b = d.
Proof.
  intros Hlen E.
  assert (String.length a = String.length c) as Hac.
  { apply (f_equal String.length) in E. rewrite !length_append in E. lia. }
  revert c E Hac. induction a as [|x a IH]; intros [|y c]; simpl; try done.
  intros [= _ E] [= Hac]. by apply (IH c).
Qed.

Lemma js_lt_spec (x y : Q) : js_lt x y = true <-> (x < y)%Q.
Proof.
  unfold js_lt. rewrite negb_true_iff, <-not_true_iff_false, Qle_bool_iff.
  split; [apply Qnot_le_lt|apply Qlt_not_le].
Qed.

Section InsightFacts.

Variable Date_parse : string -> option Timestamp.

#[local] Abbreviation identifyProjectRisks' := (identifyProjectRisks Date_parse).
#[local] Abbreviation days_remaining' := (days_remaining Date_parse).

(** The three parts of the list of risks. *)
Lemma identifyProjectRisks_parts project now :
  exists overdue blocked,
    identifyProjectRisks' project now
    = (match days_remaining' project now with
       | days daysRemaining =>
           if (daysRemaining <? 7)%Z && js_lt (Project.progress project) 80
           then ["Project may miss deadline due to low completion rate"]
           else []
       | _ => []
       end)
      ++ overdue ++ blocked /\
    (forall risk, risk ∈ overdue ->
       exists n : nat, 0 < n /\ risk = pretty n +:+ " tasks are overdue" /\
         n = length (filter (fun task => overdue_in now task = true)
                       (Project.tasks project))) /\
    (forall risk, risk ∈ blocked ->
       exists n : nat, 0 < n /\ risk = pretty n +:+ " tasks are blocked" /\
         n = length (filter (fun task => Task.status task = t_blocked)
                       (Project.tasks project))) /\
    (length (filter (fun task => overdue_in now task = true) (Project.tasks project)) = 0 ->
       overdue = []) /\
    (length (filter (fun task => Task.status task = t_blocked) (Project.tasks project)) = 0 ->
       blocked = []).
Proof.
  unfold identifyProjectRisks.
  set (first := match days_remaining' project now with
                | days daysRemaining =>
                    if (daysRemaining <? 7)%Z && js_lt (Project.progress project) 80
                    then [] ++ ["Project may miss deadline due to low completion rate"]
                    else []
                | _ => []
                end).
  assert (first = match days_remaining' project now with
                  | days daysRemaining =>
                      if (daysRemaining <? 7)%Z && js_lt (Project.progress project) 80
                      then ["Project may miss deadline due to low completion rate"]
                      else []
                  | _ => []
                  end) as <- by done.
  set (n_overdue := length (filter (fun task => overdue_in now task = true)
                              (Project.tasks project))).
  set (n_blocked := length (filter (fun task => Task.status task = t_blocked)
                              (Project.tasks project))).
  exists (if decide (0 < n_overdue) then [pretty n_overdue +:+ " tasks are overdue"] else []),
         (if decide (0 < n_blocked) then [pretty n_blocked +:+ " tasks are blocked"] else []).
  split; [|split; [|split; [|split]]].
  - destruct (decide (0 < n_overdue)), (decide (0 < n_blocked)); simpl;
      rewrite ?app_nil_r, <-?app_assoc; done.
  - intros risk. destruct (decide (0 < n_overdue)); [|by intros ?%elem_of_nil].
    intros ->%list_elem_of_singleton. by exists n_overdue.
  - intros risk. destruct (decide (0 < n_blocked)); [|by intros ?%elem_of_nil].
    intros ->%list_elem_of_singleton. by exists n_blocked.
  - intros E. destruct (decide (0 < n_overdue)); [lia|done].
  - intros E. destruct (decide (0 < n_blocked)); [lia|done].
Qed.

(** X13.  For a project whose deadline is a date at most 2^52 ms away,
    [daysRemaining] is the time to the deadline in days, rounded up exactly.
    The risk 'Project may miss deadline due to low completion rate' is
    reported exactly when the deadline is at most six days (518400000 ms)
    ahead, or past, and the progress is below 80: one millisecond more counts
    as seven days. *)
Theorem deadline_risk_threshold project now text deadline :
  Project.deadline project = Some text -> text <> "" ->
  Date_parse text = Some deadline ->
  (Z.abs (deadline - now) <= 2 ^ 52)%Z ->
  days_remaining Date_parse project now = days (- ((now - deadline) / 86400000)) /\
  ("Project may miss deadline due to low completion rate"
   ∈ identifyProjectRisks Date_parse project now
   <-> (deadline - now <= 518400000)%Z /\ (Project.progress project < 80)%Q).
Proof.
  intros Hd Htext Hparse Hclose.
  assert (days_remaining' project now = days (- ((now - deadline) / 86400000))) as Hdays.
  { unfold days_remaining. rewrite Hd. simpl.
    destruct (String.eqb_spec text "") as [|_]; [done|]. simpl.
    by rewrite Hparse, days_until_exact. }
  split; [done|].
  destruct (identifyProjectRisks_parts project now)
    as (overdue & blocked & -> & Hoverdue & Hblocked & _).
  rewrite Hdays. rewrite !elem_of_app.
  assert ((- ((now - deadline) / 86400000) <? 7)%Z = true
          <-> (deadline - now <= 518400000)%Z) as Hweek.
  { rewrite Z.ltb_lt.
    pose proof (Z.div_mod (now - deadline) 86400000 ltac:(lia)).
    pose proof (Z.mod_pos_bound (now - deadline) 86400000 ltac:(lia)). lia. }
  split.
  - intros [Hfirst|[Hin|Hin]].
    + destruct (_ && _) eqn:E; [|by apply elem_of_nil in Hfirst].
      apply andb_true_iff in E as [E1 E2]. split; [by apply Hweek|by apply js_lt_spec].
    + exfalso. destruct (Hoverdue _ Hin) as (n & _ & E & _).
      apply (app_same_length "Project may miss deadline due to l" (pretty n)
               "ow completion rate" " tasks are overdue") in E; done.
    + exfalso. destruct (Hblocked _ Hin) as (n & _ & E & _).
      apply (app_same_length "Project may miss deadline due to l" (pretty n)
               "ow completion rate" " tasks are blocked") in E; done.
  - intros [H1%Hweek H2%js_lt_spec]. left. rewrite H1, H2. by left.
Qed.

Lemma calculateProgress_all_completed (tasks : list Task.t) :
  tasks <> [] -> Forall (fun task => Task.status task = t_completed) tasks ->
  calculateProgress tasks = 100%Q.
Proof.
  intros Hne Hall. unfold calculateProgress. destruct (decide _) as [E|_].
  { by destruct tasks. }
  assert (filter (fun task => is_completed task = true) tasks = tasks) as ->.
  { clear Hne. induction Hall as [|task tasks Ht _ IH]; [done|].
    rewrite filter_cons_True, IH; [done|]. unfold is_completed. rewrite Ht.
    by apply bool_decide_eq_true. }
  set (n := inject_Z (Z.of_nat (length tasks))).
  assert (0 < n)%Q as Hn.
  { unfold n. rewrite <-(Zlt_Qlt 0). destruct tasks; [done|simpl; lia]. }
  assert (fdiv n n == 1)%Q as Hone.
  { unfold fdiv. assert (n / n == 1)%Q as E by (field; lra).
    rewrite fl_exact; [done|lra|].
    eapply representable_proper; [symmetry; exact E|].
    apply (representable_integer 1). lia. }
  assert (fmul (fdiv n n) 100 == 100)%Q as Hhundred.
  { unfold fmul. assert (fdiv n n * 100 == 100)%Q as E by (rewrite Hone; reflexivity).
    rewrite fl_exact; [done|lra|].
    eapply representable_proper; [symmetry; exact E|].
    apply (representable_integer 100). lia. }
  unfold Math_round. rewrite (Qfloor_unique _ 100); [done|rewrite Hhundred..].
  - change (inject_Z 100) with 100%Q. lra.
  - change (inject_Z 100) with 100%Q. lra.
Qed.

(** X14.  A project that has tasks, all of them completed, and whose progress
    is the one of its tasks, has a progress of 100, no risk and no
    recommendation, whatever its deadline and its team. *)
Theorem finished_project_is_quiet project now :
  Project.tasks project <> [] ->
  Forall (fun task => Task.status task = t_completed) (Project.tasks project) ->
  progress_consistent project ->
  Project.progress project = 100%Q /\
  identifyProjectRisks' project now = [] /\
  generateProjectRecommendations project = [].
Proof.
  intros Hne Hall Hcons.
  assert (Project.progress project = 100%Q) as Hprog.
  { rewrite Hcons. by apply calculateProgress_all_completed. }
  assert (forall P : Task.t -> Prop, forall Hdec : (forall t, Decision (P t)),
            (forall t, P t -> is_completed t = false) ->
            filter P (Project.tasks project) = []) as Hnone.
  { intros P Hdec HP. clear Hne Hcons Hprog.
    generalize dependent (Project.tasks project). intros tasks Hall.
    induction Hall as [|task tasks Ht _ IH]; [done|].
    rewrite filter_cons_False; [exact IH|].
    intros Hp%HP. unfold is_completed in Hp. rewrite Ht in Hp.
    by apply bool_decide_eq_false in Hp. }
  split; [done|]. split.
  - destruct (identifyProjectRisks_parts project now)
      as (overdue & blocked & -> & _ & _ & Ho & Hb).
    rewrite Ho, Hb.
    + rewrite Hprog. by destruct (days_remaining' project now) as [| |n]; [..|destruct (n <? 7)%Z].
    + rewrite Hnone; [done|]. intros t Ht. unfold is_completed.
      apply bool_decide_eq_false. by rewrite Ht.
    + rewrite Hnone; [done|]. intros t. unfold overdue_in.
      destruct (Task.due_date t); [|done]. intros [_ H]%andb_true_iff.
      by apply negb_true_iff in H.
  - unfold generateProjectRecommendations. rewrite Hprog.
    rewrite !Hnone; [|by intros t [_ ?]..]. simpl.
    by destruct (decide (1 < length (Project.team project))).
Qed.

#[local] Abbreviation getProjectInsights' := (getProjectInsights Date_parse).



End InsightFacts.

Lemma deadline_risk_threshold_witness :
  let project :=
    {| Project.id := "p1"; Project.userId := "u1"; Project.name := "Launch";
       Project.description := ""; Project.status := p_active; Project.priority := medium;
       Project.progress := 50; Project.tasks := []; Project.team := [];
       Project.deadline := Some "1970-01-07T00:00:00.000Z"; Project.created := 1000%Z;
       Project.updated := 1000%Z; Project.tags := []; Project.metadata := JObj [] |} in
  days_remaining (fun _ => Some 518400000%Z) project 0%Z = days 6 /\
  "Project may miss deadline due to low completion rate"
  ∈ identifyProjectRisks (fun _ => Some 518400000%Z) project 0%Z.
Proof.
  intros project.
  destruct (deadline_risk_threshold (fun _ => Some 518400000%Z) project 0%Z
              "1970-01-07T00:00:00.000Z" 518400000%Z) as [Hdays Hrisk];
    [reflexivity|discriminate|reflexivity|vm_compute; discriminate|].
  split; [exact Hdays|]. apply Hrisk. split; [lia|reflexivity].
Defined.

Lemma finished_project_is_quiet_witness :
  let project := sample_project [sample_task "t1" "p1" t_completed] 100 in
  identifyProjectRisks (fun _ => None) project 5000%Z = [] /\
  generateProjectRecommendations project = [].
Proof.
  intros project.
  destruct (finished_project_is_quiet (fun _ => None) project 5000%Z) as (_ & H1 & H2).
  - discriminate.
  - repeat constructor.
  - vm_compute. reflexivity.
  - split; [exact H1|exact H2].
Defined.


(** ** Heuristic analysis of a capture *)







(** X17.  The suggested actions of an email, an idea or a task are the three
    of its type whatever the content says: the actions for 'meeting',
    'research' and 'follow up' in the content are cut off.  For every other
    type they are those content actions, in that order. *)
Theorem suggested_actions_by_type (captureData : CaptureData) :
  let content := toLowerCase (cd_content captureData) in
  let suggested := generateSuggestedActions captureData in
  length suggested <= 3 /\
  (cd_type captureData = c_email ->
     suggested = ["Reply to email"; "Add to calendar"; "Create task"]) /\
  (cd_type captureData = c_idea ->
     suggested = ["Create project"; "Add to research list"; "Schedule brainstorm"]) /\
  (cd_type captureData = c_task ->
     suggested = ["Set deadline"; "Assign priority"; "Add to project"]) /\
  (cd_type captureData <> c_email -> cd_type captureData <> c_idea ->
   cd_type captureData <> c_task ->
     suggested
     = (if includes content "meeting" then ["Schedule meeting"] else [])
       ++ (if includes content "research" then ["Create research project"] else [])
       ++ (if includes content "follow up" then ["Set reminder"] else [])).
Proof.
  intros content suggested. subst suggested. unfold generateSuggestedActions.
  fold content.
  split; [rewrite length_take; lia|].
  repeat split; intros.
  all: destruct (cd_type captureData); try done.
  all: by destruct (includes content "meeting"), (includes content "research"),
            (includes content "follow up").
Qed.

(** ** The focus score and the keys of the periods *)

Section FocusScore.
Local Open Scope Q_scope.

Lemma six_tenths : 0 <= fl (6 # 10) /\ 0 <= fl (4 # 10) /\ fl (6 # 10) + fl (4 # 10) == 1
                   /\ 9 # 8 <= 3 * fl (4 # 10).
Proof. repeat split; vm_compute; discriminate || reflexivity. Qed.

Lemma representable_nine_eighths : representable (9 # 8).
Proof. exists 9%Z, (-3)%Z. repeat split; [vm_compute; discriminate|lia]. Qed.

Lemma Math_max_one (x : Q) : 1 <= Math_max x 1 /\ x <= Math_max x 1.
Proof.
  unfold Math_max. destruct (Qle_bool x 1) eqn:E.
  - apply Qle_bool_iff in E. lra.
  - assert (~ x <= 1) by (rewrite <-Qle_bool_iff; congruence). lra.
Qed.

Lemma Math_round_bounds (x : Q) (lo hi : Z) :
  inject_Z lo <= x -> x <= inject_Z hi -> (lo <= Math_round x <= hi)%Z.
Proof.
  intros Hlo Hhi. unfold Math_round. split.
  - apply floor_ge. lra.
  - apply Z.lt_succ_r. rewrite Zlt_Qlt.
    eapply Qle_lt_trans; [apply Qfloor_le|].
    unfold Z.succ. rewrite inject_Z_plus. change (inject_Z 1) with 1. lra.
Qed.

Lemma ratio_bounds (x y : Q) : 0 <= x -> 0 < y -> x <= y -> 0 <= x / y <= 1.
Proof.
  intros Hx Hy Hle. split.
  - apply Qle_shift_div_l; [done|]. lra.
  - apply Qle_shift_div_r; [done|]. lra.
Qed.

(** X18.  For metrics that are binary64 values and not negative,
    [calculateFocusScore] stays between 0 and 100 as long as the completed
    tasks are at most [Math.max(tasksCreated, 1)]; it is 112 or more, hence
    no percentage, as soon as they are three times that, whatever the times
    (unless both are 0, where the score is 0). *)
Theorem calculateFocusScore_range (metrics : ProductivityMetrics) :
  representable (deepWorkTime metrics) ->
  0 <= deepWorkTime metrics -> 0 <= meetingTime metrics ->
  0 <= tasksCompleted metrics ->
  (tasksCompleted metrics <= Math_max (tasksCreated metrics) 1 ->
     0 <= calculateFocusScore metrics <= 100) /\
  (3 * Math_max (tasksCreated metrics) 1 <= tasksCompleted metrics ->
     js_eq (fadd (deepWorkTime metrics) (meetingTime metrics)) 0 = false ->
     112 <= calculateFocusScore metrics).
Proof.
  intros Hrep Hd Hm Hc.
  destruct six_tenths as (H6 & H4 & Hsum & H98).
  destruct (Math_max_one (tasksCreated metrics)) as [Hmax _].
  unfold calculateFocusScore.
  set (total := fadd (deepWorkTime metrics) (meetingTime metrics)).
  assert (deepWorkTime metrics <= total) as Htotal.
  { apply fl_lower; [lra|done|lra]. }
  set (taskRatio := fdiv (tasksCompleted metrics) (Math_max (tasksCreated metrics) 1)).
  assert (representable 1) as Hone by (apply (representable_integer 1); lia).
  assert (js_eq total 0 = false ->
          0 <= fmul (fdiv (deepWorkTime metrics) total) (fl (6 # 10)) <= fl (6 # 10))
    as Hfocus.
  { intros Hnz. assert (0 < total) as Hpos.
    { assert (~ total == 0) by (rewrite <-Qeq_bool_iff; unfold js_eq in Hnz; congruence).
      lra. }
    destruct (ratio_bounds (deepWorkTime metrics) total Hd Hpos Htotal) as [Hr0 Hr1].
    assert (0 <= fdiv (deepWorkTime metrics) total <= 1) as [Hf0 Hf1].
    { split; [by apply fl_nonneg|by apply fl_upper]. }
    assert (0 <= fdiv (deepWorkTime metrics) total * fl (6 # 10)) as Hp0.
    { apply Qmult_le_0_compat; lra. }
    split; [by apply fl_nonneg|].
    apply fl_upper; [done|apply fl_representable; lra|].
    rewrite <-(Qmult_1_l (fl (6 # 10))) at 2. apply Qmult_le_compat_r; lra. }
  assert (0 <= tasksCompleted metrics / Math_max (tasksCreated metrics) 1) as Hq0.
  { apply Qle_shift_div_l; lra. }
  assert (0 <= taskRatio) as Ht0 by (by apply fl_nonneg).
  assert (0 <= taskRatio * fl (4 # 10)) as Htp0 by (apply Qmult_le_0_compat; lra).
  assert (0 <= fmul taskRatio (fl (4 # 10))) as Hb0 by (by apply fl_nonneg).
  split.
  - intros Hle. destruct (js_eq total 0) eqn:Hnz.
    { change (inject_Z 100) with 100. lra. }
    destruct (Hfocus eq_refl) as [Ha0 Ha1].
    assert (taskRatio <= 1) as Ht1.
    { apply fl_upper; [done|done|]. apply Qle_shift_div_r; lra. }
    assert (fmul taskRatio (fl (4 # 10)) <= fl (4 # 10)) as Hb1.
    { apply fl_upper; [done|apply fl_representable; lra|].
      rewrite <-(Qmult_1_l (fl (4 # 10))) at 2. apply Qmult_le_compat_r; lra. }
    set (a := fmul (fdiv (deepWorkTime metrics) total) (fl (6 # 10))) in *.
    set (b := fmul taskRatio (fl (4 # 10))) in *.
    assert (0 <= fadd a b <= 1) as [Hs0 Hs1].
    { split; [apply fl_nonneg; lra|apply fl_upper; [lra|done|lra]]. }
    assert (0 <= fmul (fadd a b) 100 <= 100) as [Hp0 Hp1].
    { split; [apply fl_nonneg; lra|].
      apply fl_upper; [lra|apply (representable_integer 100); lia|lra]. }
    destruct (Math_round_bounds (fmul (fadd a b) 100) 0 100) as [Hr0 Hr1];
      [done|done|].
    rewrite <-(Zle_Qle 0), <-(Zle_Qle _ 100). lia.
  - intros Hle Hnz. rewrite Hnz. destruct (Hfocus Hnz) as [Ha0 _].
    assert (3 <= taskRatio) as Ht3.
    { apply fl_lower; [done|apply (representable_integer 3); lia|].
      apply Qle_shift_div_l; lra. }
    assert (9 # 8 <= fmul taskRatio (fl (4 # 10))) as Hb.
    { apply fl_lower; [done|apply representable_nine_eighths|].
      eapply Qle_trans; [exact H98|]. apply Qmult_le_compat_r; lra. }
    set (a := fmul (fdiv (deepWorkTime metrics) total) (fl (6 # 10))) in *.
    set (b := fmul taskRatio (fl (4 # 10))) in *.
    assert (9 # 8 <= fadd a b) as Hs.
    { apply fl_lower; [lra|apply representable_nine_eighths|lra]. }
    assert (112 <= fmul (fadd a b) 100) as Hp.
    { apply fl_lower; [lra|apply (representable_integer 112); lia|lra]. }
    change 112 with (inject_Z 112). rewrite <-Zle_Qle.
    unfold Math_round. apply floor_ge. change (inject_Z 112) with 112. lra.
Qed.

End FocusScore.

Lemma calculateFocusScore_range_witness :
  let metrics := {| tasksCompleted := 3; tasksCreated := 0; focusScore := 0;
                    captureCount := 0; activeProjects := 0; meetingTime := 0;
                    deepWorkTime := 60 |} in
  (112 <= calculateFocusScore metrics)%Q.
Proof.
  intros metrics.
  destruct (calculateFocusScore_range metrics) as [_ H].
  - apply (representable_integer 60). vm_compute. discriminate.
  - vm_compute. discriminate.
  - vm_compute. discriminate.
  - vm_compute. discriminate.
  - apply H; [vm_compute; discriminate|vm_compute; reflexivity].
Defined.

Section WeekKey.

Variables getFullYear getMonth getDate : Timestamp -> Z.

Lemma week_of_month_table :
  forallb (fun d => (Qceiling (fdiv (inject_Z d) 7) =? (d + 6) / 7)%Z) (seqZ 1 31) = true.
Proof. vm_compute. reflexivity. Qed.

(** X19.  The week of a weekly key is the week of the month, the day of the
    month over 7 rounded up, from 1 to 5, beside the year and the month
    counted from 0; an Invalid Date gives the key 'NaN-NaN-WNaN' and the
    month key 'NaN-NaN'. *)
Theorem getWeekKey_week_of_month (t : Timestamp) :
  (1 <= getDate t <= 31)%Z ->
  getWeekKey getFullYear getMonth getDate (Some t)
  = pretty (getFullYear t) +:+ "-" +:+ pretty (getMonth t) +:+ "-W"
    +:+ pretty ((getDate t + 6) / 7)%Z /\
  (1 <= (getDate t + 6) / 7 <= 5)%Z /\
  getWeekKey getFullYear getMonth getDate None = "NaN-NaN-WNaN" /\
  getMonthKey getFullYear getMonth None = "NaN-NaN".
Proof.
  intros Hd. split; [|split; [|done]].
  - assert (Qceiling (fdiv (inject_Z (getDate t)) 7) = (getDate t + 6) / 7)%Z as Hweek.
    { pose proof week_of_month_table as Htable.
      rewrite forallb_forall in Htable.
      apply Z.eqb_eq, Htable, list_elem_of_In, elem_of_seqZ. lia. }
    unfold getWeekKey. simpl. by rewrite Hweek.
  - split; [apply Z.div_le_lower_bound; lia|].
    apply Z.lt_succ_r, Z.div_lt_upper_bound; lia.
Qed.

End WeekKey.

Lemma getWeekKey_week_of_month_witness :
  getWeekKey sample_getFullYear sample_getMonth sample_getDate (Some 604800000%Z)
  = "2024-0-W2".
Proof.
  destruct (getWeekKey_week_of_month sample_getFullYear sample_getMonth sample_getDate
              604800000%Z) as [H _].
  - vm_compute. split; discriminate.
  - etrans; [exact H|]. vm_compute. reflexivity.
Defined.

(** ** The three buckets of an activity *)

Lemma counts_up_fadd (x : Q) : counts_up x (fadd x 1).
Proof.
  intros n Hn Hx. unfold fadd. apply fl_integer.
  - rewrite Hx, inject_Z_plus. reflexivity.
  - lia.
Qed.

Lemma metrics_key_not_patterns userId dayKey :
  metrics_key userId dayKey <> patterns_key userId.
Proof.
  unfold metrics_key, patterns_key. intros E.
  apply (inj (String.app "user:")), (inj (String.app userId)) in E. discriminate E.
Qed.

Lemma period_key_not_patterns userId period key :
  period_key userId period key <> patterns_key userId.
Proof.
  unfold period_key, patterns_key. intros E.
  apply (inj (String.app "user:")), (inj (String.app userId)) in E. discriminate E.
Qed.

Lemma weekly_not_monthly userId key key' :
  period_key userId "weekly" key <> period_key userId "monthly" key'.
Proof.
  unfold period_key. intros E.
  apply (inj (String.app "user:")), (inj (String.app userId)) in E. discriminate E.
Qed.

Lemma updateDailyMetrics_reliable userId dayKey activity old new w :
  kv_faults w = [] ->
  metrics_at (kv w) (metrics_key userId dayKey) = Some old ->
  daily_switch activity old = Ok new ->
  wp (updateDailyMetrics userId dayKey activity)
     (fun r w' => r = Ok tt /\ kv_faults w' = [] /\ clock w' = clock w /\
                  kv w' = <[metrics_key userId dayKey := DMetrics new]> (kv w)) w.
Proof.
  intros Hf Hold Hnew. unfold updateDailyMetrics, metrics_at, metrics_key in *.
  wp_steps_reliable.
  destruct (kv w !! _) as [[]|]; simplify_eq; wp_steps_reliable;
    rewrite Hnew; by wp_steps_reliable.
Qed.

Lemma updatePeriodMetric_reliable userId period key activity old w :
  kv_faults w = [] ->
  metrics_at (kv w) (period_key userId period key) = Some old ->
  exists new,
    period_switch activity old = Ok new /\
    wp (updatePeriodMetric userId period key activity)
       (fun r w' => r = Ok tt /\ kv_faults w' = [] /\ clock w' = clock w /\
                    kv w' = <[period_key userId period key := DMetrics new]> (kv w)) w.
Proof.
  intros Hf Hold.
  assert (exists new, period_switch activity old = Ok new) as [new Hnew].
  { unfold period_switch. destruct (a_type activity); by eexists. }
  exists new. split; [done|].
  unfold updatePeriodMetric, metrics_at, period_key in *.
  wp_steps_reliable.
  destruct (kv w !! _) as [[]|]; simplify_eq; wp_steps_reliable;
    rewrite Hnew; by wp_steps_reliable.
Qed.

Lemma updateHourlyPatterns_reliable userId hour activity w :
  kv_faults w = [] ->
  wp (updateHourlyPatterns userId hour activity)
     (fun r w' => r = Ok tt /\ kv_faults w' = [] /\ clock w' = clock w /\
                  forall key, key <> patterns_key userId -> kv w' !! key = kv w !! key) w.
Proof.
  intros Hf. unfold updateHourlyPatterns, patterns_key.
  wp_steps_reliable.
  destruct (kv w !! _) as [[]|]; wp_steps_reliable; repeat split; try done.
  all: intros key Hkey; by rewrite lookup_insert_ne.
Qed.

Section Buckets.

Variable toDateString : Timestamp -> string.
Variables getHours getFullYear getMonth getDate : Timestamp -> Z.

#[local] Abbreviation recordActivity' :=
  (recordActivity toDateString getHours getFullYear getMonth getDate).

(** X20.  With a store that serves every call, [recordActivity] files the
    activity under the day, the week and the month of its date: the daily
    bucket takes the change of [updateDailyMetrics] and the two others the
    one of [updatePeriodMetric], each from the metrics stored before or from
    zeros, and beside the hourly patterns no other key changes.  A completed
    task counts once in each of the three. *)
Theorem recordActivity_buckets userId activity w day day' week month :
  kv_faults w = [] ->
  let date := activity_date activity (clock w) in
  let dayKey := metrics_key userId (date_toDateString toDateString date) in
  let weekKey := period_key userId "weekly" (getWeekKey getFullYear getMonth getDate date) in
  let monthKey := period_key userId "monthly" (getMonthKey getFullYear getMonth date) in
  dayKey <> weekKey -> dayKey <> monthKey ->
  metrics_at (kv w) dayKey = Some day ->
  metrics_at (kv w) weekKey = Some week ->
  metrics_at (kv w) monthKey = Some month ->
  daily_switch activity day = Ok day' ->
  let w' := snd (recordActivity' userId activity w) in
  exists week' month',
    period_switch activity week = Ok week' /\
    period_switch activity month = Ok month' /\
    kv w' !! dayKey = Some (DMetrics day') /\
    kv w' !! weekKey = Some (DMetrics week') /\
    kv w' !! monthKey = Some (DMetrics month') /\
    (forall key, key ∉ [dayKey; weekKey; monthKey; patterns_key userId] ->
                 kv w' !! key = kv w !! key) /\
    (a_type activity = task_complete ->
       counts_up (tasksCompleted day) (tasksCompleted day') /\
       counts_up (tasksCompleted week) (tasksCompleted week') /\
       counts_up (tasksCompleted month) (tasksCompleted month')).
Proof.
  intros Hf date dayKey weekKey monthKey Hdw Hdm Hday Hweek Hmonth Hswitch w'.
  subst w'.
  change (wp (recordActivity' userId activity)
            (fun _ w' => exists week' month',
               period_switch activity week = Ok week' /\
               period_switch activity month = Ok month' /\
               kv w' !! dayKey = Some (DMetrics day') /\
               kv w' !! weekKey = Some (DMetrics week') /\
               kv w' !! monthKey = Some (DMetrics month') /\
               (forall key, key ∉ [dayKey; weekKey; monthKey; patterns_key userId] ->
                            kv w' !! key = kv w !! key) /\
               (a_type activity = task_complete ->
                  counts_up (tasksCompleted day) (tasksCompleted day') /\
                  counts_up (tasksCompleted week) (tasksCompleted week') /\
                  counts_up (tasksCompleted month) (tasksCompleted month'))) w).
  unfold recordActivity. apply wp_bind, wp_note, wp_try, wp_bind, wp_now.
  fold (activity_date activity (clock w)). fold date.
  set (w0 := {| kv := kv w; kv_faults := kv_faults w; clock := clock w;
                random := random w; recorded := (userId, activity) :: recorded w |}).
  apply wp_bind.
  eapply wp_mono; [apply (updateDailyMetrics_reliable userId _ activity day day' w0);
                   [exact Hf|exact Hday|exact Hswitch]|].
  intros r w1 (-> & Hf1 & Hc1 & Hkv1).
  apply wp_bind.
  eapply wp_mono; [by apply updateHourlyPatterns_reliable|].
  intros r w2 (-> & Hf2 & Hc2 & Hkv2).
  assert (kv w2 !! dayKey = Some (DMetrics day')) as Hday2.
  { rewrite Hkv2 by apply metrics_key_not_patterns. rewrite Hkv1.
    apply lookup_insert_eq. }
  assert (forall key, key <> dayKey -> key <> patterns_key userId ->
                      kv w2 !! key = kv w !! key) as Hframe2.
  { intros key H1 H2. rewrite Hkv2 by done. rewrite Hkv1.
    by rewrite lookup_insert_ne. }
  destruct (updatePeriodMetric_reliable userId "weekly"
              (getWeekKey getFullYear getMonth getDate date) activity week w2)
    as (week' & Hweek' & Hwp3); [done| |].
  { unfold metrics_at. rewrite Hframe2; [exact Hweek|done|apply period_key_not_patterns]. }
  unfold updatePeriodMetrics. apply wp_try, wp_bind.
  eapply wp_mono; [exact Hwp3|].
  intros r w3 (-> & Hf3 & Hc3 & Hkv3).
  destruct (updatePeriodMetric_reliable userId "monthly"
              (getMonthKey getFullYear getMonth date) activity month w3)
    as (month' & Hmonth' & Hwp4); [done| |].
  { unfold metrics_at. rewrite Hkv3.
    rewrite lookup_insert_ne by apply weekly_not_monthly.
    rewrite Hframe2; [exact Hmonth|done|apply period_key_not_patterns]. }
  eapply wp_mono; [exact Hwp4|].
  intros r w4 (-> & Hf4 & Hc4 & Hkv4).
  exists week', month'. fold weekKey in Hkv3. fold monthKey in Hkv4.
  split; [done|]. split; [done|]. rewrite Hkv4, Hkv3.
  split; [|split; [|split; [|split]]].
  - by rewrite !lookup_insert_ne.
  - rewrite lookup_insert_ne by (apply not_eq_sym, weekly_not_monthly).
    apply lookup_insert_eq.
  - apply lookup_insert_eq.
  - intros key Hkey. rewrite !not_elem_of_cons in Hkey.
    destruct Hkey as (H1 & H2 & H3 & H4 & _).
    rewrite !lookup_insert_ne by done. by apply Hframe2.
  - intros Hty. unfold daily_switch, period_switch in *. rewrite Hty in *.
    simplify_eq. simpl. repeat split; apply counts_up_fadd.
Qed.

End Buckets.

Lemma recordActivity_buckets_witness :
  let w' := snd (sample_recordActivity "u1" task_completed_now empty_world) in
  exists day,
    kv w' !! metrics_key "u1" "day 0" = Some (DMetrics day) /\ tasksCompleted day == 1.
Proof.
  intros w'.
  destruct (recordActivity_buckets sample_toDateString sample_getHours sample_getFullYear
              sample_getMonth sample_getDate "u1" task_completed_now empty_world
              zero_metrics
              {| tasksCompleted := fadd 0 1; tasksCreated := 0; focusScore := 0;
                 captureCount := 0; activeProjects := 0; meetingTime := 0;
                 deepWorkTime := 0 |} zero_metrics zero_metrics)
    as (week' & month' & _ & _ & Hday & _ & _ & _ & Hcount).
  - reflexivity.
  - vm_compute. discriminate.
  - vm_compute. discriminate.
  - reflexivity.
  - reflexivity.
  - reflexivity.
  - reflexivity.
  - eexists. split; [exact Hday|].
    destruct (Hcount eq_refl) as [Hup _]. apply (Hup 0%Z); [lia|reflexivity].
Defined.

(** ** The distribution of the tasks over the assignees *)

Lemma fl_reduced (x : Q) : Qred (fl x) = fl x.
Proof.
  unfold fl. destruct (Qnum x); [done|apply Qred_complete, Qred_correct..].
Qed.

Lemma fl_integer_eq (x : Q) (n : Z) :
  (x == inject_Z n)%Q -> (Z.abs n <= 2 ^ 53)%Z -> fl x = inject_Z n.
Proof.
  intros Hx Hn. rewrite <-fl_reduced.
  rewrite (Qred_complete _ _ (fl_integer x n Hx Hn)).
  unfold inject_Z, Qred. simpl.
  pose proof (Z.ggcd_gcd n 1) as Hg. pose proof (Z.ggcd_correct_divisors n 1) as Hd.
  destruct (Z.ggcd n 1) as [g [a b]]. simpl in *.
  rewrite Z.gcd_1_r in Hg. subst g. destruct Hd as [-> Hb].
  assert (b = 1%Z) as -> by lia. f_equal. lia.
Qed.

Lemma count_assignee_other (distribution : gmap string Q) (task : Task.t) (name : string) :
  Task.assignee task <> Some name ->
  count_assignee distribution task !! name = distribution !! name.
Proof.
  intros Hother. unfold count_assignee.
  destruct (Task.assignee task) as [assignee|]; [|done].
  destruct (String.eqb_spec assignee "") as [->|Hne]; [done|].
  apply lookup_insert_ne. by intros ->.
Qed.

Lemma count_assignee_empty (distribution : gmap string Q) (task : Task.t) :
  count_assignee distribution task !! "" = distribution !! "".
Proof.
  unfold count_assignee.
  destruct (Task.assignee task) as [assignee|]; [|done].
  destruct (String.eqb_spec assignee "") as [->|Hne]; [done|].
  by apply lookup_insert_ne.
Qed.

Lemma getTaskDistribution_empty_name (tasks : list Task.t) (distribution : gmap string Q) :
  foldl count_assignee distribution tasks !! "" = distribution !! "".
Proof.
  revert distribution. induction tasks as [|task tasks IH]; intros distribution; [done|].
  simpl. by rewrite IH, count_assignee_empty.
Qed.

Lemma getTaskDistribution_from (tasks : list Task.t) (distribution : gmap string Q)
    (name : string) (k : nat) :
  name <> "" ->
  (Z.of_nat (k + length tasks) < 2 ^ 53)%Z ->
  distribution !! name = (if decide (k = 0) then None else Some (inject_Z (Z.of_nat k))) ->
  foldl count_assignee distribution tasks !! name
  = if decide (k + assigned_to name tasks = 0) then None
    else Some (inject_Z (Z.of_nat (k + assigned_to name tasks))).
Proof.
  intros Hname. revert distribution k. unfold assigned_to.
  induction tasks as [|task tasks IH]; intros distribution k Hk Hd; simpl.
  - rewrite Hd, Nat.add_0_r. done.
  - destruct (decide (Task.assignee task = Some name)) as [Ha|Ha].
    + rewrite filter_cons_True by done. simpl.
      replace (k + S (length (filter (fun task => Task.assignee task = Some name) tasks)))
        with (S k + length (filter (fun task => Task.assignee task = Some name) tasks))
        by lia.
      apply IH; [simpl in *; lia|].
      rewrite decide_False by lia.
      unfold count_assignee. rewrite Ha.
      destruct (String.eqb_spec name "") as [?|_]; [done|].
      rewrite lookup_insert_eq, Hd. f_equal. unfold fadd.
      apply fl_integer_eq; [|simpl in Hk; lia].
      destruct (decide (k = 0)) as [->|Hne]; simpl; [reflexivity|].
      assert (js_eq (inject_Z (Z.of_nat k)) 0 = false) as ->.
      { unfold js_eq. apply not_true_iff_false. rewrite Qeq_bool_iff.
        change 0%Q with (inject_Z 0). rewrite inject_Z_injective. lia. }
      rewrite Nat2Z.inj_succ. unfold Z.succ. rewrite inject_Z_plus. reflexivity.
    + rewrite filter_cons_False by done.
      apply IH; [simpl in *; lia|]. by rewrite count_assignee_other.
Qed.

(** X21.  [getTaskDistribution] counts, for every assignee, the tasks of the
    project that name this assignee; tasks with no assignee, or with the
    empty text for one, are not counted, and an assignee with no task has no
    entry.  (For assignees that bear none of the names that an object
    inherits, and fewer than 2^53 tasks.) *)
Theorem getTaskDistribution_counts (tasks : list Task.t) :
  (Z.of_nat (length tasks) < 2 ^ 53)%Z ->
  (forall task name, task ∈ tasks -> Task.assignee task = Some name ->
                     name ∉ inherited_names) ->
  forall name,
    getTaskDistribution tasks !! name
    = if decide (name = "" \/ assigned_to name tasks = 0) then None
      else Some (inject_Z (Z.of_nat (assigned_to name tasks))).
Proof.
  intros Hlen _ name. unfold getTaskDistribution.
  destruct (decide (name = "")) as [->|Hname].
  - rewrite getTaskDistribution_empty_name. by rewrite decide_True by tauto.
  - rewrite (getTaskDistribution_from tasks ∅ name 0 Hname); [|simpl; lia|done].
    simpl. destruct (decide (assigned_to name tasks = 0)) as [E|E].
    + by rewrite decide_True by tauto.
    + by rewrite decide_False by tauto.
Qed.

Lemma getTaskDistribution_counts_witness :
  let tasks := [assigned_task "t1" (Some "ada"); assigned_task "t2" None;
                assigned_task "t3" (Some "ada"); assigned_task "t4" (Some "")] in
  getTaskDistribution tasks !! "ada" = Some 2%Q /\
  getTaskDistribution tasks !! "" = None.
Proof.
  intros tasks.
  assert (forall task name, task ∈ tasks -> Task.assignee task = Some name ->
                            name ∉ inherited_names) as Hnames.
  { intros task name Hin Ha.
    assert (name = "ada" \/ name = "") as Hname.
    { repeat (apply elem_of_cons in Hin as [->|Hin]; [simpl in Ha; simplify_eq; tauto|]).
      by apply elem_of_nil in Hin. }
    destruct Hname as [->| ->]; refine (bool_decide_unpack _ _); vm_compute; exact I. }
  split.
  - rewrite (getTaskDistribution_counts tasks); [reflexivity|simpl; lia|exact Hnames].
  - rewrite (getTaskDistribution_counts tasks); [reflexivity|simpl; lia|exact Hnames].
Defined.

(** ** The focus score of the day *)

Section TodayScore.

Variable toDateString : Timestamp -> string.
Variables getHours getFullYear getMonth getDate : Timestamp -> Z.

#[local] Abbreviation recordActivity' :=
  (recordActivity toDateString getHours getFullYear getMonth getDate).

Lemma updatePeriodMetric_frame userId period key activity w :
  kv_faults w = [] ->
  wp (updatePeriodMetric userId period key activity)
     (fun _ w' => kv_faults w' = [] /\ clock w' = clock w /\
                  forall key', key' <> period_key userId period key ->
                               kv w' !! key' = kv w !! key') w.
Proof.
  intros Hf. unfold updatePeriodMetric, period_key. wp_steps_reliable.
  destruct (kv w !! _) as [[]|]; wp_steps_reliable; try done.
  all: destruct (period_switch activity _); wp_steps_reliable; try done.
  all: repeat split; try done; intros key' Hkey; by rewrite lookup_insert_ne.
Qed.

Lemma updatePeriodMetrics_frame userId date activity w :
  kv_faults w = [] ->
  wp (updatePeriodMetrics getFullYear getMonth getDate userId date activity)
     (fun r w' => r = Ok tt /\ kv_faults w' = [] /\ clock w' = clock w /\
                  forall key,
                    key <> period_key userId "weekly"
                             (getWeekKey getFullYear getMonth getDate date) ->
                    key <> period_key userId "monthly" (getMonthKey getFullYear getMonth date) ->
                    kv w' !! key = kv w !! key) w.
Proof.
  intros Hf. unfold updatePeriodMetrics. apply wp_try, wp_bind.
  eapply wp_mono; [by apply updatePeriodMetric_frame|].
  intros [[]|e] w1 (Hf1 & Hc1 & Hkv1).
  - eapply wp_mono; [by apply updatePeriodMetric_frame|].
    intros [[]|e] w2 (Hf2 & Hc2 & Hkv2).
    + repeat split; try congruence. intros key H1 H2. by rewrite Hkv2, Hkv1.
    + apply wp_log. repeat split; try congruence.
      intros key H1 H2. by rewrite Hkv2, Hkv1.
  - apply wp_log. repeat split; try congruence. intros key H1 H2. by rewrite Hkv1.
Qed.

Lemma recordActivity_day userId activity w day day' :
  kv_faults w = [] ->
  let date := activity_date activity (clock w) in
  let dayKey := metrics_key userId (date_toDateString toDateString date) in
  dayKey <> period_key userId "weekly" (getWeekKey getFullYear getMonth getDate date) ->
  dayKey <> period_key userId "monthly" (getMonthKey getFullYear getMonth date) ->
  metrics_at (kv w) dayKey = Some day ->
  daily_switch activity day = Ok day' ->
  wp (recordActivity' userId activity)
     (fun r w' => r = Ok tt /\ kv_faults w' = [] /\ clock w' = clock w /\
                  kv w' !! dayKey = Some (DMetrics day')) w.
Proof.
  intros Hf date dayKey Hdw Hdm Hday Hswitch.
  unfold recordActivity. apply wp_bind, wp_note, wp_try, wp_bind, wp_now.
  fold (activity_date activity (clock w)). fold date.
  set (w0 := {| kv := kv w; kv_faults := kv_faults w; clock := clock w;
                random := random w; recorded := (userId, activity) :: recorded w |}).
  apply wp_bind.
  eapply wp_mono; [apply (updateDailyMetrics_reliable userId _ activity day day' w0);
                   [exact Hf|exact Hday|exact Hswitch]|].
  intros r w1 (-> & Hf1 & Hc1 & Hkv1).
  apply wp_bind.
  eapply wp_mono; [by apply updateHourlyPatterns_reliable|].
  intros r w2 (-> & Hf2 & Hc2 & Hkv2).
  eapply wp_mono; [by apply updatePeriodMetrics_frame|].
  intros r w3 (-> & Hf3 & Hc3 & Hkv3).
  split; [done|]. split; [done|]. split; [simpl in *; congruence|].
  rewrite Hkv3 by done. rewrite Hkv2 by apply metrics_key_not_patterns.
  rewrite Hkv1. apply lookup_insert_eq.
Qed.

(** X22.  [getCurrentFocusScore] never throws and never writes: it answers 0
    when the read fails or the day has no metrics.  After [recordActivity]
    has filed an activity with no timestamp of its own, on a store that
    serves every call, it answers the score of the daily bucket.  Only a
    focus session recomputes that score: after any other activity, also a
    meeting, whose time the score depends on, the answer is the score from
    before. *)
Theorem getCurrentFocusScore_after userId activity w day day' :
  kv_faults w = [] ->
  a_timestamp activity = ts_absent ->
  let dayKey := metrics_key userId (toDateString (clock w)) in
  dayKey <> period_key userId "weekly"
              (getWeekKey getFullYear getMonth getDate (Some (clock w))) ->
  dayKey <> period_key userId "monthly" (getMonthKey getFullYear getMonth (Some (clock w))) ->
  metrics_at (kv w) dayKey = Some day ->
  daily_switch activity day = Ok day' ->
  let w' := snd (recordActivity' userId activity w) in
  fst (getCurrentFocusScore toDateString userId w') = Ok (or_zero (Some (focusScore day'))) /\
  (a_type activity = focus_session -> focusScore day' = calculateFocusScore day') /\
  (a_type activity <> focus_session -> focusScore day' = focusScore day) /\
  (forall w0, exists score,
     fst (getCurrentFocusScore toDateString userId w0) = Ok score /\
     kv (snd (getCurrentFocusScore toDateString userId w0)) = kv w0 /\
     (kv w0 !! metrics_key userId (toDateString (clock w0)) = None -> score = 0%Q) /\
     (head (kv_faults w0) = Some true -> score = 0%Q)).
Proof.
  intros Hf Hts dayKey Hdw Hdm Hday Hswitch w'.
  split; [|split; [|split]].
  - pose proof (recordActivity_day userId activity w day day' Hf) as Hrec.
    unfold activity_date in Hrec. rewrite Hts in Hrec. simpl in Hrec.
    specialize (Hrec Hdw Hdm Hday Hswitch). unfold wp in Hrec.
    destruct Hrec as (_ & Hf' & Hc' & Hkv'). fold w' in Hf', Hc', Hkv'.
    change (wp (getCurrentFocusScore toDateString userId)
              (fun r _ => r = Ok (or_zero (Some (focusScore day')))) w').
    unfold getCurrentFocusScore. wp_steps_reliable. rewrite Hc'.
    unfold dayKey, metrics_key in Hkv'. rewrite Hkv'. by wp_steps_reliable.
  - intros Hty. unfold daily_switch in Hswitch. rewrite Hty in Hswitch.
    destruct (plus_assign _ _); simpl in Hswitch; by simplify_eq.
  - intros Hty. unfold daily_switch in Hswitch.
    destruct (a_type activity); try done; simpl in Hswitch;
      try (destruct (plus_assign _ _); simpl in Hswitch); by simplify_eq.
  - intros w0.
    assert (wp (getCurrentFocusScore toDateString userId)
              (fun r w1 => exists score, r = Ok score /\ kv w1 = kv w0 /\
                 (kv w0 !! metrics_key userId (toDateString (clock w0)) = None ->
                  score = 0%Q) /\
                 (head (kv_faults w0) = Some true -> score = 0%Q)) w0) as Hwp.
    { unfold getCurrentFocusScore, metrics_key.
      apply wp_try, wp_bind, wp_now, wp_bind, wp_get_next.
      destruct (head (kv_faults w0)) as [[]|] eqn:Hhead.
      - wp_steps. by eexists.
      - destruct (kv w0 !! _) as [[]|]; wp_steps; eexists; repeat split; done.
      - destruct (kv w0 !! _) as [[]|]; wp_steps; eexists; repeat split; done. }
    exact Hwp.
Qed.

End TodayScore.

Lemma getCurrentFocusScore_after_witness :
  let w' := snd (sample_recordActivity "u1" focus_45 empty_world) in
  fst (getCurrentFocusScore sample_toDateString "u1" w') = Ok 60%Q.
Proof.
  intros w'.
  destruct (getCurrentFocusScore_after sample_toDateString sample_getHours sample_getFullYear
              sample_getMonth sample_getDate "u1" focus_45 empty_world zero_metrics
              {| tasksCompleted := 0; tasksCreated := 0; focusScore := 60;
                 captureCount := 0; activeProjects := 0; meetingTime := 0;
                 deepWorkTime := 45 |}) as (H & _).
  - reflexivity.
  - reflexivity.
  - vm_compute. discriminate.
  - vm_compute. discriminate.
  - reflexivity.
  - vm_compute. reflexivity.
  - exact H.
Defined.
